(** * sparkwallet: secret vault, session store, initialization, claim loop
      and balance reconciliation

    A shallow embedding of
      - lib/crypto            ([encryptMnemonic], [decryptMnemonic]),
      - lib/use-mnemonic-store (the persisted zustand store of the vault and
        of the session),
      - lib/use-wallet-store   ([loadStoredWallet], the l1Deposit polling
        query and the [handleBalanceUpdate] effect),
      - the other actions of the two stores, the handlers of the pages that
        call them (entry, create, set-password, unlock, settings, the
        layout of /home) and types/currency,
    together with the parts of the browser platform these functions call:
    [TextEncoder]/[TextDecoder], [btoa]/[atob], [crypto.getRandomValues],
    [crypto.randomUUID], Web Storage and zustand's [persist] middleware.
    What differs between JavaScript engines (the number of arguments a call
    may have, the messages of the engine's own exceptions) is a parameter
    ([Engine]).

    PBKDF2 and AES-GCM are not re-implemented: they are an interface
    ([WebCrypto]) with the one law the code relies on ([WebCryptoLaws]);
    that a wrong key is rejected is a second law, assumed only where a
    statement says so ([WebCryptoAuthentic]). *)

From Stdlib Require Import NArith ZArith List Lia Bool ZifyNat.
From Stdlib Require Import Strings.Byte.
From stdpp Require Import gmap strings list.
Import ListNotations.

(** ** Bytes and JavaScript strings *)

(** A [Uint8Array] is a list of bytes; a JavaScript string is a list of
    UTF-16 code units (each below 65536). *)
Abbreviation bytes := (list byte).
Abbreviation jsstring := (list N).

#[export] Instance byte_eq_decision : EqDecision byte := Byte.byte_eq_dec.

Definition byte_of_N (n : N) : byte :=
  match Byte.of_N n with
  | Some b => b
  | None => x00
  end.

(** ASCII text as a JavaScript string, for literals of the source. *)
Definition js (s : string) : jsstring :=
  map (fun a => N.of_nat (Ascii.nat_of_ascii a)) (String.list_ascii_of_string s).

(** JavaScript truthiness of [string | null]: non-null and non-empty. *)
Definition truthy (s : option jsstring) : bool :=
  match s with
  | Some (_ :: _) => true
  | _ => false
  end.

Module Utf16.
Local Open Scope N_scope.

Definition is_lead (c : N) : bool := (0xD800 <=? c) && (c <=? 0xDBFF).
Definition is_trail (c : N) : bool := (0xDC00 <=? c) && (c <=? 0xDFFF).
Definition is_surrogate (c : N) : bool := (0xD800 <=? c) && (c <=? 0xDFFF).

(** A Unicode scalar value: a code point that is not a surrogate. *)
Definition is_scalar (c : N) : bool := (c <? 0x110000) && negb (is_surrogate c).

(** WebIDL's conversion of a JavaScript string to a [USVString], which
    [TextEncoder.encode] applies to its argument: a surrogate pair is one
    supplementary code point, an unpaired surrogate becomes U+FFFD. *)
Fixpoint to_scalars (s : jsstring) : list N :=
  match s with
  | [] => []
  | c :: rest =>
      if is_lead c then
        match rest with
        | d :: rest' =>
            if is_trail d
            then (0x10000 + (c - 0xD800) * 0x400 + (d - 0xDC00)) :: to_scalars rest'
            else 0xFFFD :: to_scalars rest
        | [] => [0xFFFD]
        end
      else if is_trail c then 0xFFFD :: to_scalars rest
      else c :: to_scalars rest
  end.

(** A code point as UTF-16 code units. *)
Definition of_scalar (cp : N) : jsstring :=
  if cp <? 0x10000 then [cp]
  else [0xD800 + (cp - 0x10000) / 0x400; 0xDC00 + (cp - 0x10000) mod 0x400].

Definition of_scalars (cps : list N) : jsstring := flat_map of_scalar cps.

(** Well-formed strings: every code unit fits 16 bits and surrogates come
    in lead/trail pairs. *)
Fixpoint well_formed (s : jsstring) : bool :=
  match s with
  | [] => true
  | c :: rest =>
      if is_lead c then
        match rest with
        | d :: rest' => is_trail d && well_formed rest'
        | [] => false
        end
      else (c <? 0x10000) && negb (is_trail c) && well_formed rest
  end.
End Utf16.

Module Utf8.
Local Open Scope N_scope.

(** The UTF-8 encoder of the Encoding Standard, for one scalar value. *)
Definition encode_scalar (cp : N) : bytes :=
  if cp <? 0x80 then [byte_of_N cp]
  else if cp <? 0x800 then
    [byte_of_N (0xC0 + cp / 0x40); byte_of_N (0x80 + cp mod 0x40)]
  else if cp <? 0x10000 then
    [byte_of_N (0xE0 + cp / 0x1000);
     byte_of_N (0x80 + (cp / 0x40) mod 0x40);
     byte_of_N (0x80 + cp mod 0x40)]
  else
    [byte_of_N (0xF0 + cp / 0x40000);
     byte_of_N (0x80 + (cp / 0x1000) mod 0x40);
     byte_of_N (0x80 + (cp / 0x40) mod 0x40);
     byte_of_N (0x80 + cp mod 0x40)].

Definition encode (cps : list N) : bytes := flat_map encode_scalar cps.

(** The state of the Encoding Standard's UTF-8 decoder. *)
Record state := {
  code_point : N;
  bytes_seen : N;
  bytes_needed : N;
  lower_boundary : N;
  upper_boundary : N;
}.

Definition init : state :=
  {| code_point := 0; bytes_seen := 0; bytes_needed := 0;
     lower_boundary := 0x80; upper_boundary := 0xBF |}.

(** The decoder's handler when no continuation byte is awaited: the new
    state and the code points emitted. *)
Definition lead (b : N) : state * list N :=
  if b <=? 0x7F then (init, [b])
  else if (0xC2 <=? b) && (b <=? 0xDF) then
    ({| code_point := b mod 0x20; bytes_seen := 0; bytes_needed := 1;
        lower_boundary := 0x80; upper_boundary := 0xBF |}, [])
  else if (0xE0 <=? b) && (b <=? 0xEF) then
    ({| code_point := b mod 0x10; bytes_seen := 0; bytes_needed := 2;
        lower_boundary := if b =? 0xE0 then 0xA0 else 0x80;
        upper_boundary := if b =? 0xED then 0x9F else 0xBF |}, [])
  else if (0xF0 <=? b) && (b <=? 0xF4) then
    ({| code_point := b mod 0x08; bytes_seen := 0; bytes_needed := 3;
        lower_boundary := if b =? 0xF0 then 0x90 else 0x80;
        upper_boundary := if b =? 0xF4 then 0x8F else 0xBF |}, [])
  else (init, [0xFFFD]).

(** The handler for a byte in any state. A byte outside the awaited range
    is an error (U+FFFD) and is then handled again as a first byte. *)
Definition step (st : state) (b : N) : state * list N :=
  if bytes_needed st =? 0 then lead b
  else if (lower_boundary st <=? b) && (b <=? upper_boundary st) then
    let cp := code_point st * 0x40 + b mod 0x40 in
    if bytes_seen st + 1 =? bytes_needed st then (init, [cp])
    else ({| code_point := cp; bytes_seen := bytes_seen st + 1;
             bytes_needed := bytes_needed st;
             lower_boundary := 0x80; upper_boundary := 0xBF |}, [])
  else let '(st', out) := lead b in (st', 0xFFFD :: out).

Fixpoint decode_from (st : state) (bs : bytes) : list N :=
  match bs with
  | [] => if bytes_needed st =? 0 then [] else [0xFFFD]
  | b :: rest =>
      let '(st', out) := step st (Byte.to_N b) in
      out ++ decode_from st' rest
  end.

Definition decode (bs : bytes) : list N := decode_from init bs.
End Utf8.

(** [new TextEncoder().encode(s)]. *)
Definition TextEncoder_encode (s : jsstring) : bytes :=
  Utf8.encode (Utf16.to_scalars s).

(** [new TextDecoder().decode(bs)]: UTF-8, not fatal, and [ignoreBOM] is
    false, so a leading U+FEFF of the decoded text is dropped. *)
Definition has_bom (cps : list N) : bool :=
  match cps with
  | 0xFEFF%N :: _ => true
  | _ => false
  end.

Definition strip_bom (cps : list N) : list N :=
  if has_bom cps then tail cps else cps.

Definition TextDecoder_decode (bs : bytes) : jsstring :=
  Utf16.of_scalars (strip_bom (Utf8.decode bs)).

(** ** Exceptions *)

(** The values this code throws or lets escape: a [DOMException] of the
    platform (with its name and message, as [atob] and [btoa] throw), an
    [Error] with its message, a [RangeError] of the engine, or some other
    thrown value. *)
Inductive exn :=
  | DOMException (name message : string)
  | Error (message : string)
  | RangeError (message : string)
  | Thrown.

Inductive result (A : Type) :=
  | Ok (a : A)
  | Throw (e : exn).
Arguments Ok {A} a.
Arguments Throw {A} e.

Definition InvalidCharacterError (message : string) : exn :=
  DOMException "InvalidCharacterError" message.

(** [error instanceof Error ? error.message : fallback]. A [RangeError]
    and a [DOMException] are instances of [Error]. *)
Definition message_or (e : exn) (fallback : string) : string :=
  match e with
  | Error m | RangeError m | DOMException _ m => m
  | Thrown => fallback
  end.

(** What differs from one JavaScript engine to the next and shows in this
    code: the number of arguments a call may have ([f(...array)] throws a
    [RangeError] beyond it), and the messages of the exceptions that the
    engine itself throws. *)
Class Engine := {
  maxArguments : N;
  RangeError_message : string;
  btoa_message : string;
  atob_message : string;
}.

(** ** [btoa] and [atob] *)

Module Base64.
Local Open Scope N_scope.

(** The character of a 6-bit value in the base64 alphabet
    [A-Z a-z 0-9 + /]. *)
Definition char_of (i : N) : N :=
  if i <? 26 then 65 + i
  else if i <? 52 then 97 + (i - 26)
  else if i <? 62 then 48 + (i - 52)
  else if i =? 62 then 43
  else 47.

Definition index_of (c : N) : option N :=
  if (65 <=? c) && (c <=? 90) then Some (c - 65)
  else if (97 <=? c) && (c <=? 122) then Some (c - 97 + 26)
  else if (48 <=? c) && (c <=? 57) then Some (c - 48 + 52)
  else if c =? 43 then Some 62
  else if c =? 47 then Some 63
  else None.

Definition pad : N := 61.

(** A 6-bit value; a byte as a number. *)
Definition sextet (i : N) : Prop := i < 64.
Definition octet (b : N) : Prop := b < 256.

(** The 6-bit values of a byte sequence: three bytes give four values; a
    final group of one or two bytes gives two or three, its last value
    filled with zero bits. *)
Fixpoint sextets (bs : list N) : list N :=
  match bs with
  | [] => []
  | [a] => [a / 4; a mod 4 * 16]
  | [a; b] => [a / 4; a mod 4 * 16 + b / 16; b mod 16 * 4]
  | a :: b :: c :: rest =>
      a / 4 :: (a mod 4 * 16 + b / 16) :: (b mod 16 * 4 + c / 64)
      :: c mod 64 :: sextets rest
  end.

(** The number of [=] that fill the last group of four characters. *)
Fixpoint padding (bs : list N) : nat :=
  match bs with
  | [] => 0
  | [_] => 2
  | [_; _] => 1
  | _ :: _ :: _ :: rest => padding rest
  end.

Definition encode (bs : list N) : jsstring :=
  map char_of (sextets bs) ++ repeat pad (padding bs).

(** [btoa(s)]: [s] must be a binary string (code units up to 255). *)
Definition btoa {engine : Engine} (s : jsstring) : result jsstring :=
  if forallb (fun c => c <=? 255) s then Ok (encode s)
  else Throw (InvalidCharacterError btoa_message).

Definition is_ascii_whitespace (c : N) : bool :=
  (c =? 9) || (c =? 10) || (c =? 12) || (c =? 13) || (c =? 32).

(** Remove one or two [=] from the end. *)
Definition strip_padding (s : jsstring) : jsstring :=
  match rev s with
  | 61 :: 61 :: r => rev r
  | 61 :: r => rev r
  | _ => s
  end.

Fixpoint indices (s : jsstring) : option (list N) :=
  match s with
  | [] => Some []
  | c :: rest =>
      match index_of c, indices rest with
      | Some i, Some more => Some (i :: more)
      | _, _ => None
      end
  end.

(** Four 6-bit values give three bytes; of a final group of two or three
    values the left-over low bits are dropped. *)
Fixpoint decode (sextets : list N) : list N :=
  match sextets with
  | p :: q :: r :: s :: rest =>
      (p * 4 + q / 16) :: (q mod 16 * 16 + r / 4) :: (r mod 4 * 64 + s)
      :: decode rest
  | [p; q; r] => [p * 4 + q / 16; q mod 16 * 16 + r / 4]
  | [p; q] => [p * 4 + q / 16]
  | _ => []
  end.

(** [atob(s)]: the forgiving-base64 decode of the HTML Standard. *)
Definition atob {engine : Engine} (s : jsstring) : result jsstring :=
  let data := List.filter (fun c => negb (is_ascii_whitespace c)) s in
  let data :=
    if (length data mod 4 =? 0)%nat then strip_padding data else data in
  if (length data mod 4 =? 1)%nat
  then Throw (InvalidCharacterError atob_message)
  else
    match indices data with
    | Some sextets => Ok (decode sextets)
    | None => Throw (InvalidCharacterError atob_message)
    end.
End Base64.

(** [String.fromCharCode(b0, b1, ...)]: the binary string of the bytes. *)
Definition String_fromCharCode (bs : bytes) : jsstring := map Byte.to_N bs.

(** [f(...array)] passes one argument per element: whether the engine
    accepts a call with that many. *)
Definition spreads {engine : Engine} {A} (array : list A) : bool :=
  (N.of_nat (length array) <=? maxArguments)%N.

(** [String.fromCharCode(...bytes)]. *)
Definition String_fromCharCode_spread {engine : Engine} (bs : bytes)
  : result jsstring :=
  if spreads bs then Ok (String_fromCharCode bs)
  else Throw (RangeError RangeError_message).

(** [Uint8Array.from(s, (c) => c.charCodeAt(0))]: each code unit modulo
    256, as storing a number in a [Uint8Array] does. *)
Definition Uint8Array_from (s : jsstring) : bytes :=
  map (fun c => byte_of_N (c mod 256)%N) s.

(** [a.slice(from)] and [a.slice(from, to)]. *)
Definition slice_from {A} (from : nat) (a : list A) : list A := skipn from a.
Definition slice {A} (from to : nat) (a : list A) : list A :=
  firstn (to - from) (skipn from a).

(** ** Randomness *)

(** The entropy behind [crypto.getRandomValues] and [crypto.randomUUID]: an
    unbounded supply of bytes and how many were taken so far. *)
Record Rng := {
  entropy : nat -> byte;
  cursor : nat;
}.

(** [crypto.getRandomValues(new Uint8Array(n))]. *)
Definition getRandomValues (n : nat) (g : Rng) : bytes * Rng :=
  (map (entropy g) (seq (cursor g) n),
   {| entropy := entropy g; cursor := cursor g + n |}).

Definition hex_digit (n : N) : N :=
  if (n <? 10)%N then (48 + n)%N else (87 + n)%N.

Definition hex (bs : list N) : jsstring :=
  flat_map (fun b => [hex_digit (b / 16); hex_digit (b mod 16)]%N) bs.

(** [crypto.randomUUID()]: a version 4 UUID from 16 random bytes, in the
    form 8-4-4-4-12 of lower-case hexadecimal digits. *)
Definition randomUUID (g : Rng) : jsstring * Rng :=
  let '(r, g') := getRandomValues 16 g in
  let r := map Byte.to_N r in
  let r := alter (fun b => b mod 16 + 0x40)%N 6%nat r in
  let r := alter (fun b => b mod 64 + 0x80)%N 8%nat r in
  (hex (slice 0 4 r) ++ js "-" ++ hex (slice 4 6 r) ++ js "-"
   ++ hex (slice 6 8 r) ++ js "-" ++ hex (slice 8 10 r) ++ js "-"
   ++ hex (slice 10 16 r), g').

(** ** The Web Crypto primitives *)

(** [crypto.subtle] as this code uses it: [importKey] of the raw password
    followed by [deriveKey] with PBKDF2 (salt, iterations, hash) to an
    AES-GCM key of the given length, and AES-GCM [encrypt] and [decrypt]
    under a key and an IV. [decrypt] rejects with [None]. *)
Class WebCrypto := {
  CryptoKey : Type;
  PBKDF2_deriveKey :
    forall (password salt : bytes) (iterations : N) (hash : string)
           (length : N), CryptoKey;
  AES_GCM_encrypt : CryptoKey -> bytes -> bytes -> bytes;
  AES_GCM_decrypt : CryptoKey -> bytes -> bytes -> option bytes;
}.

(** The law of an authenticated cipher the vault relies on: what was
    encrypted under a key and an IV decrypts under them to the same data. *)
Class WebCryptoLaws (C : WebCrypto) : Prop := {
  AES_GCM_decrypt_encrypt :
    forall (k : CryptoKey) (iv data : bytes),
      AES_GCM_decrypt k iv (AES_GCM_encrypt k iv data) = Some data;
}.


(** ** lib/crypto *)

Section Vault.
Context {engine : Engine} {crypto : WebCrypto}.

(** [encryptMnemonic(mnemonic, password)]. The salt and then the IV are
    drawn from the entropy, and the result array is the salt, the IV and
    the ciphertext one after the other. The last line spreads that array
    into the arguments of [String.fromCharCode], which throws when they
    are more than the engine accepts. *)
Definition encryptMnemonic (mnemonic password : jsstring) (g : Rng)
  : result jsstring * Rng :=
  let data := TextEncoder_encode mnemonic in
  let keyMaterial := TextEncoder_encode password in
  let '(salt, g) := getRandomValues 16 g in
  let key := PBKDF2_deriveKey keyMaterial salt 100000 "SHA-256" 256 in
  let '(iv, g) := getRandomValues 12 g in
  let ciphertext := AES_GCM_encrypt key iv data in
  let result := salt ++ iv ++ ciphertext in
  (match String_fromCharCode_spread result with
   | Ok binary => Base64.btoa binary
   | Throw e => Throw e
   end, g).

(** [decryptMnemonic(encryptedMnemonic, password)]. Only the call of
    [decrypt] is inside the [try]. *)
Definition decryptMnemonic (encryptedMnemonic password : jsstring)
  : result jsstring :=
  match Base64.atob encryptedMnemonic with
  | Throw e => Throw e
  | Ok binary =>
      let encryptedData := Uint8Array_from binary in
      let salt := slice 0 16 encryptedData in
      let iv := slice 16 28 encryptedData in
      let ciphertext := slice_from 28 encryptedData in
      let keyMaterial := TextEncoder_encode password in
      let key := PBKDF2_deriveKey keyMaterial salt 100000 "SHA-256" 256 in
      match AES_GCM_decrypt key iv ciphertext with
      | Some decrypted => Ok (TextDecoder_decode decrypted)
      | None => Throw (Error "Invalid password")
      end
  end.

(** The bytes [encryptMnemonic] puts in the envelope (before base64):
    salt, IV and ciphertext, with the salt and the IV it draws from [g]. *)
Definition sealed (mnemonic password : jsstring) (g : Rng) : bytes :=
  let salt := (getRandomValues 16 g).1 in
  let iv := (getRandomValues 12 (getRandomValues 16 g).2).1 in
  let key :=
    PBKDF2_deriveKey (TextEncoder_encode password) salt 100000 "SHA-256" 256 in
  salt ++ iv ++ AES_GCM_encrypt key iv (TextEncoder_encode mnemonic).
End Vault.


(** ** Stores, storage and effects *)

(** lib/use-mnemonic-store: the data of the store (its actions are the
    functions below). [expiresAt] is in milliseconds since the epoch. *)
Record Session := {
  sessionKey : option jsstring;
  expiresAt : option Z;
}.

Record MnemonicState := {
  encryptedMnemonic : option jsstring;
  sessionEncryptedMnemonic : option jsstring;
  session : Session;
}.

Definition initialMnemonicState : MnemonicState :=
  {| encryptedMnemonic := None;
     sessionEncryptedMnemonic := None;
     session := {| sessionKey := None; expiresAt := None |} |}.

Inductive InitializationStatus :=
  | idle
  | loading
  | success
  | needs_password
  | no_wallet
  | error.

#[export] Instance InitializationStatus_eq_dec : EqDecision InitializationStatus.
Proof. solve_decision. Defined.

(** What the ledger client answers for a wallet it has opened. *)
Record SparkWallet := {
  getSparkAddress : result string;
  getIdentityPublicKey : result string;
  getUnusedDepositAddresses : result (list string);
}.

(** [wallet.getBalance()]: each part may be missing
    ([currentBalance?.balance ?? 0]). Balances are integers; [Number(...)]
    of a balance is taken exact (it is, below 2^53). *)
Record Balance := {
  response_balance : option Z;
  response_tokenBalances : option (gmap string Z);
}.

(** lib/use-wallet-store: the data of the store. The currency fields
    ([activeInputCurrency], [activeAsset], [assets]) play no part in the
    functions embedded here and are left out. *)
Record WalletState := {
  wallet : option SparkWallet;
  sparkAddress : string;
  pubkey : string;
  initWalletNetwork : string;
  mnemonic : option jsstring;
  isInitialized : bool;
  initializationStatus : InitializationStatus;
  initializationError : option string;
  onchainDepositAddresses : gset string;
  btcBalance : option Z;
  tokenBalances : gmap string Z;
}.

Definition DEFAULT_NETWORK : string := "MAINNET".
Definition MNEMONIC_STORAGE_KEY : string := "spark_wallet_mnemonic".
Definition SEED_STORAGE_KEY : string := "spark_wallet_seed".
Definition PERSIST_NAME : string := "mnemonic-storage".

Definition initialWalletState : WalletState :=
  {| wallet := None; sparkAddress := ""; pubkey := "";
     initWalletNetwork := DEFAULT_NETWORK; mnemonic := None;
     isInitialized := false; initializationStatus := idle;
     initializationError := None; onchainDepositAddresses := ∅;
     btcBalance := None; tokenBalances := ∅ |}.

(** What the code does to the outside: calls of the ledger client, toasts,
    query invalidations and the mismatch warning, in the order made. *)
Inductive Effect :=
  | SdkInitialize (mnemonicOrSeed : jsstring) (network : string)
  | SdkGetLatestDepositTxId (address : string)
  | SdkClaimDeposit (txId : string)
  | SdkGetBalance
  | ToastFundsReceived (increasedAmount : Z)
  | InvalidateQueries (queryKey : list string)
  | WarnBalanceMismatch (eventType : string) (fromEvent fetched : Z).

(** The whole state the embedded functions act on. [localStorage] survives
    a restart of the application; [sessionStorage] and the two in-memory
    stores do not. The value zustand's [persist] keeps in [localStorage] is
    the JSON text of the store's data; it is kept here as the data. *)
Record World := {
  rng : Rng;
  localStorage : gmap string MnemonicState;
  sessionStorage : gmap string jsstring;
  mnemonicStore : MnemonicState;
  walletStore : WalletState;
  effects : list Effect;
}.

Definition initialWorld (g : Rng) : World :=
  {| rng := g; localStorage := ∅; sessionStorage := ∅;
     mnemonicStore := initialMnemonicState;
     walletStore := initialWalletState; effects := [] |}.

(** ** A state and exception monad *)

Definition M (A : Type) : Type := World -> result A * World.

#[export] Instance M_ret : MRet M := fun A a w => (Ok a, w).
#[export] Instance M_bind : MBind M := fun A B k m w =>
  match m w with
  | (Ok a, w') => k a w'
  | (Throw e, w') => (Throw e, w')
  end.

Definition throw {A} (e : exn) : M A := fun w => (Throw e, w).
Definition lift {A} (r : result A) : M A := fun w => (r, w).
Definition gets {A} (f : World -> A) : M A := fun w => (Ok (f w), w).
Definition modify (f : World -> World) : M unit := fun w => (Ok tt, f w).

(** [try { body } catch (error) { handler }]. *)
Definition try_catch {A} (body : M A) (handler : exn -> M A) : M A := fun w =>
  match body w with
  | (Throw e, w') => handler e w'
  | r => r
  end.

Definition with_rng (g : Rng) (w : World) : World :=
  {| rng := g; localStorage := localStorage w;
     sessionStorage := sessionStorage w; mnemonicStore := mnemonicStore w;
     walletStore := walletStore w; effects := effects w |}.

Definition with_sessionStorage (s : gmap string jsstring) (w : World) : World :=
  {| rng := rng w; localStorage := localStorage w; sessionStorage := s;
     mnemonicStore := mnemonicStore w; walletStore := walletStore w;
     effects := effects w |}.

Definition with_walletStore (s : WalletState) (w : World) : World :=
  {| rng := rng w; localStorage := localStorage w;
     sessionStorage := sessionStorage w; mnemonicStore := mnemonicStore w;
     walletStore := s; effects := effects w |}.

Definition performAll (es : list Effect) : M unit := modify (fun w =>
  {| rng := rng w; localStorage := localStorage w;
     sessionStorage := sessionStorage w; mnemonicStore := mnemonicStore w;
     walletStore := walletStore w; effects := effects w ++ es |}).

Definition perform (e : Effect) : M unit := performAll [e].

(** Run a computation that draws from the entropy. *)
Definition random {A} (f : Rng -> A * Rng) : M A := fun w =>
  let '(a, g) := f (rng w) in (Ok a, with_rng g w).

Definition sessionStorage_getItem (key : string) : M (option jsstring) :=
  gets (fun w => sessionStorage w !! key).

Definition sessionStorage_setItem (key : string) (value : jsstring) : M unit :=
  modify (fun w => with_sessionStorage (<[key := value]> (sessionStorage w)) w).

(** ** lib/use-mnemonic-store *)

(** [set(...)] of the store wrapped in [persist]: the new data replace the
    old in memory and are written to [localStorage] under the store's name
    (no [partialize] option is given, so all data fields are written). *)
Definition set_mnemonicStore (patch : MnemonicState -> MnemonicState) : M unit :=
  modify (fun w =>
    let s := patch (mnemonicStore w) in
    {| rng := rng w; localStorage := <[PERSIST_NAME := s]> (localStorage w);
       sessionStorage := sessionStorage w; mnemonicStore := s;
       walletStore := walletStore w; effects := effects w |}).

(** A full restart of the application: memory and [sessionStorage] are
    gone, [localStorage] is kept, and [persist] hydrates the new store from
    what it finds there (merged over the initial state; all three data
    fields are stored, so the stored ones win). *)
Definition restart (w : World) : World :=
  {| rng := rng w; localStorage := localStorage w; sessionStorage := ∅;
     mnemonicStore := default initialMnemonicState (localStorage w !! PERSIST_NAME);
     walletStore := initialWalletState; effects := effects w |}.

(** The in-memory store and its copy in [localStorage] agree, as they do
    after every [set]. *)
Definition persisted (w : World) : Prop :=
  localStorage w !! PERSIST_NAME = Some (mnemonicStore w).

(** Truthiness of [number | null]: not null and not zero. *)
Definition truthy_number (n : option Z) : bool :=
  match n with
  | Some z => negb (z =? 0)%Z
  | None => false
  end.

Section MnemonicStore.
Context {engine : Engine} {crypto : WebCrypto}.

Definition saveEncryptedMnemonic (mnemonic password : jsstring) : M unit :=
  encrypted ← random (encryptMnemonic mnemonic password) ≫= lift;
  set_mnemonicStore (fun s =>
    {| encryptedMnemonic := Some encrypted;
       sessionEncryptedMnemonic := sessionEncryptedMnemonic s;
       session := session s |}).

Definition getDecryptedMnemonic (password : jsstring) : M jsstring :=
  encryptedMnemonic ← gets (fun w => encryptedMnemonic (mnemonicStore w));
  match encryptedMnemonic with
  | Some ((_ :: _) as encrypted) => lift (decryptMnemonic encrypted password)
  | _ => throw (Error "No encrypted mnemonic found")
  end.

(** [startSession(password)], called when [Date.now()] is [now]. *)
Definition startSession (password : jsstring) (now : Z) : M unit :=
  mnemonic ← getDecryptedMnemonic password;
  sessionKey ← random randomUUID;
  sessionEncryptedMnemonic ← random (encryptMnemonic mnemonic sessionKey) ≫= lift;
  let expiresAt := (now + 30 * 60 * 1000)%Z in
  set_mnemonicStore (fun s =>
    {| encryptedMnemonic := encryptedMnemonic s;
       sessionEncryptedMnemonic := Some sessionEncryptedMnemonic;
       session := {| sessionKey := Some sessionKey;
                     expiresAt := Some expiresAt |} |}).

(** [getSessionMnemonic()], called when [Date.now()] is [now]. *)
Definition getSessionMnemonic (now : Z) : M (option jsstring) :=
  s ← gets mnemonicStore;
  match sessionKey (session s), expiresAt (session s),
        sessionEncryptedMnemonic s with
  | Some key, Some expires, Some encrypted =>
      if truthy (Some key) && truthy_number (Some expires)
         && (now <? expires)%Z && truthy (Some encrypted)
      then mnemonic ← lift (decryptMnemonic encrypted key); mret (Some mnemonic)
      else mret None
  | _, _, _ => mret None
  end.

Definition endSession : M unit :=
  set_mnemonicStore (fun s =>
    {| encryptedMnemonic := encryptedMnemonic s;
       sessionEncryptedMnemonic := None;
       session := {| sessionKey := None; expiresAt := None |} |}).

Definition clearEncryptedMnemonic : M unit :=
  set_mnemonicStore (fun _ => initialMnemonicState).
End MnemonicStore.

(** ** lib/use-wallet-store: the store's actions *)

Definition set_walletStore (patch : WalletState -> WalletState) : M unit :=
  modify (fun w => with_walletStore (patch (walletStore w)) w).

(** The patches [set({ wallet })] and [set({ mnemonic })] of [initWallet]. *)
Definition withWallet (x : SparkWallet) (s : WalletState) : WalletState :=
  {| wallet := Some x; sparkAddress := sparkAddress s; pubkey := pubkey s;
     initWalletNetwork := initWalletNetwork s; mnemonic := mnemonic s;
     isInitialized := isInitialized s;
     initializationStatus := initializationStatus s;
     initializationError := initializationError s;
     onchainDepositAddresses := onchainDepositAddresses s;
     btcBalance := btcBalance s; tokenBalances := tokenBalances s |}.

Definition withMnemonic (x : jsstring) (s : WalletState) : WalletState :=
  {| wallet := wallet s; sparkAddress := sparkAddress s; pubkey := pubkey s;
     initWalletNetwork := initWalletNetwork s; mnemonic := Some x;
     isInitialized := isInitialized s;
     initializationStatus := initializationStatus s;
     initializationError := initializationError s;
     onchainDepositAddresses := onchainDepositAddresses s;
     btcBalance := btcBalance s; tokenBalances := tokenBalances s |}.

Definition setSparkAddress (x : string) : M unit := set_walletStore (fun s =>
  {| wallet := wallet s; sparkAddress := x; pubkey := pubkey s;
     initWalletNetwork := initWalletNetwork s; mnemonic := mnemonic s;
     isInitialized := isInitialized s;
     initializationStatus := initializationStatus s;
     initializationError := initializationError s;
     onchainDepositAddresses := onchainDepositAddresses s;
     btcBalance := btcBalance s; tokenBalances := tokenBalances s |}).

Definition setPubkey (x : string) : M unit := set_walletStore (fun s =>
  {| wallet := wallet s; sparkAddress := sparkAddress s; pubkey := x;
     initWalletNetwork := initWalletNetwork s; mnemonic := mnemonic s;
     isInitialized := isInitialized s;
     initializationStatus := initializationStatus s;
     initializationError := initializationError s;
     onchainDepositAddresses := onchainDepositAddresses s;
     btcBalance := btcBalance s; tokenBalances := tokenBalances s |}).

Definition setInitializationStatus (status : InitializationStatus)
    (err : option string) : M unit := set_walletStore (fun s =>
  {| wallet := wallet s; sparkAddress := sparkAddress s; pubkey := pubkey s;
     initWalletNetwork := initWalletNetwork s; mnemonic := mnemonic s;
     isInitialized := bool_decide (status = success);
     initializationStatus := status;
     initializationError := err;
     onchainDepositAddresses := onchainDepositAddresses s;
     btcBalance := btcBalance s; tokenBalances := tokenBalances s |}).

Definition setOnchainDepositAddresses (addresses : gset string) : M unit :=
  set_walletStore (fun s =>
  {| wallet := wallet s; sparkAddress := sparkAddress s; pubkey := pubkey s;
     initWalletNetwork := initWalletNetwork s; mnemonic := mnemonic s;
     isInitialized := isInitialized s;
     initializationStatus := initializationStatus s;
     initializationError := initializationError s;
     onchainDepositAddresses := addresses;
     btcBalance := btcBalance s; tokenBalances := tokenBalances s |}).

Definition setBalance (balance : Z) (tokens : gmap string Z) : M unit :=
  set_walletStore (fun s =>
  {| wallet := wallet s; sparkAddress := sparkAddress s; pubkey := pubkey s;
     initWalletNetwork := initWalletNetwork s; mnemonic := mnemonic s;
     isInitialized := isInitialized s;
     initializationStatus := initializationStatus s;
     initializationError := initializationError s;
     onchainDepositAddresses := onchainDepositAddresses s;
     btcBalance := Some balance; tokenBalances := tokens |}).

(** [SparkWallet.initialize({ mnemonicOrSeed, options: { network } })] of
    the ledger client: it throws or gives a wallet. *)
Class SparkSdk := {
  SparkWallet_initialize : jsstring -> string -> result SparkWallet;
}.

Section WalletStore.
Context {engine : Engine} {crypto : WebCrypto} {sdk : SparkSdk}.

(** The body of the [try] that [initWallet] and [initWalletFromSeed]
    share, up to the write to [sessionStorage]. *)
Definition openWallet (mnemonicOrSeed : jsstring) (network : string) : M unit :=
  perform (SdkInitialize mnemonicOrSeed network);;
  opened ← lift (SparkWallet_initialize mnemonicOrSeed network);
  set_walletStore (withWallet opened);;
  (lift (getSparkAddress opened) ≫= setSparkAddress);;
  (lift (getIdentityPublicKey opened) ≫= setPubkey);;
  unused ← lift (getUnusedDepositAddresses opened);
  setOnchainDepositAddresses (list_to_set unused).

Definition initWallet (mnemonic : jsstring) : M unit :=
  network ← gets (fun w => initWalletNetwork (walletStore w));
  try_catch
    (openWallet mnemonic network;;
     sessionStorage_setItem MNEMONIC_STORAGE_KEY mnemonic;;
     set_walletStore (withMnemonic mnemonic);;
     setInitializationStatus success None)
    (fun e =>
       setInitializationStatus error
         (Some (message_or e "Initialization failed"))).

Definition initWalletFromSeed (seed : jsstring) : M unit :=
  network ← gets (fun w => initWalletNetwork (walletStore w));
  try_catch
    (openWallet seed network;;
     sessionStorage_setItem SEED_STORAGE_KEY seed;;
     setInitializationStatus success None)
    (fun e =>
       setInitializationStatus error
         (Some (message_or e "Initialization from seed failed"))).

Definition status : M InitializationStatus :=
  gets (fun w => initializationStatus (walletStore w)).

(** [loadStoredWallet()], called when [Date.now()] is [now]. *)
Definition loadStoredWallet (now : Z) : M InitializationStatus :=
  initializationStatus ← status;
  if bool_decide (initializationStatus ≠ idle)
     && bool_decide (initializationStatus ≠ needs_password)
  then mret initializationStatus
  else
    (if bool_decide (initializationStatus = idle)
     then setInitializationStatus loading None else mret tt);;
    sessionMnemonic ← sessionStorage_getItem MNEMONIC_STORAGE_KEY;
    storedSeed ← sessionStorage_getItem SEED_STORAGE_KEY;
    try_catch
      (match sessionMnemonic, storedSeed with
       | Some ((_ :: _) as sessionMnemonic), _ => initWallet sessionMnemonic
       | _, Some ((_ :: _) as storedSeed) => initWalletFromSeed storedSeed
       | _, _ =>
           sessionMnemonicFromStore ← getSessionMnemonic now;
           match sessionMnemonicFromStore with
           | Some ((_ :: _) as sessionMnemonicFromStore) =>
               initWallet sessionMnemonicFromStore
           | _ =>
               encryptedMnemonic ←
                 gets (fun w => encryptedMnemonic (mnemonicStore w));
               if truthy encryptedMnemonic
               then setInitializationStatus needs_password None
               else setInitializationStatus no_wallet None
           end
       end)
      (fun e =>
         current ← status;
         if bool_decide (current ≠ error)
         then setInitializationStatus error (Some (message_or e "Loading failed"))
         else mret tt);;
    status.
End WalletStore.

(** ** lib/use-wallet-store: the [useWallet] hook *)

(** The answers of the ledger during one cycle of the deposit polling:
    [getLatestDepositTxId(addr)] and [wallet.claimDeposit(txId)]. *)
Record Ledger := {
  getLatestDepositTxId : string -> result (option string);
  claimDeposit : string -> result unit;
}.

(** How the task of one address ends:
    - the transaction-id query rejects (it is outside the [try]), so the
      task rejects;
    - there is no matured deposit;
    - the claim throws, which the [catch] swallows;
    - the claim succeeds. *)
Inductive TaskOutcome :=
  | TaskRejected (e : exn)
  | TaskNoDeposit
  | TaskClaimFailed
  | TaskClaimed.

Definition claimTask (ledger : Ledger) (addr : string) : TaskOutcome :=
  match getLatestDepositTxId ledger addr with
  | Throw e => TaskRejected e
  | Ok (Some (String _ _ as latestDepositTxId)) =>
      match claimDeposit ledger latestDepositTxId with
      | Ok _ => TaskClaimed
      | Throw _ => TaskClaimFailed
      end
  | Ok _ => TaskNoDeposit
  end.

(** The call of [claimDeposit] that the task of an address makes, if it
    makes one. *)
Definition claimCall (ledger : Ledger) (addr : string) : list Effect :=
  match getLatestDepositTxId ledger addr with
  | Ok (Some (String _ _ as latestDepositTxId)) => [SdkClaimDeposit latestDepositTxId]
  | _ => []
  end.

(** The calls of the ledger client that the tasks of a cycle make. [map]
    starts the tasks one after the other and each runs up to its first
    [await], so every [getLatestDepositTxId] is called, in the order of
    the array, before any [claimDeposit]. The claims follow as the queries
    settle; the queries are taken to settle in the order they were made. *)
Definition cycleCalls (ledger : Ledger) (addresses : list string) : list Effect :=
  map SdkGetLatestDepositTxId addresses ++ flat_map (claimCall ledger) addresses.

Fixpoint firstRejection (outcomes : list TaskOutcome) : option exn :=
  match outcomes with
  | [] => None
  | TaskRejected e :: _ => Some e
  | _ :: rest => firstRejection rest
  end.

(** The local variables of the [queryFn] that the tasks write:
    [unClaimedAddresses] and [claimedSomething]. A task that claimed does
    [unClaimedAddresses.delete(addr); claimedSomething = true]. *)
Definition runTask (ledger : Ledger) (locals : gset string * bool)
    (addr : string) : gset string * bool :=
  match claimTask ledger addr with
  | TaskClaimed => (fst locals ∖ {[addr]}, true)
  | _ => locals
  end.

(** The [queryFn] of the ["wallet", "l1Deposit"] query: [None] is its
    [null] (wallet not ready), [Some claimedSomething] otherwise. The tasks
    of the addresses run concurrently; each touches only its own address in
    [unClaimedAddresses] and can only raise [claimedSomething], so their
    order does not matter for the sets. [Promise.all] rejects as soon as one
    task rejects (the first in the order of the array, as the queries
    settle in that order), while the other tasks still run to their end. *)
Definition l1Deposit (ledger : Ledger) : M (option bool) :=
  store ← gets walletStore;
  match wallet store with
  | None => mret None
  | Some _ =>
      let addresses := elements (onchainDepositAddresses store) in
      let '(unClaimedAddresses, claimedSomething) :=
        foldl (runTask ledger) (onchainDepositAddresses store, false) addresses in
      performAll (cycleCalls ledger addresses);;
      match firstRejection (map (claimTask ledger) addresses) with
      | Some e => throw e
      | None =>
          (if claimedSomething
              || negb (size (onchainDepositAddresses store)
                       =? size unClaimedAddresses)%nat
           then setOnchainDepositAddresses unClaimedAddresses
           else mret tt);;
          mret (Some claimedSomething)
      end
  end.

(** The calls of the ledger client that the polling query makes. *)
Definition isClaimCall (e : Effect) : bool :=
  match e with
  | SdkGetLatestDepositTxId _ | SdkClaimDeposit _ => true
  | _ => false
  end.

(** The world once the tasks of a cycle have made their calls. *)
Definition afterCalls (ledger : Ledger) (w : World) : World :=
  {| rng := rng w; localStorage := localStorage w;
     sessionStorage := sessionStorage w; mnemonicStore := mnemonicStore w;
     walletStore := walletStore w;
     effects := effects w ++ cycleCalls ledger
                  (elements (onchainDepositAddresses (walletStore w))) |}.

(** One call of [handleBalanceUpdate] that got as far as its [await]: the
    arguments of the call and the balance it read from the store before
    asking the ledger. *)
Record Run := {
  eventType : string;
  eventId : option string;
  balanceFromEvent : option Z;
  previousBtcBalance : option Z;
}.

(** [handleBalanceUpdate] up to [await wallet.getBalance()]. [isMounted] is
    the flag of the effect and [hookWallet] the wallet the effect closed
    over. [None]: the call returned at its first check. *)
Definition handleBalanceUpdate_begin (isMounted : bool)
    (hookWallet : option SparkWallet) (eventType : string)
    (eventId : option string) (balanceFromEvent : option Z) : M (option Run) :=
  if negb isMounted || negb (bool_decide (is_Some hookWallet)) then mret None
  else
    previousBtcBalance ← gets (fun w => btcBalance (walletStore w));
    perform SdkGetBalance;;
    mret (Some {| eventType := eventType; eventId := eventId;
                  balanceFromEvent := balanceFromEvent;
                  previousBtcBalance := previousBtcBalance |}).

(** [Number(currentBalance?.balance ?? 0)]. *)
Definition fetchedBalance (currentBalance : option Balance) : Z :=
  default 0%Z (currentBalance ≫= response_balance).

(** [handleBalanceUpdate] from the point where [wallet.getBalance()] has
    settled with [response]; [isMounted] is the flag at that time. A
    rejection is caught and only logged. *)
Definition handleBalanceUpdate_resume (isMounted : bool) (run : Run)
    (response : result (option Balance)) : M unit :=
  match response with
  | Throw _ => mret tt
  | Ok currentBalance =>
      if negb isMounted then mret tt
      else
        let newBtcBalance := fetchedBalance currentBalance in
        let newTokenBalances :=
          default ∅ (currentBalance ≫= response_tokenBalances) in
        setBalance newBtcBalance newTokenBalances;;
        match previousBtcBalance run with
        | Some previous =>
            if (previous <? newBtcBalance)%Z then
              let increasedAmount := (newBtcBalance - previous)%Z in
              perform (ToastFundsReceived increasedAmount);;
              address ← gets (fun w => sparkAddress (walletStore w));
              perform (InvalidateQueries ["transactions"; address])
            else mret tt
        | None => mret tt
        end;;
        match balanceFromEvent run with
        | Some fromEvent =>
            if negb (newBtcBalance =? fromEvent)%Z
            then perform (WarnBalanceMismatch (eventType run) fromEvent newBtcBalance)
            else mret tt
        | None => mret tt
        end
  end.

(** One whole call of [handleBalanceUpdate] with nothing else running in
    between: [mountedBefore] and [mountedAfter] are [isMounted] at the first
    check and after the [await]. *)
Definition handleBalanceUpdate (mountedBefore mountedAfter : bool)
    (hookWallet : option SparkWallet) (eventType : string)
    (eventId : option string) (balanceFromEvent : option Z)
    (response : result (option Balance)) : M unit :=
  started ← handleBalanceUpdate_begin mountedBefore hookWallet eventType
              eventId balanceFromEvent;
  match started with
  | Some run => handleBalanceUpdate_resume mountedAfter run response
  | None => mret tt
  end.

(** The effect that owns [handleBalanceUpdate]: its [isMounted] flag, the
    wallet it closed over and the calls that wait for their
    [wallet.getBalance()]. *)
Record Reconciler := {
  isMounted : bool;
  hookWallet : option SparkWallet;
  inFlight : list Run;
}.

(** What can happen to the effect, one at a time (JavaScript runs each of
    these to its next [await] without interruption):
    - a trigger calls [handleBalanceUpdate]: the ledger's
      [transfer:claimed] or [deposit:confirmed] event, or the initial fetch;
    - the [getBalance()] of the [i]-th waiting call settles;
    - the cleanup function of the effect runs. *)
Inductive ReconcilerEvent :=
  | Trigger (eventType : string) (eventId : option string)
            (balanceFromEvent : option Z)
  | Settle (i : nat) (response : result (option Balance))
  | Cleanup.

Definition reconcilerStep (ev : ReconcilerEvent) (r : Reconciler) : M Reconciler :=
  match ev with
  | Trigger eventType eventId balanceFromEvent =>
      started ← handleBalanceUpdate_begin (isMounted r) (hookWallet r)
                  eventType eventId balanceFromEvent;
      mret {| isMounted := isMounted r; hookWallet := hookWallet r;
              inFlight := inFlight r ++ option_list started |}
  | Settle i response =>
      match inFlight r !! i with
      | Some run =>
          handleBalanceUpdate_resume (isMounted r) run response;;
          mret {| isMounted := isMounted r; hookWallet := hookWallet r;
                  inFlight := delete i (inFlight r) |}
      | None => mret r
      end
  | Cleanup =>
      mret {| isMounted := false; hookWallet := hookWallet r;
              inFlight := inFlight r |}
  end.

Fixpoint reconcilerRun (evs : list ReconcilerEvent) (r : Reconciler) : M Reconciler :=
  match evs with
  | [] => mret r
  | ev :: rest => reconcilerStep ev r ≫= reconcilerRun rest
  end.

(** The effect body: nothing is set up unless the wallet is there and the
    status is [success]; otherwise the listeners are registered and the
    initial fetch is triggered. *)
Definition balanceEffect : M (option Reconciler) :=
  store ← gets walletStore;
  if negb (bool_decide (is_Some (wallet store)))
     || bool_decide (initializationStatus store ≠ success)
  then mret None
  else
    r ← reconcilerStep (Trigger "initial fetch" None None)
          {| isMounted := true; hookWallet := wallet store; inFlight := [] |};
    mret (Some r).

Definition toasts (es : list Effect) : list Z :=
  omap (fun e => match e with ToastFundsReceived d => Some d | _ => None end) es.

(** An executable stand-in for PBKDF2 and AES-GCM, to run the vault on
    concrete data. It is not a cipher: the key is the password followed by
    the salt, the data is left as it is, and the 16-byte tag repeats a
    checksum of key, IV and data. It has the shape the code depends on (a
    tag of 16 bytes at the end, rejection when the tag does not match). *)
Module Standin.
Definition checksum (bs : bytes) : byte :=
  byte_of_N (fold_right (fun b acc => (Byte.to_N b + 3 * acc) mod 256)%N 7%N bs).

Definition tag (k iv data : bytes) : bytes :=
  repeat (checksum (k ++ iv ++ data)) 16.

Definition bytes_eqb (a b : bytes) : bool :=
  bool_decide (a = b).

Definition encrypt (k iv data : bytes) : bytes := data ++ tag k iv data.

Definition decrypt (k iv ciphertext : bytes) : option bytes :=
  if (length ciphertext <? 16)%nat then None
  else
    let n := (length ciphertext - 16)%nat in
    let data := firstn n ciphertext in
    if bytes_eqb (skipn n ciphertext) (tag k iv data) then Some data
    else None.

(** A sample engine: the messages of Node.js, and at most 65536
    arguments to a call (the fixed limit of JavaScriptCore; the limit of V8
    depends on the stack that is left and is of the same order). *)
#[export] Instance engine : Engine := {|
  maxArguments := 65536;
  RangeError_message := "Maximum call stack size exceeded";
  btoa_message := "Invalid character";
  atob_message := "Invalid character";
|}.

#[export] Instance crypto : WebCrypto := {|
  CryptoKey := bytes;
  PBKDF2_deriveKey := fun password salt _ _ _ => password ++ salt;
  AES_GCM_encrypt := encrypt;
  AES_GCM_decrypt := decrypt;
|}.

(** A phrase of 65536 letters: sealed, it is 44 bytes more than the sample
    engine takes as arguments. *)
Definition longPhrase : jsstring := repeat 97%N (N.to_nat 65536).

(** An entropy supply for examples. *)
Definition rng0 : Rng :=
  {| entropy := fun i => byte_of_N ((N.of_nat i * 37 + 11) mod 256)%N;
     cursor := 0 |}.

(** A ledger client that opens a wallet for any secret. *)
Definition wallet0 : SparkWallet :=
  {| getSparkAddress := Ok "sp1example";
     getIdentityPublicKey := Ok "02example";
     getUnusedDepositAddresses := Ok ["bc1qa"; "bc1qb"] |}.

#[export] Instance sdk : SparkSdk :=
  {| SparkWallet_initialize := fun _ _ => Ok wallet0 |}.

(** A device on which a wallet was set up under the password
    [hunter22]. *)
Definition vaultWorld : World :=
  (saveEncryptedMnemonic (js "abandon ability able") (js "hunter22")
     (initialWorld rng0)).2.

(** The same device after unlocking at time 1000. *)
Definition unlockedWorld : World :=
  (startSession (js "hunter22") 1000 vaultWorld).2.

(** A world whose wallet is open and watches two deposit addresses, with
    a balance of 1000 already fetched. *)
Definition openWorld : World :=
  with_walletStore
    {| wallet := Some wallet0; sparkAddress := "sp1example";
       pubkey := "02example"; initWalletNetwork := DEFAULT_NETWORK;
       mnemonic := None; isInitialized := true;
       initializationStatus := success; initializationError := None;
       onchainDepositAddresses := {["bc1qa"; "bc1qb"]};
       btcBalance := Some 1000%Z; tokenBalances := ∅ |}
    (initialWorld rng0).

(** The unlocked device with a raw seed cached in [sessionStorage]
    besides its session. *)
Definition seededWorld : World :=
  with_sessionStorage {[SEED_STORAGE_KEY := js "5eed"]} unlockedWorld.

(** A cycle in which the query for [bc1qa] fails with a network error
    and the deposit [tx-b] under [bc1qb] is claimed. *)
Definition partialLedger : Ledger :=
  {| getLatestDepositTxId := fun addr =>
       if String.eqb addr "bc1qa"
       then Throw (Error "Network request failed")
       else Ok (Some "tx-b");
     claimDeposit := fun _ => Ok tt |}.

(** A cycle in which only [bc1qb] has a matured deposit, and its claim
    succeeds. *)
Definition singleLedger : Ledger :=
  {| getLatestDepositTxId := fun addr =>
       if String.eqb addr "bc1qb" then Ok (Some "tx-b") else Ok None;
     claimDeposit := fun _ => Ok tt |}.

(** A cycle in which both addresses have a matured deposit and the
    claim of the one under [bc1qa] is rejected. *)
Definition rejectingLedger : Ledger :=
  {| getLatestDepositTxId := fun addr => Ok (Some ("tx-" +:+ addr));
     claimDeposit := fun txid =>
       if String.eqb txid "tx-bc1qa" then Throw (Error "claim rejected")
       else Ok tt |}.

(** The mounted effect with nothing in flight, and a ledger answer of
    1500 base units. *)
Definition reconciler0 : Reconciler :=
  {| isMounted := true; hookWallet := Some wallet0; inFlight := [] |}.

Definition balance1500 : option Balance :=
  Some {| response_balance := Some 1500%Z; response_tokenBalances := None |}.

Definition balance800 : option Balance :=
  Some {| response_balance := Some 800%Z; response_tokenBalances := None |}.
End Standin.

(** A second stand-in, which rejects under every key but the one that
    encrypted: the key is again the password followed by the salt, and the
    ciphertext is the data behind a frame that spells the key out (each
    byte of the key after a byte 1, then a byte 0). *)
Module Committing.
Definition frame (k : bytes) : bytes :=
  flat_map (fun b => [x01; b]) k ++ [x00].

Definition encrypt (k iv data : bytes) : bytes := frame k ++ data.

Definition decrypt (k iv ciphertext : bytes) : option bytes :=
  if bool_decide (firstn (length (frame k)) ciphertext = frame k)
  then Some (skipn (length (frame k)) ciphertext)
  else None.

Definition crypto : WebCrypto := {|
  CryptoKey := bytes;
  PBKDF2_deriveKey := fun password salt _ _ _ => password ++ salt;
  AES_GCM_encrypt := encrypt;
  AES_GCM_decrypt := decrypt;
|}.
End Committing.

(** ** Further actions of the wallet store *)

Definition sessionStorage_removeItem (key : string) : M unit :=
  modify (fun w => with_sessionStorage (delete key (sessionStorage w)) w).

(** [localStorage.removeItem(key)]. *)
Definition localStorage_removeItem (key : string) : M unit :=
  modify (fun w =>
    {| rng := rng w; localStorage := delete key (localStorage w);
       sessionStorage := sessionStorage w; mnemonicStore := mnemonicStore w;
       walletStore := walletStore w; effects := effects w |}).

Definition STORAGE_KEY : string := "flashnet_token".

(** [resetWallet()]: every data field of the record is set back to its
    initial value except [initWalletNetwork], which the patch does not
    mention. (The patch also sets the currency fields, which the record
    leaves out: see [Currencies.resetWallet_currencies].) *)
Definition resetWallet : M unit :=
  set_walletStore (fun s =>
    {| wallet := None; sparkAddress := ""; pubkey := "";
       initWalletNetwork := initWalletNetwork s; mnemonic := None;
       isInitialized := false; initializationStatus := idle;
       initializationError := None; onchainDepositAddresses := ∅;
       btcBalance := None; tokenBalances := ∅ |});;
  sessionStorage_removeItem MNEMONIC_STORAGE_KEY;;
  sessionStorage_removeItem SEED_STORAGE_KEY;;
  sessionStorage_removeItem STORAGE_KEY;;
  localStorage_removeItem STORAGE_KEY.

(** [getBitcoinDepositAddress()] up to its [await]: it reads the wallet and
    the watched set, and gives the set it read. *)
Definition getBitcoinDepositAddress_begin : M (gset string) :=
  store ← gets walletStore;
  match wallet store with
  | None => throw (Error "Wallet not initialized")
  | Some _ => mret (onchainDepositAddresses store)
  end.

(** [getBitcoinDepositAddress()] from the point where
    [wallet.getSingleUseDepositAddress()] has settled with [answer]:
    [onchainDepositAddresses] is the set read before the [await]. The new
    set is stored before the address is tested. *)
Definition getBitcoinDepositAddress_resume (onchainDepositAddresses : gset string)
    (answer : result string) : M string :=
  btcDepositAddress ← lift answer;
  setOnchainDepositAddresses ({[btcDepositAddress]} ∪ onchainDepositAddresses);;
  match btcDepositAddress with
  | EmptyString => throw (Error "Failed to generate deposit address")
  | _ => mret btcDepositAddress
  end.

(** One whole call with nothing else running in between. *)
Definition getBitcoinDepositAddress (answer : result string) : M string :=
  getBitcoinDepositAddress_begin ≫= fun onchainDepositAddresses =>
  getBitcoinDepositAddress_resume onchainDepositAddresses answer.

(** The [queryFn] of the ["wallet", "l1Deposit"] query for the values of
    [wallet] and [onchainDepositAddresses] it closed over: they are those
    of the render that made the function, and the store may have moved on
    when the tasks are done and the new set is written. *)
Definition l1Deposit_closure (ledger : Ledger) (wallet : option SparkWallet)
    (onchainDepositAddresses : gset string) : M (option bool) :=
  match wallet with
  | None => mret None
  | Some _ =>
      let addresses := elements onchainDepositAddresses in
      let '(unClaimedAddresses, claimedSomething) :=
        foldl (runTask ledger) (onchainDepositAddresses, false) addresses in
      performAll (cycleCalls ledger addresses);;
      match firstRejection (map (claimTask ledger) addresses) with
      | Some e => throw e
      | None =>
          (if claimedSomething
              || negb (size onchainDepositAddresses
                       =? size unClaimedAddresses)%nat
           then setOnchainDepositAddresses unClaimedAddresses
           else mret tt);;
          mret (Some claimedSomething)
      end
  end.

(** What [useWallet()] returns as [btcBalance]: [value] is
    [btcBalanceValue ?? 0]. *)
Record BalanceView := {
  value : Z;
  isLoading : bool;
}.

Definition useWallet_btcBalance (s : WalletState) : BalanceView :=
  {| value := default 0%Z (btcBalance s);
     isLoading :=
       bool_decide (initializationStatus s = loading)
       || (bool_decide (initializationStatus s = success)
           && bool_decide (btcBalance s = None)) |}.

(** One call of [handleBalanceUpdate] from its trigger to the settling
    of its fetch. *)
Record SerialRun := {
  run_eventType : string;
  run_eventId : option string;
  run_balanceFromEvent : option Z;
  run_response : option Balance;
}.

(** The events of calls that run one after the other, each settled before
    the next is triggered. *)
Definition serial (runs : list SerialRun) : list ReconcilerEvent :=
  flat_map (fun x =>
    [Trigger (run_eventType x) (run_eventId x) (run_balanceFromEvent x);
     Settle 0 (Ok (run_response x))]) runs.

(** The steps up in a sequence of balances that starts from [previous]. *)
Fixpoint increases (previous : Z) (balances : list Z) : list Z :=
  match balances with
  | [] => []
  | b :: rest =>
      (if (previous <? b)%Z then [(b - previous)%Z] else [])
      ++ increases b rest
  end.

Fixpoint nondecreasing (previous : Z) (balances : list Z) : bool :=
  match balances with
  | [] => true
  | b :: rest => (previous <=? b)%Z && nondecreasing b rest
  end.

(** ** The pages *)

(** A page reload in the same tab: memory is gone, [sessionStorage] and
    [localStorage] are kept, and [persist] hydrates the mnemonic store. *)
Definition reload (w : World) : World :=
  {| rng := rng w; localStorage := localStorage w;
     sessionStorage := sessionStorage w;
     mnemonicStore := default initialMnemonicState (localStorage w !! PERSIST_NAME);
     walletStore := initialWalletState; effects := effects w |}.

(** The template literal [`${status}`]. *)
Definition status_name (s : InitializationStatus) : string :=
  match s with
  | idle => "idle"
  | loading => "loading"
  | success => "success"
  | needs_password => "needs_password"
  | no_wallet => "no_wallet"
  | error => "error"
  end.

(** app/page (EntryPage): the route its effect replaces the entry with. *)
Definition EntryPage : M string :=
  currentEncryptedMnemonic ← gets (fun w => encryptedMnemonic (mnemonicStore w));
  if truthy currentEncryptedMnemonic then mret "/home" else mret "/create".

(** app/home/layout (MainAppLayout): the redirection of its effect and
    what it renders. *)
Definition MainAppLayout_redirect (initializationStatus : InitializationStatus)
  : option string :=
  match initializationStatus with
  | needs_password => Some "/unlock"
  | no_wallet => Some "/create"
  | _ => None
  end.

Inductive LayoutView :=
  | ViewSkeleton
  | ViewInitializationFailed (description : string)
  | ViewRedirecting
  | ViewApp
  | ViewUnexpected.

Definition MainAppLayout_view (initializationStatus : InitializationStatus)
    (initializationError : option string) : LayoutView :=
  match initializationStatus with
  | idle | loading => ViewSkeleton
  | error =>
      ViewInitializationFailed
        match initializationError with
        | Some (String _ _ as message) => message
        | _ => "An unknown error occurred."
        end
  | needs_password => ViewRedirecting
  | success => ViewApp
  | no_wallet => ViewUnexpected
  end.

(** How a handler of a page ends: what it shows and where it routes. *)
Inductive UnlockOutcome :=
  | Unlocked
  | UnlockFailed (message : string).

Inductive CreateOutcome :=
  | PasswordsDoNotMatch
  | PasswordTooShort
  | MnemonicNotFound
  | WalletCreated
  | CreateFailed (description : string).

Definition PENDING_MNEMONIC : string := "pending_mnemonic".

Section Pages.
Context {engine : Engine} {crypto : WebCrypto} {sdk : SparkSdk}.

(** app/unlock: [handleUnlock], with [password] in the field.
    [Date.now()] is [now] in [startSession] and [later] in
    [loadStoredWallet]. [Unlocked] is the toast "Wallet Unlocked!" and the
    route [/home]; [UnlockFailed] is the toast "Unlock Failed" with its
    description, and no route. *)
Definition handleUnlock (password : jsstring) (now later : Z) : M UnlockOutcome :=
  try_catch
    (startSession password now;;
     loaded ← loadStoredWallet later;
     if bool_decide (loaded = success) then mret Unlocked
     else
       let errorMessage :=
         "Failed to initialize wallet after starting session. Status: "
         +:+ status_name loaded in
       throw (Error errorMessage))
    (fun err =>
       let message := message_or err "Incorrect password or failed." in
       mret (UnlockFailed message)).

(** app/unlock: [performReset], and app/home/settings:
    [handleResetWallet]. Both route to [/create] ([None]: the toast
    "Reset Failed" and no route). *)
Definition performReset : M string :=
  resetWallet;;
  clearEncryptedMnemonic;;
  mret "/create".

Definition handleResetWallet : M (option string) :=
  try_catch
    (resetWallet;;
     clearEncryptedMnemonic;;
     mret (Some "/create"))
    (fun _ => mret None).

(** app/home/settings: [handleLogout]; it routes to [/unlock] ([None]:
    the toast "Logout Failed" and no route). *)
Definition handleLogout : M (option string) :=
  try_catch
    (endSession;;
     sessionStorage_removeItem "spark_wallet_mnemonic";;
     sessionStorage_removeItem "spark_wallet_seed";;
     setInitializationStatus needs_password None;;
     mret (Some "/unlock"))
    (fun _ => mret None).

(** app/set-password: [handleCreateWallet], with [password] and
    [confirmPassword] in the fields. [password.length] counts code units.
    [WalletCreated] is the toast "Wallet Created Successfully!" and the
    route [/home]. *)
Definition handleCreateWallet (password confirmPassword : jsstring)
  : M CreateOutcome :=
  if negb (bool_decide (password = confirmPassword)) then mret PasswordsDoNotMatch
  else if (length password <? 8)%nat then mret PasswordTooShort
  else
    pendingMnemonic ← sessionStorage_getItem PENDING_MNEMONIC;
    match pendingMnemonic with
    | Some ((_ :: _) as pendingMnemonic) =>
        try_catch
          (saveEncryptedMnemonic pendingMnemonic password;;
           initWallet pendingMnemonic;;
           sessionStorage_removeItem PENDING_MNEMONIC;;
           mret WalletCreated)
          (fun err => mret (CreateFailed (message_or err "Unknown error")))
    | _ => mret MnemonicNotFound
    end.
End Pages.

(** ** Conditions on worlds *)

(** What a restart or a reload would load into the mnemonic store is what
    the store holds. *)
Definition hydrated (w : World) : Prop :=
  default initialMnemonicState (localStorage w !! PERSIST_NAME)
  = mnemonicStore w.

(** The wallet store is coherent: [isInitialized] says whether the status
    is [success], and under [success] a wallet is in the store and the
    secret it was opened with is cached in [sessionStorage]. *)
Definition coherent (w : World) : Prop :=
  let s := walletStore w in
  isInitialized s = bool_decide (initializationStatus s = success)
  /\ (initializationStatus s = success ->
      is_Some (wallet s)
      /\ (is_Some (sessionStorage w !! MNEMONIC_STORAGE_KEY)
          \/ is_Some (sessionStorage w !! SEED_STORAGE_KEY))).

(** The session is whole: its key, its expiry and its envelope are all
    there or all missing. *)
Definition session_whole (s : MnemonicState) : Prop :=
  (is_Some (sessionKey (session s)) <-> is_Some (expiresAt (session s)))
  /\ (is_Some (sessionKey (session s)) <-> is_Some (sessionEncryptedMnemonic s)).

(** ** The remaining setters of the wallet store *)

(** [setInitWalletNetwork(network)] and [setWallet(wallet)], which nothing
    above calls. [setWallet] also sets [isInitialized], to [!!wallet]. *)
Definition setInitWalletNetwork (network : string) : M unit :=
  set_walletStore (fun s =>
  {| wallet := wallet s; sparkAddress := sparkAddress s; pubkey := pubkey s;
     initWalletNetwork := network; mnemonic := mnemonic s;
     isInitialized := isInitialized s;
     initializationStatus := initializationStatus s;
     initializationError := initializationError s;
     onchainDepositAddresses := onchainDepositAddresses s;
     btcBalance := btcBalance s; tokenBalances := tokenBalances s |}).

Definition setWallet (x : SparkWallet) : M unit := set_walletStore (fun s =>
  {| wallet := Some x; sparkAddress := sparkAddress s; pubkey := pubkey s;
     initWalletNetwork := initWalletNetwork s; mnemonic := mnemonic s;
     isInitialized := true;
     initializationStatus := initializationStatus s;
     initializationError := initializationError s;
     onchainDepositAddresses := onchainDepositAddresses s;
     btcBalance := btcBalance s; tokenBalances := tokenBalances s |}).

(** ** [initWallet], in two parts *)

Section InitWalletParts.
Context {sdk : SparkSdk}.

(** [initWallet(mnemonic)] up to its second [await]: the ledger client
    has answered [SparkWallet.initialize], the wallet it gave is in the
    store, and [wallet.getSparkAddress()] is under way. The result is the
    local constant [wallet]; [None]: the ledger client threw, and the
    [catch] has set the status. *)
Definition initWallet_begin (mnemonic : jsstring) : M (option SparkWallet) :=
  network ← gets (fun w => initWalletNetwork (walletStore w));
  perform (SdkInitialize mnemonic network);;
  match SparkWallet_initialize mnemonic network with
  | Ok opened => set_walletStore (withWallet opened);; mret (Some opened)
  | Throw e =>
      setInitializationStatus error
        (Some (message_or e "Initialization failed"));;
      mret None
  end.

(** [initWallet(mnemonic)] from there to its end. It goes on with its
    local [wallet], whatever the store holds by now. *)
Definition initWallet_resume (mnemonic : jsstring) (wallet : SparkWallet)
  : M unit :=
  try_catch
    ((lift (getSparkAddress wallet) ≫= setSparkAddress);;
     (lift (getIdentityPublicKey wallet) ≫= setPubkey);;
     unused ← lift (getUnusedDepositAddresses wallet);
     setOnchainDepositAddresses (list_to_set unused);;
     sessionStorage_setItem MNEMONIC_STORAGE_KEY mnemonic;;
     set_walletStore (withMnemonic mnemonic);;
     setInitializationStatus success None)
    (fun e =>
       setInitializationStatus error
         (Some (message_or e "Initialization failed"))).
End InitWalletParts.

(** ** The application, one action at a time *)

(** What can happen to the world, each action run to its end before the
    next one starts: the actions of the two stores, the handlers of the
    pages, one cycle of the deposit polling, one run of
    [handleBalanceUpdate], a phrase put under [pending_mnemonic] by the
    create page, a reload of the page and a restart of the application.
    (The actions of the wallet store that only read it and call the ledger
    client, such as [sendTransfer], write nothing and are left out; the
    currency fields and their setters are in [Currencies]. What happens
    when an action runs between the parts of another is not covered here:
    see [initWallet_begin] and [initWallet_resume].) *)
Inductive AppAction :=
  | DoSetInitWalletNetwork (network : string)
  | DoSetWallet (wallet : SparkWallet)
  | DoSetSparkAddress (sparkAddress : string)
  | DoSetPubkey (pubkey : string)
  | DoSetInitializationStatus (status : InitializationStatus)
      (err : option string)
  | DoSetBalance (balance : Z) (tokenBalances : gmap string Z)
  | DoSetOnchainDepositAddresses (addresses : gset string)
  | DoSaveEncryptedMnemonic (mnemonic password : jsstring)
  | DoStartSession (password : jsstring) (now : Z)
  | DoEndSession
  | DoClearEncryptedMnemonic
  | DoInitWallet (mnemonic : jsstring)
  | DoInitWalletFromSeed (seed : jsstring)
  | DoLoadStoredWallet (now : Z)
  | DoResetWallet
  | DoGetBitcoinDepositAddress (answer : result string)
  | DoL1Deposit (ledger : Ledger)
  | DoHandleBalanceUpdate (mountedBefore mountedAfter : bool)
      (hookWallet : option SparkWallet) (eventType : string)
      (eventId : option string) (balanceFromEvent : option Z)
      (response : result (option Balance))
  | DoHandleUnlock (password : jsstring) (now later : Z)
  | DoPerformReset
  | DoHandleLogout
  | DoHandleCreateWallet (password confirmPassword : jsstring)
  | DoSetPendingMnemonic (mnemonic : jsstring)
  | DoReload
  | DoRestart.

Section App.
Context {engine : Engine} {crypto : WebCrypto} {sdk : SparkSdk}.

(** The world after an action, whether it returned or threw. *)
Definition act (a : AppAction) (w : World) : World :=
  match a with
  | DoSetInitWalletNetwork network => (setInitWalletNetwork network w).2
  | DoSetWallet wallet => (setWallet wallet w).2
  | DoSetSparkAddress sparkAddress => (setSparkAddress sparkAddress w).2
  | DoSetPubkey pubkey => (setPubkey pubkey w).2
  | DoSetInitializationStatus status err =>
      (setInitializationStatus status err w).2
  | DoSetBalance balance tokenBalances => (setBalance balance tokenBalances w).2
  | DoSetOnchainDepositAddresses addresses =>
      (setOnchainDepositAddresses addresses w).2
  | DoSaveEncryptedMnemonic mnemonic password =>
      (saveEncryptedMnemonic mnemonic password w).2
  | DoStartSession password now => (startSession password now w).2
  | DoEndSession => (endSession w).2
  | DoClearEncryptedMnemonic => (clearEncryptedMnemonic w).2
  | DoInitWallet mnemonic => (initWallet mnemonic w).2
  | DoInitWalletFromSeed seed => (initWalletFromSeed seed w).2
  | DoLoadStoredWallet now => (loadStoredWallet now w).2
  | DoResetWallet => (resetWallet w).2
  | DoGetBitcoinDepositAddress answer => (getBitcoinDepositAddress answer w).2
  | DoL1Deposit ledger => (l1Deposit ledger w).2
  | DoHandleBalanceUpdate mountedBefore mountedAfter hookWallet eventType
      eventId balanceFromEvent response =>
      (handleBalanceUpdate mountedBefore mountedAfter hookWallet eventType
         eventId balanceFromEvent response w).2
  | DoHandleUnlock password now later => (handleUnlock password now later w).2
  | DoPerformReset => (performReset w).2
  | DoHandleLogout => (handleLogout w).2
  | DoHandleCreateWallet password confirmPassword =>
      (handleCreateWallet password confirmPassword w).2
  | DoSetPendingMnemonic mnemonic =>
      (sessionStorage_setItem PENDING_MNEMONIC mnemonic w).2
  | DoReload => reload w
  | DoRestart => restart w
  end.

Definition actAll (actions : list AppAction) (w : World) : World :=
  foldl (fun w a => act a w) w actions.
End App.

(** The two actions that set [isInitialized] or the status [success]
    without looking at the rest of the store: [setWallet], which no code
    of the repository calls, and [setInitializationStatus("success")],
    which only [initWallet] and [initWalletFromSeed] call, as their last
    step. *)
Definition bare (a : AppAction) : bool :=
  match a with
  | DoSetWallet _ | DoSetInitializationStatus success _ => true
  | _ => false
  end.

(** ** types/currency and the currency fields of the wallet store *)

Module Currencies.
Inductive CurrencyType :=
  | FIAT
  | BLOCKCHAIN.

Record Currency := {
  name : string;
  code : string;
  decimals : Z;
  type : CurrencyType;
  balance : option Z;
  symbol : string;
}.

Definition DEFAULT_USD_CURRENCY : Currency :=
  {| name := "US Dollar"; code := "USD"; decimals := 2; type := FIAT;
     balance := None; symbol := "$" |}.

Definition DEFAULT_BTC_CURRENCY : Currency :=
  {| name := "Bitcoin"; code := "BTC"; decimals := 8; type := BLOCKCHAIN;
     balance := Some 0%Z; symbol := "₿" |}.

(** [map.get(key) ?? defaultValue]. *)
Definition getCurrency (map : gmap string Currency) (key : string)
    (defaultValue : Currency) : Currency :=
  default defaultValue (map !! key).

(** A [Map] is an object: a variable or a field of the store holds a
    reference to it, and [set] changes the object for every holder. The
    heap keeps the [Map] objects of currencies by address; the one that
    the module makes for [PERMANENT_CURRENCIES] is at address 0. *)
Definition PERMANENT_CURRENCIES : nat := 0.

Record State := {
  heap : gmap nat (gmap string Currency);
  activeInputCurrency : Currency;
  activeAsset : Currency;
  assets : nat;
}.

Definition deref (h : gmap nat (gmap string Currency)) (ref : nat)
  : gmap string Currency :=
  default ∅ (h !! ref).

(** The entries of [PERMANENT_CURRENCIES] as the module makes them. *)
Definition permanent : gmap string Currency :=
  {[ "BTC" := {| name := "Bitcoin"; code := "BTC"; decimals := 8;
                 type := BLOCKCHAIN; balance := Some 1231%Z; symbol := "₿" |};
     "USD" := {| name := "US Dollar"; code := "USD"; decimals := 2;
                 type := FIAT; balance := None; symbol := "$" |} ]}.

(** The currency fields of the store when it is created. *)
Definition initial : State :=
  {| heap := {[ PERMANENT_CURRENCIES := permanent ]};
     activeInputCurrency := getCurrency permanent "USD" DEFAULT_USD_CURRENCY;
     activeAsset := getCurrency permanent "BTC" DEFAULT_BTC_CURRENCY;
     assets := PERMANENT_CURRENCIES |}.

Definition setActiveInputCurrency (currency : Currency) (s : State) : State :=
  {| heap := heap s; activeInputCurrency := currency;
     activeAsset := activeAsset s; assets := assets s |}.

Definition setActiveAsset (asset : Currency) (s : State) : State :=
  {| heap := heap s; activeInputCurrency := activeInputCurrency s;
     activeAsset := asset; assets := assets s |}.

(** [updateAssets(newAssets)]: the entries of [newAssets] (its contents
    when called) are [set] one by one in the object that the store's
    [assets] refers to, and the same reference is stored again. *)
Definition updateAssets (newAssets : gmap string Currency) (s : State) : State :=
  let currentAssets := assets s in
  {| heap :=
       <[currentAssets :=
           map_fold (fun key value m => <[key := value]> m)
             (deref (heap s) currentAssets) newAssets]> (heap s);
     activeInputCurrency := activeInputCurrency s;
     activeAsset := activeAsset s;
     assets := currentAssets |}.

(** The currency fields of the patch of [resetWallet()]. *)
Definition resetWallet_currencies (s : State) : State :=
  {| heap := heap s;
     activeInputCurrency :=
       getCurrency (deref (heap s) PERMANENT_CURRENCIES) "USD"
         DEFAULT_USD_CURRENCY;
     activeAsset :=
       getCurrency (deref (heap s) PERMANENT_CURRENCIES) "BTC"
         DEFAULT_BTC_CURRENCY;
     assets := PERMANENT_CURRENCIES |}.

Inductive Action :=
  | SetActiveInputCurrency (currency : Currency)
  | SetActiveAsset (asset : Currency)
  | UpdateAssets (newAssets : gmap string Currency)
  | ResetWallet.

Definition act (a : Action) (s : State) : State :=
  match a with
  | SetActiveInputCurrency currency => setActiveInputCurrency currency s
  | SetActiveAsset asset => setActiveAsset asset s
  | UpdateAssets newAssets => updateAssets newAssets s
  | ResetWallet => resetWallet_currencies s
  end.

Definition actAll (actions : list Action) (s : State) : State :=
  foldl (fun s a => act a s) s actions.
End Currencies.

(** ** app/create (CreateWalletPage) *)

Module CreatePage.
(** The code points that [String.prototype.trim] removes: the white space
    and line terminators of ECMAScript. *)
Definition is_white_space (c : N) : bool :=
  ((c =? 0x9) || (c =? 0xA) || (c =? 0xB) || (c =? 0xC) || (c =? 0xD)
   || (c =? 0x20) || (c =? 0xA0) || (c =? 0x1680)
   || ((0x2000 <=? c) && (c <=? 0x200A))
   || (c =? 0x2028) || (c =? 0x2029) || (c =? 0x202F) || (c =? 0x205F)
   || (c =? 0x3000) || (c =? 0xFEFF))%N.

Fixpoint trimStart (s : jsstring) : jsstring :=
  match s with
  | c :: rest => if is_white_space c then trimStart rest else s
  | [] => []
  end.

Definition trim (s : jsstring) : jsstring :=
  rev (trimStart (rev (trimStart s))).

Inductive Mode :=
  | generate
  | input.

(** The state of the component, and whether the timer that the effect
    set is still waiting. (The timer's callback closes over the
    [inputMnemonic] of the render that set it; any change of
    [inputMnemonic] or [mode] clears the timer, so while it waits that is
    the current [inputMnemonic].) *)
Record State := {
  mode : Mode;
  generatedMnemonic : jsstring;
  inputMnemonic : jsstring;
  hasConfirmedSave : bool;
  isCopied : bool;
  isValidInput : option bool;
  timer : bool;
}.

Section Page.
(** [validateMnemonic] of lib/crypto, which is [bip39.validateMnemonic]. *)
Variable validateMnemonic : jsstring -> bool.

(** The state at the first render, [generated] being what
    [generateMnemonic()] gave; the effect has run ([mode] is not
    ["input"]). *)
Definition mount (generated : jsstring) : State :=
  {| mode := generate; generatedMnemonic := generated; inputMnemonic := [];
     hasConfirmedSave := false; isCopied := false; isValidInput := None;
     timer := false |}.

(** The effect on [inputMnemonic] and [mode], run after a render that
    changed one of them: the cleanup of the run before clears its timer,
    then the body runs. *)
Definition effect (s : State) : State :=
  match mode s with
  | generate =>
      {| mode := mode s; generatedMnemonic := generatedMnemonic s;
         inputMnemonic := inputMnemonic s;
         hasConfirmedSave := hasConfirmedSave s; isCopied := isCopied s;
         isValidInput := None; timer := false |}
  | input =>
      {| mode := mode s; generatedMnemonic := generatedMnemonic s;
         inputMnemonic := inputMnemonic s;
         hasConfirmedSave :=
           if bool_decide (isValidInput s = Some false)
              || bool_decide (trim (inputMnemonic s) = [])
           then false else hasConfirmedSave s;
         isCopied := isCopied s; isValidInput := isValidInput s;
         timer := true |}
  end.

(** The callback of the timer, 500 ms after the effect ran. *)
Definition handler (s : State) : State :=
  if timer s then
    let trimmedMnemonic := trim (inputMnemonic s) in
    match trimmedMnemonic with
    | [] =>
        {| mode := mode s; generatedMnemonic := generatedMnemonic s;
           inputMnemonic := inputMnemonic s;
           hasConfirmedSave := hasConfirmedSave s; isCopied := isCopied s;
           isValidInput := None; timer := false |}
    | _ =>
        let isValid := validateMnemonic trimmedMnemonic in
        {| mode := mode s; generatedMnemonic := generatedMnemonic s;
           inputMnemonic := inputMnemonic s;
           hasConfirmedSave := if isValid then hasConfirmedSave s else false;
           isCopied := isCopied s; isValidInput := Some isValid;
           timer := false |}
    end
  else s.

Definition handleInputChange (value : jsstring) (s : State) : State :=
  let s' :=
    {| mode := mode s; generatedMnemonic := generatedMnemonic s;
       inputMnemonic := value; hasConfirmedSave := false;
       isCopied := isCopied s; isValidInput := isValidInput s;
       timer := timer s |} in
  if bool_decide (value = inputMnemonic s) then s' else effect s'.

Definition handleToggleMode (s : State) : State :=
  effect
    {| mode := match mode s with generate => input | input => generate end;
       generatedMnemonic := generatedMnemonic s; inputMnemonic := [];
       hasConfirmedSave := false; isCopied := false; isValidInput := None;
       timer := timer s |}.

(** The check box: it is disabled in input mode while the input is known
    to be invalid. *)
Definition confirmSave (checked : bool) (s : State) : State :=
  match mode s, isValidInput s with
  | input, Some false => s
  | _, _ =>
      {| mode := mode s; generatedMnemonic := generatedMnemonic s;
         inputMnemonic := inputMnemonic s; hasConfirmedSave := checked;
         isCopied := isCopied s; isValidInput := isValidInput s;
         timer := timer s |}
  end.

(** [handleContinue]: the new state and the route ([None]: a toast and no
    route). *)
Definition handleContinue (s : State) : M (State * option string) :=
  if negb (hasConfirmedSave s) then mret (s, None)
  else
    match mode s with
    | generate =>
        sessionStorage_setItem "pending_mnemonic" (generatedMnemonic s);;
        mret (s, Some "/set-password")
    | input =>
        if negb (bool_decide (isValidInput s = Some true))
        then
          mret ({| mode := mode s; generatedMnemonic := generatedMnemonic s;
                   inputMnemonic := inputMnemonic s;
                   hasConfirmedSave := false; isCopied := isCopied s;
                   isValidInput := isValidInput s; timer := timer s |},
                None)
        else
          sessionStorage_setItem "pending_mnemonic" (trim (inputMnemonic s));;
          mret (s, Some "/set-password")
    end.

(** What the user and the timer do to the page before [Continue]. *)
Inductive Event :=
  | InputChange (value : jsstring)
  | TimerFires
  | ToggleMode
  | ConfirmSave (checked : bool).

Definition step (s : State) (ev : Event) : State :=
  match ev with
  | InputChange value => handleInputChange value s
  | TimerFires => handler s
  | ToggleMode => handleToggleMode s
  | ConfirmSave checked => confirmSave checked s
  end.

Definition run (events : list Event) (s : State) : State :=
  foldl step s events.

(** While no timer waits, an input marked valid is valid; and the
    generated phrase is the one of the first render. *)
Definition settled (generated : jsstring) (s : State) : Prop :=
  generatedMnemonic s = generated
  /\ (mode s = input -> timer s = false -> isValidInput s = Some true ->
      validateMnemonic (trim (inputMnemonic s)) = true).
End Page.
End CreatePage.

(** ** Concrete data for the further properties *)

Module Samples.
Import Standin.


(** The create page has put a phrase under [pending_mnemonic]. *)
Definition pendingWorld : World :=
  with_sessionStorage
    {[PENDING_MNEMONIC := js "abandon ability able"]} (initialWorld rng0).

(** The wallet was then set up under the password [hunter22], and a
    balance of 1000 was fetched. *)
Definition createdWorld : World :=
  (handleCreateWallet (js "hunter22") (js "hunter22") pendingWorld).2.

Definition fundedWorld : World := (setBalance 1000 ∅ createdWorld).2.

(** The user has logged out. *)
Definition lockedWorld : World := (handleLogout fundedWorld).2.

(** The user has unlocked again at time 1000, the wallet being loaded at
    time 2000. *)
Definition reloggedWorld : World :=
  (handleUnlock (js "hunter22") 1000 2000 lockedWorld).2.


(** A device whose stored vault is not base64 text. *)
Definition corruptWorld : World :=
  (set_mnemonicStore (fun s =>
     {| encryptedMnemonic := Some (js "not base64!");
        sessionEncryptedMnemonic := sessionEncryptedMnemonic s;
        session := session s |}) (initialWorld rng0)).2.

(** Three runs of the balance effect, one after the other. *)
Definition threeRuns : list SerialRun :=
  [{| run_eventType := "deposit:confirmed"; run_eventId := Some "d1";
      run_balanceFromEvent := Some 1500%Z; run_response := balance1500 |};
   {| run_eventType := "transfer:claimed"; run_eventId := Some "t1";
      run_balanceFromEvent := None; run_response := balance800 |};
   {| run_eventType := "deposit:confirmed"; run_eventId := Some "d2";
      run_balanceFromEvent := Some 2000%Z;
      run_response :=
        Some {| response_balance := Some 2000%Z;
                response_tokenBalances := None |} |}].

(** A stand-in for [validateMnemonic]: it accepts one phrase. *)
Definition validateMnemonic (mnemonic : jsstring) : bool :=
  bool_decide (mnemonic = js "abandon ability able").
End Samples.

(** * Facts *)

(** [lia] also reasons about division and remainder by constants. *)
Ltac Zify.zify_post_hook ::= Z.to_euclidean_division_equations.

(** Case analysis on the comparisons in the goal. *)
Ltac compare_cases :=
  repeat match goal with
    | |- context [N.leb ?a ?b] => destruct (N.leb_spec a b); cbn [andb orb negb]
    | |- context [N.ltb ?a ?b] => destruct (N.ltb_spec a b); cbn [andb orb negb]
    | |- context [N.eqb ?a ?b] => destruct (N.eqb_spec a b); cbn [andb orb negb]
    end.

(** ** Bytes *)

Lemma to_N_byte_of_N (n : N) : (n < 256)%N -> Byte.to_N (byte_of_N n) = n.
Proof.
  intros Hn. unfold byte_of_N.
  destruct (Byte.of_N n) as [b|] eqn:E.
  - by apply Byte.to_of_N.
  - apply Byte.of_N_None_iff in E. lia.
Qed.

Lemma byte_of_N_to_N (b : byte) : byte_of_N (Byte.to_N b) = b.
Proof. unfold byte_of_N. by rewrite Byte.of_to_N. Qed.

Lemma to_N_lt_256 (b : byte) : (Byte.to_N b < 256)%N.
Proof. pose proof (Byte.to_N_bounded b). lia. Qed.

(** ** UTF-8 *)

Module Utf8Facts.
Import Utf8.
Local Open Scope N_scope.

(** The decoder's handler, by the class of the byte. *)
Lemma lead_1 b : b <= 0x7F -> lead b = (init, [b]).
Proof. intros. unfold lead. compare_cases; try lia. done. Qed.

Lemma lead_2 b :
  0xC2 <= b <= 0xDF ->
  lead b = ({| code_point := b mod 0x20; bytes_seen := 0; bytes_needed := 1;
               lower_boundary := 0x80; upper_boundary := 0xBF |}, []).
Proof. intros. unfold lead. compare_cases; try lia. done. Qed.

Lemma lead_3 b :
  0xE0 <= b <= 0xEF ->
  lead b = ({| code_point := b mod 0x10; bytes_seen := 0; bytes_needed := 2;
               lower_boundary := if b =? 0xE0 then 0xA0 else 0x80;
               upper_boundary := if b =? 0xED then 0x9F else 0xBF |}, []).
Proof.
  intros. unfold lead.
  destruct (N.leb_spec b 0x7F); [lia|].
  destruct (N.leb_spec 0xC2 b); [|lia].
  destruct (N.leb_spec b 0xDF); [lia|].
  destruct (N.leb_spec 0xE0 b); [|lia].
  destruct (N.leb_spec b 0xEF); [|lia]. done.
Qed.

Lemma lead_4 b :
  0xF0 <= b <= 0xF4 ->
  lead b = ({| code_point := b mod 0x08; bytes_seen := 0; bytes_needed := 3;
               lower_boundary := if b =? 0xF0 then 0x90 else 0x80;
               upper_boundary := if b =? 0xF4 then 0x8F else 0xBF |}, []).
Proof.
  intros. unfold lead.
  destruct (N.leb_spec b 0x7F); [lia|].
  destruct (N.leb_spec 0xC2 b); [|lia].
  destruct (N.leb_spec b 0xDF); [lia|].
  destruct (N.leb_spec 0xE0 b); [|lia].
  destruct (N.leb_spec b 0xEF); [lia|].
  destruct (N.leb_spec 0xF0 b); [|lia].
  destruct (N.leb_spec b 0xF4); [|lia]. done.
Qed.

(** A continuation byte inside the awaited range: not yet the last one,
    and the last one. *)
Lemma step_more cp seen needed lo hi b :
  needed <> 0 -> lo <= b <= hi -> seen + 1 <> needed ->
  step {| code_point := cp; bytes_seen := seen; bytes_needed := needed;
          lower_boundary := lo; upper_boundary := hi |} b
  = ({| code_point := cp * 0x40 + b mod 0x40; bytes_seen := seen + 1;
        bytes_needed := needed;
        lower_boundary := 0x80; upper_boundary := 0xBF |}, []).
Proof.
  intros. unfold step.
  cbn [bytes_needed bytes_seen lower_boundary upper_boundary code_point].
  destruct (N.eqb_spec needed 0); [lia|].
  destruct (N.leb_spec lo b); [|lia].
  destruct (N.leb_spec b hi); [|lia].
  destruct (N.eqb_spec (seen + 1) needed); [lia|]. done.
Qed.

Lemma step_last cp seen needed lo hi b :
  needed <> 0 -> lo <= b <= hi -> seen + 1 = needed ->
  step {| code_point := cp; bytes_seen := seen; bytes_needed := needed;
          lower_boundary := lo; upper_boundary := hi |} b
  = (init, [cp * 0x40 + b mod 0x40]).
Proof.
  intros. unfold step.
  cbn [bytes_needed bytes_seen lower_boundary upper_boundary code_point].
  destruct (N.eqb_spec needed 0); [lia|].
  destruct (N.leb_spec lo b); [|lia].
  destruct (N.leb_spec b hi); [|lia].
  destruct (N.eqb_spec (seen + 1) needed); [|lia]. done.
Qed.

Lemma decode_from_cons st b rest :
  decode_from st (b :: rest)
  = (step st (Byte.to_N b)).2 ++ decode_from (step st (Byte.to_N b)).1 rest.
Proof. cbn [decode_from]. by destruct (step st (Byte.to_N b)). Qed.

(** The decoder reads back what the encoder wrote for one scalar value,
    whatever follows. *)
Lemma decode_encode_scalar cp rest :
  Utf16.is_scalar cp = true ->
  decode_from init (encode_scalar cp ++ rest) = cp :: decode_from init rest.
Proof.
  unfold Utf16.is_scalar, Utf16.is_surrogate.
  intros [Hlt Hns]%andb_prop. apply N.ltb_lt in Hlt.
  assert (Hsur : cp < 0xD800 \/ 0xDFFF < cp).
  { revert Hns. compare_cases; try discriminate; lia. }
  clear Hns. unfold encode_scalar.
  destruct (N.ltb_spec cp 0x80); [|destruct (N.ltb_spec cp 0x800);
    [|destruct (N.ltb_spec cp 0x10000)]];
    cbn [app]; rewrite !decode_from_cons, !to_N_byte_of_N by lia;
    change (step init) with lead.
  - rewrite lead_1 by lia. done.
  - rewrite lead_2 by lia. cbn [fst snd app].
    rewrite step_last by lia. cbn [fst snd app]. f_equal. lia.
  - rewrite lead_3 by lia. cbn [fst snd app].
    destruct (N.eqb_spec (0xE0 + cp / 0x1000) 0xE0);
      destruct (N.eqb_spec (0xE0 + cp / 0x1000) 0xED); try lia.
    all: rewrite step_more by lia; cbn [fst snd app].
    all: rewrite step_last by lia; cbn [fst snd app]; f_equal; lia.
  - rewrite lead_4 by lia. cbn [fst snd app].
    destruct (N.eqb_spec (0xF0 + cp / 0x40000) 0xF0);
      destruct (N.eqb_spec (0xF0 + cp / 0x40000) 0xF4); try lia.
    all: rewrite step_more by lia; cbn [fst snd app].
    all: rewrite step_more by lia; cbn [fst snd app].
    all: rewrite step_last by lia; cbn [fst snd app]; f_equal; lia.
Qed.

Lemma decode_encode cps :
  forallb Utf16.is_scalar cps = true -> decode (encode cps) = cps.
Proof.
  unfold decode, encode.
  induction cps as [|cp cps IH]; [done|]. cbn [forallb flat_map].
  intros [Hcp Hcps]%andb_prop.
  rewrite decode_encode_scalar by done. f_equal. auto.
Qed.
End Utf8Facts.

(** ** UTF-16 *)

Module Utf16Facts.
Import Utf16.
Local Open Scope N_scope.

(** Induction on strings that may consume two code units at a time. *)
Lemma pair_induction (P : jsstring -> Prop) :
  P [] ->
  (forall c, P [c]) ->
  (forall c d rest, P rest -> P (d :: rest) -> P (c :: d :: rest)) ->
  forall s, P s.
Proof.
  intros Hnil Hone Hstep s.
  assert (P s /\ forall c, P (c :: s)) as [? _]; [|done].
  induction s as [|d rest [IH1 IH2]]; split; auto.
Qed.

Ltac surrogates :=
  unfold is_scalar, is_surrogate, is_lead, is_trail in *;
  repeat match goal with
    | H : context [N.leb ?a ?b] |- _ => destruct (N.leb_spec a b); simpl in H
    | H : context [N.ltb ?a ?b] |- _ => destruct (N.ltb_spec a b); simpl in H
    end;
  compare_cases; try discriminate; try lia.

Lemma to_scalars_single c rest :
  is_lead c = false ->
  to_scalars (c :: rest) = (if is_trail c then 0xFFFD else c) :: to_scalars rest.
Proof. intros E. simpl. rewrite E. by destruct (is_trail c). Qed.

Lemma to_scalars_pair c d rest :
  is_lead c = true -> is_trail d = true ->
  to_scalars (c :: d :: rest)
  = (0x10000 + (c - 0xD800) * 0x400 + (d - 0xDC00)) :: to_scalars rest.
Proof. intros E E'. simpl. by rewrite E, E'. Qed.

Lemma well_formed_single c rest :
  is_lead c = false -> well_formed (c :: rest) = true ->
  c < 0x10000 /\ is_trail c = false /\ well_formed rest = true.
Proof.
  intros E. simpl. rewrite E.
  intros [[Hc Hnt]%andb_prop Hrest]%andb_prop.
  apply N.ltb_lt in Hc. by apply negb_true_iff in Hnt.
Qed.

Lemma well_formed_pair c rest :
  is_lead c = true -> well_formed (c :: rest) = true ->
  exists d rest', rest = d :: rest' /\ is_trail d = true
                  /\ well_formed rest' = true.
Proof.
  intros E. simpl. rewrite E. destruct rest as [|d rest']; [done|].
  intros [Hd Hrest]%andb_prop. eauto.
Qed.

(** The scalar values of a well-formed string are scalar values. *)
Lemma to_scalars_scalar s :
  well_formed s = true -> forallb is_scalar (to_scalars s) = true.
Proof.
  induction s as [|c|c d rest IH1 IH2] using pair_induction; intros Hwf;
    [done|..]; destruct (is_lead c) eqn:E.
  - by apply well_formed_pair in Hwf as (? & ? & ? & _).
  - apply well_formed_single in Hwf as (Hc & Hnt & _); [|done].
    rewrite to_scalars_single, Hnt by done. simpl. rewrite andb_true_r.
    revert E Hnt. surrogates.
  - apply well_formed_pair in Hwf as (? & ? & [= <- <-] & Hd & Hrest); [|done].
    rewrite to_scalars_pair by done. cbn [forallb]. rewrite IH1 by done.
    rewrite andb_true_r. revert E Hd. surrogates.
  - apply well_formed_single in Hwf as (Hc & Hnt & Hrest); [|done].
    rewrite to_scalars_single, Hnt by done. cbn [forallb].
    rewrite IH2 by done. rewrite andb_true_r. revert E Hnt. surrogates.
Qed.

(** A well-formed string is the UTF-16 form of its scalar values. *)
Lemma of_to_scalars s :
  well_formed s = true -> of_scalars (to_scalars s) = s.
Proof.
  unfold of_scalars.
  induction s as [|c|c d rest IH1 IH2] using pair_induction; intros Hwf;
    [done|..]; destruct (is_lead c) eqn:E.
  - by apply well_formed_pair in Hwf as (? & ? & ? & _).
  - apply well_formed_single in Hwf as (Hc & Hnt & _); [|done].
    rewrite to_scalars_single, Hnt by done. simpl.
    unfold of_scalar. by apply N.ltb_lt in Hc as ->.
  - apply well_formed_pair in Hwf as (? & ? & [= <- <-] & Hd & Hrest); [|done].
    rewrite to_scalars_pair by done. cbn [flat_map]. rewrite IH1 by done.
    unfold of_scalar. revert E Hd. surrogates. intros _ _.
    cbn [app]. f_equal; [lia|f_equal; lia].
  - apply well_formed_single in Hwf as (Hc & Hnt & Hrest); [|done].
    rewrite to_scalars_single, Hnt by done. cbn [flat_map].
    rewrite IH2 by done. unfold of_scalar. by apply N.ltb_lt in Hc as ->.
Qed.

(** The first scalar value of a string is U+FEFF only if its first code
    unit is. *)
Lemma to_scalars_head s :
  head s <> Some 0xFEFF -> head (to_scalars s) <> Some 0xFEFF.
Proof.
  destruct s as [|c rest]; [done|]. simpl. intros Hc.
  destruct (is_lead c) eqn:E.
  - destruct rest as [|d rest]; [done|].
    destruct (is_trail d) eqn:E'; simpl; [|done].
    intros [= H]. revert E E' H. surrogates.
  - destruct (is_trail c); simpl; [done|]. congruence.
Qed.
End Utf16Facts.

(** ** [TextEncoder] and [TextDecoder] *)

Lemma has_bom_head s : has_bom s = false -> head s <> Some 0xFEFF%N.
Proof. destruct s as [|c s]; [done|]. by intros H [= ->]. Qed.

Lemma strip_bom_id cps : head cps <> Some 0xFEFF%N -> strip_bom cps = cps.
Proof.
  intros H. unfold strip_bom.
  destruct (has_bom cps) eqn:E; [|done].
  destruct cps as [|c cps]; [done|].
  destruct (N.eq_dec c 0xFEFF%N) as [->|Hne]; [done|].
  exfalso. revert E. unfold has_bom.
  repeat (match goal with
          | |- match ?x with _ => _ end = _ -> _ => destruct x; try done
          end).
Qed.

(** Text survives [TextEncoder] and [TextDecoder] when it is well formed
    and does not start with U+FEFF. *)
Lemma TextDecoder_decode_encode s :
  Utf16.well_formed s = true -> has_bom s = false ->
  TextDecoder_decode (TextEncoder_encode s) = s.
Proof.
  intros Hwf Hbom%has_bom_head. unfold TextDecoder_decode, TextEncoder_encode.
  rewrite Utf8Facts.decode_encode by by apply Utf16Facts.to_scalars_scalar.
  rewrite strip_bom_id by by apply Utf16Facts.to_scalars_head.
  by apply Utf16Facts.of_to_scalars.
Qed.

(** ** Base64 *)

Module Base64Facts.
Import Base64.
Local Open Scope N_scope.

Lemma index_of_char_of i : sextet i -> index_of (char_of i) = Some i.
Proof.
  unfold sextet, char_of. intros Hi.
  compare_cases; unfold index_of; compare_cases; try lia; f_equal; lia.
Qed.

Lemma char_of_plain i :
  sextet i -> is_ascii_whitespace (char_of i) = false /\ char_of i <> pad.
Proof.
  unfold sextet, char_of, pad. intros Hi.
  compare_cases; unfold is_ascii_whitespace; compare_cases; split; try done; lia.
Qed.

(** Induction on byte sequences, three bytes at a time. *)
Lemma triple_induction (P : list N -> Prop) :
  P [] -> (forall a, P [a]) -> (forall a b, P [a; b]) ->
  (forall a b c rest, P rest -> P (a :: b :: c :: rest)) ->
  forall bs, P bs.
Proof.
  intros H0 H1 H2 H3 bs.
  assert (P bs /\ (forall a, P (a :: bs)) /\ forall a b, P (a :: b :: bs))
    as [? _]; [|done].
  induction bs as [|c rest (IH0 & IH1 & IH2)]; repeat split; auto.
Qed.

Lemma sextets_sextet bs : Forall octet bs -> Forall sextet (sextets bs).
Proof.
  unfold octet, sextet.
  induction bs as [|a|a b|a b c rest IH] using triple_induction; intros H;
    cbn [sextets].
  - constructor.
  - inversion_clear H. repeat constructor; lia.
  - inversion_clear H as [|?? Ha H']. inversion_clear H'.
    repeat constructor; lia.
  - inversion_clear H as [|?? Ha H']. inversion_clear H' as [|?? Hb H''].
    inversion_clear H'' as [|?? Hc Hrest].
    repeat (constructor; [lia|]). auto.
Qed.

Lemma decode_sextets bs : Forall octet bs -> decode (sextets bs) = bs.
Proof.
  unfold octet.
  induction bs as [|a|a b|a b c rest IH] using triple_induction; intros H.
  - done.
  - inversion_clear H. cbn. f_equal. lia.
  - inversion_clear H as [|?? Ha H']. inversion_clear H'.
    cbn. f_equal; [lia|f_equal; lia].
  - inversion_clear H as [|?? Ha H']. inversion_clear H' as [|?? Hb H''].
    inversion_clear H'' as [|?? Hc Hrest].
    cbn [sextets decode]. rewrite IH by done.
    f_equal; [lia|f_equal; [lia|f_equal; lia]].
Qed.

(** The 6-bit values and the padding fill groups of four, and no group
    ends after one value. *)
Lemma sextets_length bs :
  ((length (sextets bs) + padding bs) mod 4 = 0
   /\ length (sextets bs) mod 4 ≠ 1
   /\ padding bs <= 2)%nat.
Proof.
  induction bs as [|a|a b|a b c rest IH] using triple_induction;
    cbn [sextets padding length]; lia.
Qed.

Lemma indices_map_char_of sx :
  Forall sextet sx -> indices (map char_of sx) = Some sx.
Proof.
  induction 1 as [|i sx Hi _ IH]; [done|].
  cbn [map indices]. by rewrite index_of_char_of, IH.
Qed.

Lemma filter_plain sx p :
  Forall sextet sx ->
  List.filter (fun c => negb (is_ascii_whitespace c))
              (map char_of sx ++ repeat pad p)
  = map char_of sx ++ repeat pad p.
Proof.
  intros Hsx. apply forallb_filter_id, forallb_forall.
  intros c [Hc|Hc]%in_app_or.
  - apply in_map_iff in Hc as (i & <- & Hi).
    rewrite Forall_forall in Hsx. apply list_elem_of_In, Hsx in Hi.
    by apply char_of_plain in Hi as [-> _].
  - by apply repeat_spec in Hc as ->.
Qed.

Lemma strip_padding_encoded sx p :
  Forall sextet sx -> (p <= 2)%nat ->
  strip_padding (map char_of sx ++ repeat pad p) = map char_of sx.
Proof.
  intros Hsx Hp. unfold strip_padding.
  assert (Hlast : forall r c, rev (map char_of sx) = c :: r -> c <> 61).
  { intros r c Hr.
    assert (In c (map char_of sx)) as Hc.
    { apply in_rev. rewrite Hr. by left. }
    apply in_map_iff in Hc as (i & <- & Hi).
    rewrite Forall_forall in Hsx. apply list_elem_of_In, Hsx in Hi.
    by apply char_of_plain in Hi as [_ ?]. }
  destruct p as [|[|[|]]]; [| | |lia]; cbn [repeat].
  - rewrite app_nil_r.
    destruct (rev (map char_of sx)) as [|c r] eqn:Hr; [done|].
    specialize (Hlast r c eq_refl).
    destruct (N.eq_dec c 61) as [->|Hne]; [done|].
    repeat (match goal with
            | |- match ?x with _ => _ end = _ => destruct x; try done
            end).
  - rewrite rev_app_distr. cbn [rev app].
    destruct (rev (map char_of sx)) as [|c r] eqn:Hr.
    + unfold pad. apply (f_equal (@rev N)) in Hr.
      rewrite rev_involutive in Hr. by rewrite Hr.
    + specialize (Hlast r c eq_refl). unfold pad.
      destruct (N.eq_dec c 61) as [->|Hne]; [done|].
      rewrite <- (rev_involutive (map char_of sx)), Hr.
      repeat (match goal with
              | |- match ?x with _ => _ end = _ => destruct x; try done
              end).
  - rewrite rev_app_distr. cbn [rev app]. unfold pad.
    by rewrite rev_involutive.
Qed.

(** [atob] undoes the encoding of any sequence of bytes. *)
Lemma atob_encode {engine : Engine} bs :
  Forall octet bs -> atob (encode bs) = Ok bs.
Proof.
  intros Hbs. unfold atob, encode.
  pose proof (sextets_sextet bs Hbs) as Hsx.
  pose proof (sextets_length bs) as (Hlen & Hne1 & Hp).
  rewrite filter_plain by done.
  rewrite length_app, length_map, repeat_length.
  rewrite Hlen. cbn [Nat.eqb].
  rewrite strip_padding_encoded by done.
  rewrite length_map.
  destruct (Nat.eqb_spec (length (sextets bs) mod 4) 1); [done|].
  rewrite indices_map_char_of by done.
  by rewrite decode_sextets.
Qed.

Lemma btoa_binary {engine : Engine} bs :
  Forall octet bs -> btoa bs = Ok (encode bs).
Proof.
  intros Hbs. unfold btoa.
  assert (forallb (fun c => c <=? 255) bs = true) as ->; [|done].
  apply forallb_forall. intros c Hc%list_elem_of_In.
  rewrite Forall_forall in Hbs. apply Hbs in Hc. unfold octet in Hc.
  apply N.leb_le. lia.
Qed.

(** [atob] throws nothing but [InvalidCharacterError]. *)
Lemma atob_throws {engine : Engine} s e :
  atob s = Throw e -> e = InvalidCharacterError atob_message.
Proof.
  unfold atob. destruct (_ =? 1)%nat; [by intros [= <-]|].
  destruct (indices _); [done|by intros [= <-]].
Qed.

Lemma encode_truthy bs : bs <> [] -> truthy (Some (encode bs)) = true.
Proof. by destruct bs as [|a [|b [|c rest]]]. Qed.
End Base64Facts.

(** ** The envelope *)

Lemma String_fromCharCode_octets bs :
  Forall Base64.octet (String_fromCharCode bs).
Proof.
  unfold String_fromCharCode. apply Forall_forall.
  intros c (b & -> & _)%list_elem_of_fmap. apply to_N_lt_256.
Qed.

Lemma Uint8Array_from_fromCharCode bs :
  Uint8Array_from (String_fromCharCode bs) = bs.
Proof.
  unfold Uint8Array_from, String_fromCharCode.
  rewrite map_map. rewrite <- (map_id bs) at 2. apply map_ext. intros b.
  rewrite N.mod_small by apply to_N_lt_256. apply byte_of_N_to_N.
Qed.


Lemma getRandomValues_length n g : length (getRandomValues n g).1 = n.
Proof. unfold getRandomValues. cbn [fst]. by rewrite length_map, length_seq. Qed.

(** The envelope is framed as salt, IV, ciphertext, and the slices of
    [decryptMnemonic] cut it at the same places. *)
Lemma slices_of_envelope (salt iv ciphertext : bytes) :
  length salt = 16%nat -> length iv = 12%nat ->
  slice 0 16 (salt ++ iv ++ ciphertext) = salt
  /\ slice 16 28 (salt ++ iv ++ ciphertext) = iv
  /\ slice_from 28 (salt ++ iv ++ ciphertext) = ciphertext.
Proof.
  intros Hs Hi. unfold slice, slice_from. repeat split.
  - by rewrite drop_0, take_app_length'.
  - rewrite drop_app_length' by done. by rewrite take_app_length'.
  - rewrite app_assoc. rewrite drop_app_length'; [done|].
    rewrite length_app. lia.
Qed.

Section VaultFacts.
Context {engine : Engine} {crypto : WebCrypto}.

(** [encryptMnemonic] draws the salt and the IV, and then returns the
    base64 text of the sealed bytes, or throws a [RangeError] when they are
    more than the arguments a call may have. *)
Lemma encryptMnemonic_run mnemonic password g :
  encryptMnemonic mnemonic password g
  = (if spreads (sealed mnemonic password g)
     then Ok (Base64.encode (String_fromCharCode (sealed mnemonic password g)))
     else Throw (RangeError RangeError_message),
     (getRandomValues 12 (getRandomValues 16 g).2).2).
Proof.
  unfold encryptMnemonic, sealed, String_fromCharCode_spread.
  destruct (getRandomValues 16 g) as [salt g1]; cbn [fst snd].
  destruct (getRandomValues 12 g1) as [iv g2]; cbn [fst snd].
  destruct (spreads _); [|done].
  by rewrite Base64Facts.btoa_binary by apply String_fromCharCode_octets.
Qed.

Lemma encryptMnemonic_sealed mnemonic password g :
  spreads (sealed mnemonic password g) = true ->
  encryptMnemonic mnemonic password g
  = (Ok (Base64.encode (String_fromCharCode (sealed mnemonic password g))),
     (getRandomValues 12 (getRandomValues 16 g).2).2).
Proof. intros H. by rewrite encryptMnemonic_run, H. Qed.

(** Opening a sealed envelope with any password: the outcome is decided
    by AES-GCM under the key derived from that password and the salt of
    the envelope. *)
Lemma decryptMnemonic_sealed mnemonic password password' g :
  let salt := (getRandomValues 16 g).1 in
  let iv := (getRandomValues 12 (getRandomValues 16 g).2).1 in
  let key :=
    PBKDF2_deriveKey (TextEncoder_encode password) salt 100000 "SHA-256" 256 in
  let key' :=
    PBKDF2_deriveKey (TextEncoder_encode password') salt 100000 "SHA-256" 256 in
  decryptMnemonic
    (Base64.encode (String_fromCharCode (sealed mnemonic password g))) password'
  = match AES_GCM_decrypt key' iv
            (AES_GCM_encrypt key iv (TextEncoder_encode mnemonic)) with
    | Some decrypted => Ok (TextDecoder_decode decrypted)
    | None => Throw (Error "Invalid password")
    end.
Proof.
  intros salt iv key key'. unfold decryptMnemonic.
  rewrite Base64Facts.atob_encode by apply String_fromCharCode_octets.
  rewrite Uint8Array_from_fromCharCode. unfold sealed. fold salt iv key.
  destruct (slices_of_envelope salt iv
              (AES_GCM_encrypt key iv (TextEncoder_encode mnemonic)))
    as (-> & -> & ->); [apply getRandomValues_length..|].
  done.
Qed.

Lemma sealed_envelope_truthy mnemonic password g :
  truthy (Some (Base64.encode (String_fromCharCode (sealed mnemonic password g))))
  = true.
Proof.
  apply Base64Facts.encode_truthy. unfold sealed.
  pose proof (getRandomValues_length 16 g) as Hlen.
  by destruct (getRandomValues 16 g).1.
Qed.

Context {laws : WebCryptoLaws crypto}.

(** Sealing and opening with passwords that encode to the same bytes
    gives the text back as [TextDecoder] reads what [TextEncoder] wrote. *)
Lemma open_sealed mnemonic password password' g :
  TextEncoder_encode password' = TextEncoder_encode password ->
  decryptMnemonic
    (Base64.encode (String_fromCharCode (sealed mnemonic password g))) password'
  = Ok (TextDecoder_decode (TextEncoder_encode mnemonic)).
Proof.
  intros Hpw. rewrite decryptMnemonic_sealed, Hpw.
  by rewrite AES_GCM_decrypt_encrypt.
Qed.
End VaultFacts.

Module StandinFacts.
Import Standin.

(** The stand-in satisfies the law of the interface. *)
#[export] Instance laws : WebCryptoLaws crypto.
Proof.
  split. intros k iv data. cbn [AES_GCM_decrypt AES_GCM_encrypt crypto].
  unfold decrypt, encrypt.
  assert (length (data ++ tag k iv data) - 16 = length data)%nat as Hlen.
  { rewrite length_app. unfold tag. rewrite repeat_length. lia. }
  rewrite Hlen.
  destruct (Nat.ltb_spec (length (data ++ tag k iv data)) 16) as [Hlt|_].
  { rewrite length_app in Hlt. unfold tag in Hlt.
    rewrite repeat_length in Hlt. lia. }
  rewrite take_app_length, drop_app_length.
  unfold bytes_eqb. by rewrite bool_decide_eq_true_2.
Qed.
End StandinFacts.

Module CommittingFacts.
Import Committing.




End CommittingFacts.

(** ** The monad *)

Lemma bind_run {A B} (m : M A) (k : A -> M B) w :
  (m ≫= k) w =
  match m w with
  | (Ok a, w') => k a w'
  | (Throw e, w') => (Throw e, w')
  end.
Proof. done. Qed.

(** Unfold the monad. *)
Ltac run :=
  unfold mbind, M_bind, mret, M_ret, gets, modify, lift, throw, random,
    try_catch, perform, performAll;
  cbn [fst snd].

(** Unfold the monad and the setters, then reduce projections of worlds. *)
Ltac run_store :=
  unfold set_walletStore, setSparkAddress, setPubkey, setInitializationStatus,
    setOnchainDepositAddresses, setBalance, sessionStorage_getItem,
    sessionStorage_setItem, status;
  run;
  cbn [rng localStorage sessionStorage mnemonicStore walletStore
       effects with_rng with_sessionStorage with_walletStore
       initializationStatus initWalletNetwork].

(** ** The mnemonic store *)

Section MnemonicStoreFacts.
Context {engine : Engine} {crypto : WebCrypto}.

Lemma getDecryptedMnemonic_pure password w :
  (getDecryptedMnemonic password w).2 = w.
Proof.
  unfold getDecryptedMnemonic. run.
  by destruct (encryptedMnemonic (mnemonicStore w)) as [[|]|].
Qed.

Lemma randomUUID_truthy g : truthy (Some (randomUUID g).1) = true.
Proof.
  unfold randomUUID. destruct (getRandomValues 16 g) as [r g'].
  cbn [fst]. set (r' := alter _ 8%nat _).
  by destruct (hex (slice 0 4 r')).
Qed.

(** [startSession], run. It throws what [getDecryptedMnemonic] throws and
    then leaves the world as it was. Otherwise it draws the session key and
    seals the phrase under it: it stores the new session, or, when the
    sealed bytes are more than the arguments a call may have, throws the
    [RangeError] of [encryptMnemonic] with nothing changed but the entropy
    drawn. *)
Lemma startSession_run password now w :
  startSession password now w =
  match getDecryptedMnemonic password w with
  | (Throw e, _) => (Throw e, w)
  | (Ok mnemonic, _) =>
      let key := (randomUUID (rng w)).1 in
      let g1 := (randomUUID (rng w)).2 in
      let g2 := (getRandomValues 12 (getRandomValues 16 g1).2).2 in
      let s :=
        {| encryptedMnemonic := encryptedMnemonic (mnemonicStore w);
           sessionEncryptedMnemonic :=
             Some (Base64.encode (String_fromCharCode (sealed mnemonic key g1)));
           session := {| sessionKey := Some key;
                         expiresAt := Some (now + 1800000)%Z |} |} in
      if spreads (sealed mnemonic key g1)
      then
        (Ok tt,
         {| rng := g2;
            localStorage := <[PERSIST_NAME := s]> (localStorage w);
            sessionStorage := sessionStorage w; mnemonicStore := s;
            walletStore := walletStore w; effects := effects w |})
      else (Throw (RangeError RangeError_message), with_rng g2 w)
  end.
Proof.
  unfold startSession.
  pose proof (getDecryptedMnemonic_pure password w) as Hpure.
  unfold mbind at 1. unfold M_bind at 1.
  destruct (getDecryptedMnemonic password w) as [[mnemonic|e] w0];
    cbn [snd] in Hpure; subst w0; [|done].
  run. destruct (randomUUID (rng w)) as [key g1]; cbn [fst snd].
  unfold with_rng; cbn [rng].
  rewrite encryptMnemonic_run. cbn [fst snd].
  destruct (spreads _); [|done]. unfold set_mnemonicStore.
  by run.
Qed.

(** [getSessionMnemonic] reads nothing but the mnemonic store, and changes
    nothing. *)
Lemma getSessionMnemonic_store now w1 w2 :
  mnemonicStore w1 = mnemonicStore w2 ->
  (getSessionMnemonic now w1).1 = (getSessionMnemonic now w2).1.
Proof.
  intros Hs. unfold getSessionMnemonic. run. rewrite Hs.
  destruct (sessionKey _) as [key|]; [|done].
  destruct (expiresAt _) as [expires|]; [|done].
  destruct (sessionEncryptedMnemonic _) as [encrypted|]; [|done].
  destruct (_ && _); [|done]. by destruct (decryptMnemonic _ _).
Qed.

Lemma getSessionMnemonic_pure now w : (getSessionMnemonic now w).2 = w.
Proof.
  unfold getSessionMnemonic. run.
  destruct (sessionKey _) as [key|]; [|done].
  destruct (expiresAt _) as [expires|]; [|done].
  destruct (sessionEncryptedMnemonic _) as [encrypted|]; [|done].
  destruct (_ && _); [|done]. by destruct (decryptMnemonic _ _).
Qed.

(** Once the expiry time is reached there is no session secret. *)
Lemma getSessionMnemonic_expired now w expires :
  expiresAt (session (mnemonicStore w)) = Some expires ->
  (expires <= now)%Z ->
  getSessionMnemonic now w = (Ok None, w).
Proof.
  intros He Hle. unfold getSessionMnemonic. run. rewrite He.
  destruct (sessionKey _) as [key|]; [|done].
  destruct (sessionEncryptedMnemonic _) as [encrypted|]; [|done].
  destruct (Z.ltb_spec now expires); [lia|].
  by rewrite andb_false_r.
Qed.

(** What is written by [set] is what a restart hydrates. *)
Lemma restart_persisted w :
  persisted w -> mnemonicStore (restart w) = mnemonicStore w.
Proof.
  unfold persisted, restart. cbn [mnemonicStore localStorage]. by intros ->.
Qed.

Lemma set_mnemonicStore_persisted patch w :
  persisted (set_mnemonicStore patch w).2.
Proof.
  unfold persisted, set_mnemonicStore. run.
  cbn [mnemonicStore localStorage]. apply lookup_insert_eq.
Qed.

Context {laws : WebCryptoLaws crypto}.

(** The session that [startSession] leaves behind: it is in [localStorage]
    too, and until its expiry it yields the recovery phrase as read back
    through the text codec. *)
Lemma session_after_startSession password now w w' :
  (0 <= now)%Z ->
  startSession password now w = (Ok tt, w') ->
  persisted w' /\
  exists mnemonic,
    getDecryptedMnemonic password w = (Ok mnemonic, w) /\
    forall t w'', mnemonicStore w'' = mnemonicStore w' ->
      (getSessionMnemonic t w'').1 =
      if (t <? now + 1800000)%Z
      then Ok (Some (TextDecoder_decode (TextEncoder_encode mnemonic)))
      else Ok None.
Proof.
  intros Hnow. rewrite startSession_run.
  pose proof (getDecryptedMnemonic_pure password w) as Hpure.
  destruct (getDecryptedMnemonic password w) as [[mnemonic|e] w0];
    cbn [snd] in Hpure; subst w0; [|done].
  lazy zeta. destruct (spreads _); [|done].
  intros Heq. apply (f_equal snd) in Heq. cbn [snd] in Heq.
  subst w'. split.
  { unfold persisted. cbn [mnemonicStore localStorage].
    apply lookup_insert_eq. }
  exists mnemonic. split; [done|]. intros t w'' Hw''.
  unfold getSessionMnemonic. run. rewrite Hw''.
  cbn [mnemonicStore session sessionKey expiresAt sessionEncryptedMnemonic].
  rewrite randomUUID_truthy, sealed_envelope_truthy.
  unfold truthy_number.
  destruct (Z.eqb_spec (now + 1800000) 0); [lia|]. cbn [negb andb].
  rewrite andb_true_r.
  destruct (t <? now + 1800000)%Z; [|done].
  by rewrite open_sealed.
Qed.
End MnemonicStoreFacts.

(** ** The wallet store *)

Section WalletStoreFacts.
Context {engine : Engine} {crypto : WebCrypto} {sdk : SparkSdk}.

(** Opening a wallet does one call of the ledger client, and leaves the
    mnemonic store alone. *)
Lemma openWallet_frame secret network w :
  let w' := (openWallet secret network w).2 in
  effects w' = effects w ++ [SdkInitialize secret network]
  /\ mnemonicStore w' = mnemonicStore w.
Proof.
  unfold openWallet. run_store.
  destruct (SparkWallet_initialize secret network) as [opened|e]; [|done].
  run_store.
  destruct (getSparkAddress opened); [|done]. run_store.
  destruct (getIdentityPublicKey opened); [|done]. run_store.
  by destruct (getUnusedDepositAddresses opened).
Qed.

(** [initWallet] and [initWalletFromSeed] never throw: they call the
    ledger client once, with the secret they were given, and end in
    [success] or in [error]. *)
Lemma initWallet_frame secret w :
  let r := initWallet secret w in
  r.1 = Ok tt
  /\ effects r.2
     = effects w ++ [SdkInitialize secret (initWalletNetwork (walletStore w))]
  /\ (initializationStatus (walletStore r.2) = success
      \/ initializationStatus (walletStore r.2) = error).
Proof.
  unfold initWallet. run_store.
  pose proof (openWallet_frame secret (initWalletNetwork (walletStore w)) w)
    as [He _].
  destruct (openWallet _ _ w) as [[[]|e] w1]; cbn [snd] in He; run_store; auto.
Qed.

Lemma initWalletFromSeed_frame secret w :
  let r := initWalletFromSeed secret w in
  r.1 = Ok tt
  /\ effects r.2
     = effects w ++ [SdkInitialize secret (initWalletNetwork (walletStore w))]
  /\ (initializationStatus (walletStore r.2) = success
      \/ initializationStatus (walletStore r.2) = error).
Proof.
  unfold initWalletFromSeed. run_store.
  pose proof (openWallet_frame secret (initWalletNetwork (walletStore w)) w)
    as [He _].
  destruct (openWallet _ _ w) as [[[]|e] w1]; cbn [snd] in He; run_store; auto.
Qed.

(** A wallet-open attempt inside the [try] of [loadStoredWallet]. *)
Lemma opened_with (attempt : M ()) secret network w w1 s1 :
  initWalletNetwork s1 = network ->
  w1 = with_walletStore s1 w ->
  (let r := attempt w1 in
   r.1 = Ok tt
   /\ effects r.2
      = effects w1 ++ [SdkInitialize secret (initWalletNetwork (walletStore w1))]
   /\ (initializationStatus (walletStore r.2) = success
       \/ initializationStatus (walletStore r.2) = error)) ->
  forall handler,
  effects ((match try_catch attempt handler w1 with
            | (Ok _, w') => status w'
            | (Throw e, w') => (Throw e, w')
            end).2)
  = effects w ++ [SdkInitialize secret network].
Proof.
  intros Hnet -> (Hr & He & _) handler. unfold try_catch.
  destruct (attempt _) as [[[]|] w2]; [|done].
  unfold status, gets. cbn [fst snd] in *. by rewrite He, <- Hnet.
Qed.

End WalletStoreFacts.

(** ** The deposit polling *)

Lemma cycleCalls_claim ledger addrs :
  forallb isClaimCall (cycleCalls ledger addrs) = true.
Proof.
  unfold cycleCalls. rewrite forallb_app. apply andb_true_intro. split.
  - by induction addrs.
  - induction addrs as [|addr addrs IH]; [done|].
    cbn [flat_map]. rewrite forallb_app, IH, andb_true_r. unfold claimCall.
    by destruct (getLatestDepositTxId ledger addr) as [[[|]|]|].
Qed.

(** The local variables after the tasks of [addrs] ran: an address is
    dropped exactly if its task claimed, and the flag is raised exactly if
    some task claimed. *)
Lemma runTask_foldl ledger addrs (set0 : gset string) (flag0 : bool) :
  let locals := foldl (runTask ledger) (set0, flag0) addrs in
  (forall x, x ∈ locals.1 <->
             x ∈ set0 /\ ~ (x ∈ addrs /\ claimTask ledger x = TaskClaimed))
  /\ (locals.2 = true <->
      flag0 = true \/ exists x, x ∈ addrs /\ claimTask ledger x = TaskClaimed).
Proof.
  revert set0 flag0.
  induction addrs as [|addr addrs IH]; intros set0 flag0; cbn [foldl].
  - cbn [fst snd]. split; [intros x|].
    + split; [intros Hx; split; [done|]|by intros []].
      intros [Hin _]. by apply elem_of_nil in Hin.
    + split; [by left|]. intros [|(x & Hin & _)]; [done|].
      by apply elem_of_nil in Hin.
  - destruct (runTask ledger (set0, flag0) addr) as [set1 flag1] eqn:E1.
    destruct (IH set1 flag1) as [IHset IHflag]. cbn zeta.
    unfold runTask in E1. cbn [fst] in E1.
    split; [intros x; rewrite IHset|rewrite IHflag]; clear IHset IHflag IH.
    + rewrite elem_of_cons.
      destruct (claimTask ledger addr) eqn:E; injection E1 as <- <-;
        rewrite ?elem_of_difference, ?elem_of_singleton;
        (destruct (decide (x = addr)) as [->|Hne]; [rewrite ?E|]);
        intuition congruence.
    + setoid_rewrite elem_of_cons.
      destruct (claimTask ledger addr) eqn:E; injection E1 as <- <-.
      all: split; [intros [|(x & Hx & Hc)]|intros [|(x & [->|Hx] & Hc)]];
        eauto; try congruence.
Qed.

Lemma firstRejection_None ledger addrs :
  (forall x, x ∈ addrs -> forall e, getLatestDepositTxId ledger x <> Throw e) ->
  firstRejection (map (claimTask ledger) addrs) = None.
Proof.
  induction addrs as [|addr addrs IH]; intros Hq; [done|].
  cbn [map firstRejection].
  assert (forall e, claimTask ledger addr <> TaskRejected e) as Hno.
  { intros e. unfold claimTask.
    destruct (getLatestDepositTxId ledger addr) as [[[|a txid]|]|e'] eqn:E;
      try done.
    - by destruct (claimDeposit ledger _).
    - exfalso. by eapply (Hq addr); [left|]. }
  destruct (claimTask ledger addr) eqn:E; [by destruct (Hno e)|..];
    apply IH; intros x Hx; apply Hq; by right.
Qed.

Lemma firstRejection_Some ledger addrs x e :
  x ∈ addrs -> getLatestDepositTxId ledger x = Throw e ->
  exists e', firstRejection (map (claimTask ledger) addrs) = Some e'.
Proof.
  intros Hx Hq. induction addrs as [|addr addrs IH]; [by inversion Hx|].
  cbn [map firstRejection].
  destruct (claimTask ledger addr) eqn:E; eauto.
  all: apply IH; inversion Hx; subst; [|done].
  all: unfold claimTask in E; rewrite Hq in E; done.
Qed.

(** [l1Deposit], run. *)
Lemma l1Deposit_run ledger w :
  l1Deposit ledger w =
  match wallet (walletStore w) with
  | None => (Ok None, w)
  | Some _ =>
      let watched := onchainDepositAddresses (walletStore w) in
      let locals := foldl (runTask ledger) (watched, false) (elements watched) in
      match firstRejection (map (claimTask ledger) (elements watched)) with
      | Some e => (Throw e, afterCalls ledger w)
      | None =>
          (Ok (Some locals.2),
           if locals.2 || negb (size watched =? size locals.1)%nat
           then (setOnchainDepositAddresses locals.1 (afterCalls ledger w)).2
           else afterCalls ledger w)
      end
  end.
Proof.
  unfold l1Deposit. rewrite bind_run. unfold gets at 1. cbn beta iota.
  destruct (wallet (walletStore w)); [|done].
  cbn zeta. destruct (foldl _ _ _) as [unClaimed claimedSomething].
  rewrite bind_run. unfold performAll, modify. cbn beta iota.
  fold (afterCalls ledger w).
  destruct (firstRejection _); [done|]. cbn [fst snd].
  rewrite bind_run. by destruct (claimedSomething || _).
Qed.

Section ClaimLoop.
Variable ledger : Ledger.
Variable w : World.
Variable opened : SparkWallet.
Hypothesis Hwallet : wallet (walletStore w) = Some opened.

(** X22. A rejection of the transaction-id query of one watched address makes
    the whole cycle reject, and the store keeps its watched set. *)
Lemma l1Deposit_query_rejected x e :
  x ∈ onchainDepositAddresses (walletStore w) ->
  getLatestDepositTxId ledger x = Throw e ->
  exists e', (l1Deposit ledger w).1 = Throw e'
             /\ walletStore (l1Deposit ledger w).2 = walletStore w.
Proof.
  intros Hx Hq. rewrite l1Deposit_run, Hwallet. cbn zeta.
  set (watched := onchainDepositAddresses (walletStore w)) in *.
  destruct (firstRejection_Some ledger (elements watched) x e) as [e' He'];
    [by apply elem_of_elements|done|].
  rewrite He'. by exists e'.
Qed.

(** X21. When no query rejects, failures of [claimDeposit] are contained: the
    cycle returns, and the new watched set is the old one without the
    addresses whose deposit was claimed. *)
Lemma l1Deposit_claim_failures_isolated :
  (forall x, x ∈ onchainDepositAddresses (walletStore w) ->
             forall e, getLatestDepositTxId ledger x <> Throw e) ->
  exists claimedSomething,
    (l1Deposit ledger w).1 = Ok (Some claimedSomething)
    /\ forall x,
         x ∈ onchainDepositAddresses (walletStore (l1Deposit ledger w).2)
         <-> x ∈ onchainDepositAddresses (walletStore w)
             /\ claimTask ledger x <> TaskClaimed.
Proof.
  intros Hq. rewrite l1Deposit_run, Hwallet. cbn zeta.
  set (watched := onchainDepositAddresses (walletStore w)) in *.
  pose proof (runTask_foldl ledger (elements watched) watched false)
    as [Hset Hflag].
  destruct (foldl _ _ _) as [unClaimed claimedSomething].
  cbn [fst snd] in Hset, Hflag |- *.
  rewrite firstRejection_None
    by (intros x Hx; apply Hq; by apply elem_of_elements).
  exists claimedSomething. split; [done|]. intros x. cbn [snd].
  assert (Hun : x ∈ unClaimed
                <-> x ∈ watched /\ claimTask ledger x <> TaskClaimed).
  { rewrite Hset. rewrite elem_of_elements. tauto. }
  destruct (claimedSomething || _) eqn:Eupd; [done|].
  apply orb_false_elim in Eupd as [-> _].
  split; [|by intros []]. intros Hx. split; [done|]. intros Hc.
  assert (false = true) as [=]. apply Hflag. right. exists x.
  by rewrite elem_of_elements.
Qed.
End ClaimLoop.

(** ** The balance effect *)

Lemma toasts_app es1 es2 : toasts (es1 ++ es2) = toasts es1 ++ toasts es2.
Proof. unfold toasts. apply omap_app. Qed.

(** What the second half of a run does, in terms of the balance its first
    half read. *)
Lemma handleBalanceUpdate_resume_run run currentBalance w :
  let w' := (handleBalanceUpdate_resume true run (Ok currentBalance) w).2 in
  btcBalance (walletStore w') = Some (fetchedBalance currentBalance)
  /\ toasts (effects w') =
     toasts (effects w) ++
     match previousBtcBalance run with
     | Some previous =>
         if (previous <? fetchedBalance currentBalance)%Z
         then [(fetchedBalance currentBalance - previous)%Z] else []
     | None => []
     end.
Proof.
  unfold handleBalanceUpdate_resume. cbn [negb].
  set (new := fetchedBalance _). set (tokens := default ∅ _).
  run_store.
  destruct (previousBtcBalance run) as [previous|].
  - destruct (previous <? new)%Z; run_store;
      (destruct (balanceFromEvent run) as [hint|];
       [destruct (negb (new =? hint)%Z)|]); run_store;
      cbn [btcBalance]; rewrite ?toasts_app, ?app_nil_r; cbn [toasts omap];
      rewrite ?app_nil_r; try done.
    all: by rewrite <- app_assoc.
  - destruct (balanceFromEvent run) as [hint|];
      [destruct (negb (new =? hint)%Z)|]; run_store;
      cbn [btcBalance]; rewrite ?toasts_app, ?app_nil_r; cbn [toasts omap];
      by rewrite ?app_nil_r.
Qed.

(** A run that is cut short (unmounted, no wallet, or a failed fetch)
    shows no toast and leaves the stored balance. *)
Lemma handleBalanceUpdate_resume_cut mounted run response w :
  mounted = false \/ (exists e, response = Throw e) ->
  handleBalanceUpdate_resume mounted run response w = (Ok tt, w).
Proof.
  unfold handleBalanceUpdate_resume.
  intros [-> | [e ->]]; [by destruct response|done].
Qed.

(** The first half of a run: it reads the stored balance and asks the
    ledger, or returns at once. *)
Lemma handleBalanceUpdate_begin_run mounted hookWallet eventType eventId hint w :
  handleBalanceUpdate_begin mounted hookWallet eventType eventId hint w =
  if mounted && bool_decide (is_Some hookWallet)
  then (Ok (Some {| eventType := eventType; eventId := eventId;
                    balanceFromEvent := hint;
                    previousBtcBalance := btcBalance (walletStore w) |}),
        (perform SdkGetBalance w).2)
  else (Ok None, w).
Proof.
  unfold handleBalanceUpdate_begin.
  destruct mounted; [|done].
  by destruct (bool_decide (is_Some hookWallet)).
Qed.

(** * The claims *)

(** C1 (amended). Sealing a recovery phrase under a password and opening
    the envelope with the same password gives the phrase back, for every
    password and every phrase that is a well-formed string (no unpaired
    surrogate), does not start with U+FEFF, and whose sealed bytes (salt,
    IV and ciphertext) are no more than the arguments a call may have:
    [encryptMnemonic] returns an envelope, and [decryptMnemonic] of it
    returns the phrase. With more sealed bytes [encryptMnemonic] throws a
    [RangeError] and there is no envelope. The cipher is any one whose
    [decrypt] inverts its [encrypt]. *)
Theorem vault_round_trip {engine : Engine} {crypto : WebCrypto}
    {laws : WebCryptoLaws crypto} (S P : jsstring) (g : Rng) :
  Utf16.well_formed S = true -> has_bom S = false ->
  if spreads (sealed S P g)
  then exists envelope,
         (encryptMnemonic S P g).1 = Ok envelope
         /\ decryptMnemonic envelope P = Ok S
  else (encryptMnemonic S P g).1 = Throw (RangeError RangeError_message).
Proof.
  intros Hwf Hbom. rewrite encryptMnemonic_run.
  destruct (spreads _); [|done]. eexists. split; [done|].
  rewrite open_sealed by done.
  by rewrite TextDecoder_decode_encode.
Qed.

(** C2 (amended). The session is written to [localStorage] with the rest
    of the mnemonic store, so it outlives a full restart: after a
    successful [startSession] at time [now], restarting and then calling
    [getSessionMnemonic] yields the recovery phrase without any password
    until 30 minutes after [now], and nothing from then on. *)
Theorem session_survives_restart {engine : Engine} {crypto : WebCrypto}
    {laws : WebCryptoLaws crypto} (password : jsstring) (now : Z)
    (w w' : World) :
  (0 <= now)%Z ->
  startSession password now w = (Ok tt, w') ->
  exists mnemonic,
    getDecryptedMnemonic password w = (Ok mnemonic, w)
    /\ forall t,
         (getSessionMnemonic t (restart w')).1 =
         if (t <? now + 1800000)%Z
         then Ok (Some (TextDecoder_decode (TextEncoder_encode mnemonic)))
         else Ok None.
Proof.
  intros Hnow Hstart.
  destruct (session_after_startSession _ _ _ _ Hnow Hstart)
    as (Hp & mnemonic & Hm & Hsession).
  exists mnemonic. split; [done|]. intros t.
  apply Hsession. by apply restart_persisted.
Qed.


(** C4 (amended). When its status is [idle] or [needs_password],
    [loadStoredWallet] takes the first secret it finds in this order and
    opens the wallet with it: the recovery phrase cached in
    [sessionStorage], then the raw seed cached in [sessionStorage], then
    the session secret of the mnemonic store. If there is none, it opens
    nothing and returns [needs_password] exactly when an encrypted vault is
    stored, [no_wallet] otherwise ([error] if reading the session threw). *)
Theorem loadStoredWallet_priority {engine : Engine} {crypto : WebCrypto} {sdk : SparkSdk}
    (now : Z) (w : World) :
  initializationStatus (walletStore w) = idle
  \/ initializationStatus (walletStore w) = needs_password ->
  let network := initWalletNetwork (walletStore w) in
  let r := loadStoredWallet now w in
  match sessionStorage w !! MNEMONIC_STORAGE_KEY,
        sessionStorage w !! SEED_STORAGE_KEY with
  | Some ((_ :: _) as cached), _ =>
      effects r.2 = effects w ++ [SdkInitialize cached network]
  | _, Some ((_ :: _) as seed) =>
      effects r.2 = effects w ++ [SdkInitialize seed network]
  | _, _ =>
      match (getSessionMnemonic now w).1 with
      | Ok (Some ((_ :: _) as secret)) =>
          effects r.2 = effects w ++ [SdkInitialize secret network]
      | Ok _ =>
          effects r.2 = effects w
          /\ r.1 = Ok (if truthy (encryptedMnemonic (mnemonicStore w))
                       then needs_password else no_wallet)
      | Throw _ => effects r.2 = effects w /\ r.1 = Ok error
      end
  end.
Proof.
  intros Hstatus network r. subst r. unfold loadStoredWallet.
  rewrite bind_run. unfold status, sessionStorage_getItem, gets.
  cbn beta iota.
  assert (bool_decide (initializationStatus (walletStore w) <> idle)
          && bool_decide (initializationStatus (walletStore w) <> needs_password)
          = false) as ->.
  { destruct Hstatus as [-> | ->]; by vm_compute. }
  rewrite bind_run.
  assert (exists s1,
            (if bool_decide (initializationStatus (walletStore w) = idle)
             then setInitializationStatus loading None else mret ()) w
            = (Ok (), with_walletStore s1 w)
            /\ initWalletNetwork s1 = network
            /\ initializationStatus s1 <> error) as (s1 & -> & Hnet & Hs1).
  { case_bool_decide as Hidle.
    - eexists. split; [reflexivity|]. by split.
    - exists (walletStore w). split; [by destruct w|]. split; [done|].
      destruct Hstatus; congruence. }
  set (w1 := with_walletStore s1 w).
  assert (Hgs : (getSessionMnemonic now w1).1 = (getSessionMnemonic now w).1)
    by by apply getSessionMnemonic_store.
  pose proof (getSessionMnemonic_pure now w1) as Hpure.
  rewrite !bind_run.
  change (sessionStorage w1) with (sessionStorage w).
  destruct (sessionStorage w !! MNEMONIC_STORAGE_KEY) as [[|c cached]|];
    [|by eapply opened_with; [exact Hnet|reflexivity|apply initWallet_frame]|];
    (destruct (sessionStorage w !! SEED_STORAGE_KEY) as [[|d seed]|];
     [|by eapply opened_with;
          [exact Hnet|reflexivity|apply initWalletFromSeed_frame]|]).
  all: rewrite <- Hgs; unfold try_catch; rewrite bind_run;
    destruct (getSessionMnemonic now w1) as [[[[|e secret]|]|err] w2];
    cbn [fst snd] in Hpure |- *; subst w2.
  all: try (by eapply opened_with;
                 [exact Hnet|reflexivity|apply initWallet_frame]).
  all: try (rewrite bind_run;
    change (mnemonicStore w1) with (mnemonicStore w);
    by destruct (truthy (encryptedMnemonic (mnemonicStore w)))).
  all: rewrite bind_run; rewrite bool_decide_eq_true_2 by done; done.
Qed.

(** C5 (amended). A cycle of the deposit polling sends no signal to the
    balance effect, whether it claimed something or not: all it does to
    the outside are the calls [getLatestDepositTxId] and [claimDeposit],
    and it leaves the stored balances as they were. (The balance is
    refreshed when the ledger client emits [deposit:confirmed] or
    [transfer:claimed].) *)
Theorem l1Deposit_sends_no_refresh_signal (ledger : Ledger) (w : World) :
  let w' := (l1Deposit ledger w).2 in
  (exists calls,
     effects w' = effects w ++ calls /\ forallb isClaimCall calls = true)
  /\ btcBalance (walletStore w') = btcBalance (walletStore w)
  /\ tokenBalances (walletStore w') = tokenBalances (walletStore w).
Proof.
  rewrite l1Deposit_run.
  destruct (wallet (walletStore w)) as [opened|]; cbn zeta.
  2:{ split; [|done]. exists []. by rewrite app_nil_r. }
  assert (Hcalls : exists calls,
            effects (afterCalls ledger w) = effects w ++ calls
            /\ forallb isClaimCall calls = true).
  { eexists. split; [reflexivity|]. apply cycleCalls_claim. }
  destruct (firstRejection _); [done|]. cbn [snd].
  by destruct (_ || _).
Qed.

(** C6. When [startSession] throws because the vault does not open (a
    wrong password, an envelope that does not decode, no vault), it throws
    the error of [getDecryptedMnemonic] and the world is exactly as before
    the call: the session key, its expiry, the session envelope, and
    everything else. Its only other throw is the [RangeError] of sealing
    the phrase for the session, and then too nothing differs from before
    the call but the entropy drawn. *)
Theorem startSession_failure_keeps_state {engine : Engine} {crypto : WebCrypto}
    (password : jsstring) (now : Z) (w w' : World) (e : exn) :
  startSession password now w = (Throw e, w') ->
  match (getDecryptedMnemonic password w).1 with
  | Throw e0 => e = e0 /\ w' = w
  | Ok _ => e = RangeError RangeError_message /\ w' = with_rng (rng w') w
  end.
Proof.
  rewrite startSession_run.
  destruct (getDecryptedMnemonic password w) as [[mnemonic|e'] w0];
    cbn [fst].
  - cbv zeta. destruct (spreads _); [done|].
    intros Heq. split; [congruence|].
    apply (f_equal snd) in Heq. cbn [snd] in Heq. by subst w'.
  - intros Heq. split; congruence.
Qed.

(** C7 (amended). A call of [handleBalanceUpdate] with a previous balance
    in the store. When it runs through (the effect is mounted and has its
    wallet, the fetch returns, and the effect is still mounted then): if
    the fetched balance is greater, exactly one "Funds Received" toast is
    shown, and it carries the difference; if it is less or equal, none is
    shown; and the fetched balance is stored. When the cleanup of the
    effect ran before the fetch returned, or the fetch failed, or the call
    returned at its first check, no toast is shown whatever the balance,
    and the store keeps the previous one. *)
Theorem funds_received_notification (w : World)
    (mountedBefore mountedAfter : bool) (hookWallet : option SparkWallet)
    (eventType : string) (eventId : option string) (hint : option Z)
    (response : result (option Balance)) (previous : Z) :
  btcBalance (walletStore w) = Some previous ->
  let w' := (handleBalanceUpdate mountedBefore mountedAfter hookWallet
               eventType eventId hint response w).2 in
  let through :=
    mountedBefore && bool_decide (is_Some hookWallet) && mountedAfter in
  toasts (effects w') =
  toasts (effects w) ++
  match response with
  | Ok currentBalance =>
      let new := fetchedBalance currentBalance in
      if through && (previous <? new)%Z then [(new - previous)%Z] else []
  | Throw _ => []
  end
  /\ btcBalance (walletStore w') =
     match response with
     | Ok currentBalance =>
         if through then Some (fetchedBalance currentBalance)
         else Some previous
     | Throw _ => Some previous
     end.
Proof.
  intros Hprev w'. subst w'. unfold handleBalanceUpdate.
  rewrite bind_run, handleBalanceUpdate_begin_run.
  destruct (mountedBefore && bool_decide (is_Some hookWallet)) eqn:Estart.
  2:{ cbn [snd andb]. destruct response; by rewrite app_nil_r. }
  set (run := {| eventType := eventType; eventId := eventId;
                 balanceFromEvent := hint;
                 previousBtcBalance := btcBalance (walletStore w) |}).
  set (w1 := (perform SdkGetBalance w).2).
  assert (Hw1 : toasts (effects w1) = toasts (effects w)).
  { subst w1. unfold perform, performAll, modify. cbn [snd effects].
    rewrite toasts_app. cbn [toasts omap]. by rewrite app_nil_r. }
  assert (Hb1 : btcBalance (walletStore w1) = Some previous) by done.
  destruct response as [currentBalance|e], mountedAfter; cbn [andb].
  - destruct (handleBalanceUpdate_resume_run run currentBalance w1)
      as [-> ->].
    cbn [run previousBtcBalance]. by rewrite Hprev, Hw1.
  - rewrite handleBalanceUpdate_resume_cut by by left.
    cbn [snd]. by rewrite Hw1, app_nil_r.
  - rewrite handleBalanceUpdate_resume_cut by (right; eauto).
    cbn [snd]. by rewrite Hw1, app_nil_r.
  - rewrite handleBalanceUpdate_resume_cut by by left.
    cbn [snd]. by rewrite Hw1, app_nil_r.
Qed.

(** C9 (amended). Runs of [handleBalanceUpdate] are not serialized. Every
    trigger of the mounted effect starts a run of its own at once, however
    many are already waiting for their fetch: the run reads the stored
    balance, calls [getBalance] and joins the runs in flight. When the
    fetch of a run returns, the run compares the answer with the balance it
    read at its start, whatever the store holds by then. *)
Theorem reconciliation_not_serialized (r : Reconciler) (w : World)
    (eventType : string) (eventId : option string) (hint : option Z) :
  isMounted r = true -> is_Some (hookWallet r) ->
  let started := reconcilerStep (Trigger eventType eventId hint) r w in
  started.1 =
    Ok {| isMounted := true; hookWallet := hookWallet r;
          inFlight := inFlight r ++
            [{| eventType := eventType; eventId := eventId;
                balanceFromEvent := hint;
                previousBtcBalance := btcBalance (walletStore w) |}] |}
  /\ effects started.2 = effects w ++ [SdkGetBalance]
  /\ forall i run currentBalance,
       inFlight r !! i = Some run ->
       toasts (effects (reconcilerStep (Settle i (Ok currentBalance)) r w).2)
       = toasts (effects w) ++
         match previousBtcBalance run with
         | Some previous =>
             if (previous <? fetchedBalance currentBalance)%Z
             then [(fetchedBalance currentBalance - previous)%Z] else []
         | None => []
         end.
Proof.
  intros Hmounted Hwallet started. subst started.
  unfold reconcilerStep at 1 2. rewrite !bind_run.
  rewrite handleBalanceUpdate_begin_run, Hmounted.
  rewrite bool_decide_eq_true_2 by done. cbn [andb].
  split; [done|]. split; [done|].
  intros i run currentBalance Hrun. unfold reconcilerStep. rewrite Hrun.
  rewrite bind_run, Hmounted.
  destruct (handleBalanceUpdate_resume_run run currentBalance w) as [_ Ht].
  by destruct (handleBalanceUpdate_resume true run (Ok currentBalance) w)
    as [[[]|] w'].
Qed.


(** * The claims on concrete data *)

Module Scenarios.
Import Standin StandinFacts.

(** C1, at a twelve-word-style phrase and the password [hunter22]. *)
Lemma vault_round_trip_witness :
  let S := js "abandon ability able about above absent" in
  let P := js "hunter22" in
  Utf16.well_formed S = true /\ has_bom S = false
  /\ spreads (sealed S P rng0) = true
  /\ exists envelope,
       (encryptMnemonic S P rng0).1 = Ok envelope
       /\ decryptMnemonic envelope P = Ok S.
Proof.
  intros S P.
  split; [reflexivity|]. split; [reflexivity|]. split; [reflexivity|].
  exact (vault_round_trip (laws := laws) S P rng0 eq_refl eq_refl).
Defined.

(** C1 as stated fails in three ways. A phrase that starts with U+FEFF
    comes back without it, because [TextDecoder] drops a leading byte
    order mark. An unpaired surrogate comes back as U+FFFD, which
    [TextEncoder] put in its place. And a phrase that is too long for the
    arguments of one call is not sealed at all: [encryptMnemonic] throws. *)
Lemma round_trip_breaks :
  (let S := (0xFEFF :: js "abandon")%N in
   exists envelope,
     (encryptMnemonic S (js "hunter22") rng0).1 = Ok envelope
     /\ decryptMnemonic envelope (js "hunter22") = Ok (js "abandon")
     /\ decryptMnemonic envelope (js "hunter22") <> Ok S)
  /\ (let S := [0xD800%N] in
      exists envelope,
        (encryptMnemonic S (js "hunter22") rng0).1 = Ok envelope
        /\ decryptMnemonic envelope (js "hunter22") = Ok [0xFFFD%N]
        /\ decryptMnemonic envelope (js "hunter22") <> Ok S)
  /\ (encryptMnemonic longPhrase (js "hunter22") rng0).1
     = Throw (RangeError "Maximum call stack size exceeded").
Proof.
  split; [|split].
  - eexists. split; [vm_compute; reflexivity|].
    split; [vm_compute; reflexivity|]. vm_compute. discriminate.
  - eexists. split; [vm_compute; reflexivity|].
    split; [vm_compute; reflexivity|]. vm_compute. discriminate.
  - vm_compute. reflexivity.
Qed.

(** C2, on the device unlocked at time 1000. *)
Lemma session_survives_restart_witness :
  (0 <= 1000)%Z
  /\ startSession (js "hunter22") 1000 vaultWorld = (Ok tt, unlockedWorld)
  /\ exists mnemonic,
       getDecryptedMnemonic (js "hunter22") vaultWorld
       = (Ok mnemonic, vaultWorld)
       /\ forall t,
            (getSessionMnemonic t (restart unlockedWorld)).1 =
            if (t <? 1000 + 1800000)%Z
            then Ok (Some (TextDecoder_decode (TextEncoder_encode mnemonic)))
            else Ok None.
Proof.
  assert (H : startSession (js "hunter22") 1000 vaultWorld
              = (Ok tt, unlockedWorld)) by (vm_compute; reflexivity).
  split; [lia|]. split; [exact H|].
  apply (session_survives_restart (laws := laws) _ 1000 _ _); [lia|exact H].
Defined.

(** C2 as stated fails: after unlocking at time 1000 and a full restart
    ([sessionStorage] is empty, memory is fresh), the recovery phrase is
    handed out at time 2000 with no password entered. *)
Lemma session_obtainable_after_restart :
  startSession (js "hunter22") 1000 vaultWorld = (Ok tt, unlockedWorld)
  /\ sessionStorage (restart unlockedWorld) = ∅
  /\ (getSessionMnemonic 2000 (restart unlockedWorld)).1
     = Ok (Some (js "abandon ability able")).
Proof.
  split; [vm_compute; reflexivity|]. split; [reflexivity|].
  vm_compute. reflexivity.
Qed.


(** The wrong password and a flipped ciphertext bit give the same error. *)
Example wrong_password_and_tampering :
  exists envelope,
    (encryptMnemonic (js "abandon") (js "hunter22") rng0).1 = Ok envelope
    /\ decryptMnemonic envelope (js "hunter23")
       = Throw (Error "Invalid password")
    /\ decryptMnemonic (<[40%nat := 66%N]> envelope) (js "hunter22")
       = Throw (Error "Invalid password").
Proof.
  eexists. split; [vm_compute; reflexivity|].
  split; vm_compute; reflexivity.
Qed.

(** C4, on the unlocked device with a cached seed. *)
Lemma loadStoredWallet_priority_witness :
  (initializationStatus (walletStore seededWorld) = idle
   \/ initializationStatus (walletStore seededWorld) = needs_password)
  /\ effects (loadStoredWallet 2000 seededWorld).2
     = effects seededWorld ++ [SdkInitialize (js "5eed") "MAINNET"].
Proof.
  split; [left; reflexivity|].
  pose proof (loadStoredWallet_priority 2000 seededWorld
                (or_introl eq_refl)) as H.
  vm_compute in H. vm_compute. exact H.
Defined.

(** C4 as stated fails: with a valid session and a cached seed, the wallet
    is opened with the seed, not with the session secret. *)
Lemma seed_before_session :
  (getSessionMnemonic 2000 seededWorld).1
  = Ok (Some (js "abandon ability able"))
  /\ sessionStorage seededWorld !! SEED_STORAGE_KEY = Some (js "5eed")
  /\ effects (loadStoredWallet 2000 seededWorld).2
     = [SdkInitialize (js "5eed") "MAINNET"].
Proof. repeat split; vm_compute; reflexivity. Qed.

(** The three outcomes without a cached secret: a valid session opens the
    wallet, an expired one asks for the password, and a device without a
    vault has no wallet. *)
Example loadStoredWallet_outcomes :
  (loadStoredWallet 2000 unlockedWorld).1 = Ok success
  /\ (loadStoredWallet 1801000 unlockedWorld).1 = Ok needs_password
  /\ (loadStoredWallet 2000 vaultWorld).1 = Ok needs_password
  /\ (loadStoredWallet 2000 (initialWorld rng0)).1 = Ok no_wallet.
Proof. repeat split; vm_compute; reflexivity. Qed.

(** C5 as stated fails: a cycle that claims the deposit under [bc1qb]
    returns [true], stops watching [bc1qb], and has done nothing else but
    the three calls below (the two queries first, then the claim); no
    balance is fetched and the stored balance stays 1000. *)
Lemma claim_without_refresh_signal :
  (l1Deposit singleLedger openWorld).1 = Ok (Some true)
  /\ effects (l1Deposit singleLedger openWorld).2
     = [SdkGetLatestDepositTxId "bc1qa"; SdkGetLatestDepositTxId "bc1qb";
        SdkClaimDeposit "tx-b"]
  /\ elements (onchainDepositAddresses
                 (walletStore (l1Deposit singleLedger openWorld).2))
     = ["bc1qa"]
  /\ btcBalance (walletStore (l1Deposit singleLedger openWorld).2)
     = Some 1000%Z.
Proof. repeat split; vm_compute; reflexivity. Qed.

(** A rejected claim is contained: the address stays, the other goes. *)
Example rejected_claim_is_contained :
  onchainDepositAddresses (walletStore (l1Deposit rejectingLedger openWorld).2)
  = {["bc1qa"]}.
Proof. vm_compute. reflexivity. Qed.

(** C6, with the wrong password [hunter23]. *)
Lemma startSession_failure_witness :
  exists e w',
    startSession (js "hunter23") 1000 vaultWorld = (Throw e, w')
    /\ e = Error "Invalid password" /\ w' = vaultWorld.
Proof.
  assert (H : startSession (js "hunter23") 1000 vaultWorld
              = (Throw (Error "Invalid password"), vaultWorld))
    by (vm_compute; reflexivity).
  eexists _, _. split; [exact H|].
  exact (startSession_failure_keeps_state _ _ _ _ _ H).
Defined.

(** C7, with 1000 in the store: a fetch of 1500 shows one toast of 500, a
    fetch of 800 shows none. *)
Lemma funds_received_witness :
  btcBalance (walletStore openWorld) = Some 1000%Z
  /\ toasts (effects (handleBalanceUpdate true true (Some wallet0)
                        "deposit:confirmed" (Some "d1") (Some 1500%Z)
                        (Ok balance1500) openWorld).2)
     = [500%Z]
  /\ toasts (effects (handleBalanceUpdate true true (Some wallet0)
                        "transfer:claimed" (Some "t1") None
                        (Ok balance800) openWorld).2)
     = [].
Proof.
  split; [reflexivity|]. split.
  - exact (proj1 (funds_received_notification openWorld true true
                    (Some wallet0) "deposit:confirmed" (Some "d1")
                    (Some 1500%Z) (Ok balance1500) 1000 eq_refl)).
  - exact (proj1 (funds_received_notification openWorld true true
                    (Some wallet0) "transfer:claimed" (Some "t1") None
                    (Ok balance800) 1000 eq_refl)).
Defined.

(** C7 as stated fails: with 1000 in the store, a run that fetches 1500
    shows no toast when the cleanup of the effect ran while the fetch was
    under way, and the store keeps 1000. *)
Lemma cleaned_up_run_shows_no_toast :
  let w' := (handleBalanceUpdate true false (Some wallet0)
               "deposit:confirmed" (Some "d1") (Some 1500%Z)
               (Ok balance1500) openWorld).2 in
  btcBalance (walletStore openWorld) = Some 1000%Z
  /\ fetchedBalance balance1500 = 1500%Z
  /\ effects w' = [SdkGetBalance]
  /\ toasts (effects w') = []
  /\ btcBalance (walletStore w') = Some 1000%Z.
Proof. repeat split; vm_compute; reflexivity. Qed.

(** C8 fails on the code: the query for [bc1qa] rejects, so the cycle
    rejects. The deposit under [bc1qb] was claimed all the same, but
    [bc1qb] is still watched afterwards. *)
Theorem query_failure_aborts_cycle :
  (l1Deposit partialLedger openWorld).1
  = Throw (Error "Network request failed")
  /\ effects (l1Deposit partialLedger openWorld).2
     = [SdkGetLatestDepositTxId "bc1qa"; SdkGetLatestDepositTxId "bc1qb";
        SdkClaimDeposit "tx-b"]
  /\ onchainDepositAddresses (walletStore (l1Deposit partialLedger openWorld).2)
     = {["bc1qa"; "bc1qb"]}.
Proof. repeat split; vm_compute; reflexivity. Qed.

(** C9, on the mounted effect with a balance of 1000 in the store. *)
Lemma reconciliation_not_serialized_witness :
  isMounted reconciler0 = true /\ is_Some (hookWallet reconciler0)
  /\ effects (reconcilerStep (Trigger "deposit:confirmed" (Some "d1") None)
                reconciler0 openWorld).2
     = [SdkGetBalance].
Proof.
  split; [reflexivity|]. split; [by eexists|].
  apply (reconciliation_not_serialized reconciler0 openWorld
           "deposit:confirmed" (Some "d1") None eq_refl).
  by eexists.
Defined.

(** C9 as stated fails: two triggers in a row put two runs in flight, both
    having read 1000; when both fetches return 1500, the second run
    compares 1500 with its stale 1000 although the store already holds
    1500, and the toast of 500 is shown twice. *)
Lemma two_runs_in_flight :
  let triggers :=
    [Trigger "deposit:confirmed" (Some "d1") (Some 1500%Z);
     Trigger "transfer:claimed" (Some "t1") (Some 1500%Z)] in
  let settles := [Settle 0 (Ok balance1500); Settle 0 (Ok balance1500)] in
  (exists r w,
     reconcilerRun triggers reconciler0 openWorld = (Ok r, w)
     /\ length (inFlight r) = 2)
  /\ (exists r w,
        reconcilerRun (triggers ++ settles) reconciler0 openWorld = (Ok r, w)
        /\ toasts (effects w) = [500%Z; 500%Z]
        /\ btcBalance (walletStore w) = Some 1500%Z).
Proof.
  split.
  - eexists _, _. split; [vm_compute; reflexivity|reflexivity].
  - eexists _, _. split; [vm_compute; reflexivity|]. split; reflexivity.
Qed.

End Scenarios.

(** C3 on the stand-in that rejects under every other key: what was
    sealed under [hunter22] does not open under [hunter23]. *)
Module CommittingScenario.
Import Committing CommittingFacts.
#[local] Existing Instance Standin.engine.

End CommittingScenario.

(** * The rest of the stores, and the pages *)

(** ** Opening a wallet, run *)

Section OpenFacts.
Context {engine : Engine} {crypto : WebCrypto} {sdk : SparkSdk}.

(** [openWallet], run: the first call that throws ends it, with the
    store as far as it got. *)
Lemma openWallet_run secret network w :
  openWallet secret network w =
  let w0 := (perform (SdkInitialize secret network) w).2 in
  match SparkWallet_initialize secret network with
  | Throw e => (Throw e, w0)
  | Ok opened =>
      let w1 := (set_walletStore (withWallet opened) w0).2 in
      match getSparkAddress opened with
      | Throw e => (Throw e, w1)
      | Ok address =>
          let w2 := (setSparkAddress address w1).2 in
          match getIdentityPublicKey opened with
          | Throw e => (Throw e, w2)
          | Ok key =>
              let w3 := (setPubkey key w2).2 in
              match getUnusedDepositAddresses opened with
              | Throw e => (Throw e, w3)
              | Ok unused =>
                  (Ok tt, (setOnchainDepositAddresses (list_to_set unused) w3).2)
              end
          end
      end
  end.
Proof.
  unfold openWallet. run_store.
  destruct (SparkWallet_initialize secret network) as [opened|e]; [|done].
  run_store.
  destruct (getSparkAddress opened) as [address|e]; [|done]. run_store.
  destruct (getIdentityPublicKey opened) as [key|e]; [|done]. run_store.
  by destruct (getUnusedDepositAddresses opened) as [unused|e].
Qed.

(** [initWallet] and [initWalletFromSeed], run. *)
Lemma initWallet_run mnemonic w :
  initWallet mnemonic w =
  (Ok tt,
   match openWallet mnemonic (initWalletNetwork (walletStore w)) w with
   | (Ok _, w1) =>
       (setInitializationStatus success None
          (set_walletStore (withMnemonic mnemonic)
             (sessionStorage_setItem MNEMONIC_STORAGE_KEY mnemonic w1).2).2).2
   | (Throw e, w1) =>
       (setInitializationStatus error
          (Some (message_or e "Initialization failed")) w1).2
   end).
Proof.
  unfold initWallet. rewrite bind_run. unfold gets at 1. cbn beta iota.
  unfold try_catch. rewrite bind_run.
  by destruct (openWallet _ _ w) as [[[]|e] w1].
Qed.

Lemma initWalletFromSeed_run seed w :
  initWalletFromSeed seed w =
  (Ok tt,
   match openWallet seed (initWalletNetwork (walletStore w)) w with
   | (Ok _, w1) =>
       (setInitializationStatus success None
          (sessionStorage_setItem SEED_STORAGE_KEY seed w1).2).2
   | (Throw e, w1) =>
       (setInitializationStatus error
          (Some (message_or e "Initialization from seed failed")) w1).2
   end).
Proof.
  unfold initWalletFromSeed. rewrite bind_run. unfold gets at 1. cbn beta iota.
  unfold try_catch. rewrite bind_run.
  by destruct (openWallet _ _ w) as [[[]|e] w1].
Qed.
End OpenFacts.

Section LoadFacts.
Context {engine : Engine} {crypto : WebCrypto} {sdk : SparkSdk}.

(** [loadStoredWallet], run. *)
Lemma loadStoredWallet_run now w :
  loadStoredWallet now w =
  let s := initializationStatus (walletStore w) in
  if bool_decide (s <> idle) && bool_decide (s <> needs_password)
  then (Ok s, w)
  else
    let w1 :=
      if bool_decide (s = idle)
      then (setInitializationStatus loading None w).2 else w in
    let w' :=
      match sessionStorage w !! MNEMONIC_STORAGE_KEY,
            sessionStorage w !! SEED_STORAGE_KEY with
      | Some ((_ :: _) as cached), _ => (initWallet cached w1).2
      | _, Some ((_ :: _) as seed) => (initWalletFromSeed seed w1).2
      | _, _ =>
          match (getSessionMnemonic now w).1 with
          | Ok (Some ((_ :: _) as secret)) => (initWallet secret w1).2
          | Ok _ =>
              (setInitializationStatus
                 (if truthy (encryptedMnemonic (mnemonicStore w))
                  then needs_password else no_wallet) None w1).2
          | Throw e =>
              (setInitializationStatus error
                 (Some (message_or e "Loading failed")) w1).2
          end
      end in
    (Ok (initializationStatus (walletStore w')), w').
Proof.
  unfold loadStoredWallet. rewrite bind_run. unfold status at 1, gets at 1.
  cbn beta iota zeta.
  destruct (bool_decide _ && bool_decide _) eqn:Eskip; [done|].
  rewrite bind_run.
  set (w1 := if bool_decide (initializationStatus (walletStore w) = idle)
             then (setInitializationStatus loading None w).2 else w).
  assert ((if bool_decide (initializationStatus (walletStore w) = idle)
           then setInitializationStatus loading None else mret ()) w
          = (Ok (), w1)) as ->.
  { subst w1. by destruct (bool_decide (_ = idle)). }
  assert (Hss : sessionStorage w1 = sessionStorage w).
  { subst w1. by destruct (bool_decide (_ = idle)). }
  assert (Hms : mnemonicStore w1 = mnemonicStore w).
  { subst w1. by destruct (bool_decide (_ = idle)). }
  assert (Hne : initializationStatus (walletStore w1) <> error).
  { subst w1. destruct (bool_decide (_ = idle)); [done|].
    intros Herr. rewrite Herr in Eskip. done. }
  assert (Hgs : (getSessionMnemonic now w1).1 = (getSessionMnemonic now w).1)
    by by apply getSessionMnemonic_store.
  pose proof (getSessionMnemonic_pure now w1) as Hpure.
  clearbody w1.
  unfold sessionStorage_getItem, status. run. cbn beta. rewrite Hss.
  destruct (sessionStorage w !! MNEMONIC_STORAGE_KEY) as [[|c cached]|];
    [|by rewrite initWallet_run|];
    (destruct (sessionStorage w !! SEED_STORAGE_KEY) as [[|d seed]|];
     [|by rewrite initWalletFromSeed_run|]).
  all: rewrite <- Hgs;
    destruct (getSessionMnemonic now w1) as [[[[|e secret]|]|err] w2];
    cbn [fst snd] in Hpure |- *; subst w2.
  all: try (by rewrite initWallet_run).
  all: try (rewrite Hms;
            by destruct (truthy (encryptedMnemonic (mnemonicStore w)))).
  all: by rewrite bool_decide_eq_true_2 by done.
Qed.
End LoadFacts.

(** ** The mnemonic store, run *)

Section VaultStoreFacts.
Context {engine : Engine} {crypto : WebCrypto}.

Lemma getDecryptedMnemonic_found password w envelope :
  encryptedMnemonic (mnemonicStore w) = Some envelope ->
  truthy (Some envelope) = true ->
  getDecryptedMnemonic password w = (decryptMnemonic envelope password, w).
Proof.
  intros He Ht. unfold getDecryptedMnemonic. run. rewrite He.
  by destruct envelope.
Qed.

Lemma getDecryptedMnemonic_missing password w :
  truthy (encryptedMnemonic (mnemonicStore w)) = false ->
  getDecryptedMnemonic password w
  = (Throw (Error "No encrypted mnemonic found"), w).
Proof.
  intros Ht. unfold getDecryptedMnemonic. run.
  by destruct (encryptedMnemonic (mnemonicStore w)) as [[|]|].
Qed.

Lemma saveEncryptedMnemonic_run mnemonic password w :
  saveEncryptedMnemonic mnemonic password w =
  let s :=
    {| encryptedMnemonic :=
         Some (Base64.encode
                 (String_fromCharCode (sealed mnemonic password (rng w))));
       sessionEncryptedMnemonic := sessionEncryptedMnemonic (mnemonicStore w);
       session := session (mnemonicStore w) |} in
  let g2 := (getRandomValues 12 (getRandomValues 16 (rng w)).2).2 in
  if spreads (sealed mnemonic password (rng w))
  then
    (Ok tt,
     {| rng := g2;
        localStorage := <[PERSIST_NAME := s]> (localStorage w);
        sessionStorage := sessionStorage w; mnemonicStore := s;
        walletStore := walletStore w; effects := effects w |})
  else (Throw (RangeError RangeError_message), with_rng g2 w).
Proof.
  unfold saveEncryptedMnemonic. run. rewrite encryptMnemonic_run.
  cbn [fst snd]. destruct (spreads _); [|done].
  unfold set_mnemonicStore. by run.
Qed.

(** Without a session key there is no session secret. *)
Lemma getSessionMnemonic_no_key now w :
  sessionKey (session (mnemonicStore w)) = None ->
  getSessionMnemonic now w = (Ok None, w).
Proof. intros Hk. unfold getSessionMnemonic. run. by rewrite Hk. Qed.
End VaultStoreFacts.

(** ** lib/use-mnemonic-store *)

(** X1. A recovery phrase saved under a password is given back by
    [getDecryptedMnemonic] under that password, at once and after a
    restart of the application (the vault is in [localStorage]), for every
    phrase that is well formed, does not start with U+FEFF, and whose
    sealed bytes are no more than the arguments a call may have. A longer
    phrase is not saved: [saveEncryptedMnemonic] throws the [RangeError]
    and nothing has changed but the entropy drawn. *)
Theorem saved_phrase_is_recovered {engine : Engine} {crypto : WebCrypto}
    {laws : WebCryptoLaws crypto} (S P : jsstring) (w : World) :
  Utf16.well_formed S = true -> has_bom S = false ->
  let saved := saveEncryptedMnemonic S P w in
  if spreads (sealed S P (rng w))
  then
    saved.1 = Ok tt
    /\ getDecryptedMnemonic P saved.2 = (Ok S, saved.2)
    /\ getDecryptedMnemonic P (restart saved.2) = (Ok S, restart saved.2)
  else
    saved.1 = Throw (RangeError RangeError_message)
    /\ saved.2 = with_rng (rng saved.2) w.
Proof.
  intros Hwf Hbom saved. subst saved. rewrite saveEncryptedMnemonic_run.
  cbn zeta. destruct (spreads _); [|done].
  cbn [fst snd]. split; [done|].
  split.
  - erewrite getDecryptedMnemonic_found;
      [|reflexivity|apply sealed_envelope_truthy].
    by rewrite open_sealed, TextDecoder_decode_encode.
  - erewrite getDecryptedMnemonic_found;
      [| |apply (sealed_envelope_truthy S P (rng w))].
    + by rewrite open_sealed, TextDecoder_decode_encode.
    + unfold restart. cbn [mnemonicStore localStorage].
      by rewrite lookup_insert_eq.
Qed.

(** X2. [endSession] ends the session for good: whatever the store held,
    [getSessionMnemonic] yields nothing afterwards at any time, also after
    a restart, and the vault is as it was. *)
Theorem endSession_ends_session {engine : Engine} {crypto : WebCrypto} (w : World) :
  let w' := (endSession w).2 in
  (forall t, getSessionMnemonic t w' = (Ok None, w'))
  /\ (forall t, getSessionMnemonic t (restart w') = (Ok None, restart w'))
  /\ encryptedMnemonic (mnemonicStore w') = encryptedMnemonic (mnemonicStore w)
  /\ encryptedMnemonic (mnemonicStore (restart w'))
     = encryptedMnemonic (mnemonicStore w).
Proof.
  intros w'. subst w'. unfold endSession, set_mnemonicStore. run.
  split; [|split; [|split]].
  - intros t. by apply getSessionMnemonic_no_key.
  - intros t. apply getSessionMnemonic_no_key. unfold restart.
    cbn [mnemonicStore localStorage]. by rewrite lookup_insert_eq.
  - done.
  - unfold restart. cbn [mnemonicStore localStorage].
    by rewrite lookup_insert_eq.
Qed.

(** X3. After [clearEncryptedMnemonic] the device holds no vault and no
    session: [getDecryptedMnemonic] and [startSession] throw "No encrypted
    mnemonic found" under every password and change nothing, and
    [getSessionMnemonic] yields nothing; the same after a restart. *)
Theorem cleared_vault_is_gone {engine : Engine} {crypto : WebCrypto} (w : World) :
  let gone (w' : World) :=
    (forall password,
       getDecryptedMnemonic password w'
       = (Throw (Error "No encrypted mnemonic found"), w'))
    /\ (forall password now,
          startSession password now w'
          = (Throw (Error "No encrypted mnemonic found"), w'))
    /\ (forall t, getSessionMnemonic t w' = (Ok None, w')) in
  gone (clearEncryptedMnemonic w).2
  /\ gone (restart (clearEncryptedMnemonic w).2).
Proof.
  intros gone.
  assert (Hgone : forall w', mnemonicStore w' = initialMnemonicState -> gone w').
  { intros w' Hs.
    assert (Hd : forall password,
              getDecryptedMnemonic password w'
              = (Throw (Error "No encrypted mnemonic found"), w')).
    { intros password. apply getDecryptedMnemonic_missing. by rewrite Hs. }
    split; [done|]. split.
    - intros password now. by rewrite startSession_run, Hd.
    - intros t. apply getSessionMnemonic_no_key. by rewrite Hs. }
  split; apply Hgone; unfold clearEncryptedMnemonic, set_mnemonicStore; run;
    [done|].
  unfold restart. cbn [mnemonicStore localStorage].
  by rewrite lookup_insert_eq.
Qed.

(** ** lib/use-wallet-store: initialization *)

(** Reduce the projections of worlds and stores. *)
Ltac fields :=
  cbn [rng localStorage sessionStorage mnemonicStore walletStore effects
       with_rng with_sessionStorage with_walletStore
       wallet sparkAddress pubkey initWalletNetwork mnemonic isInitialized
       initializationStatus initializationError onchainDepositAddresses
       btcBalance tokenBalances withWallet withMnemonic fst snd] in *.

(** Run the setters through, then reduce. *)
Ltac run_all := repeat (progress run_store); fields.

Section InitFacts.
Context {engine : Engine} {crypto : WebCrypto} {sdk : SparkSdk}.

(** What [initWallet] leaves behind: it touches neither the entropy, nor
    [localStorage], nor the mnemonic store, nor the balances; it calls the
    ledger client once; and it ends either in [success], with a wallet in
    the store and the phrase cached, or in [error], with the cache and the
    stored phrase as they were. *)
Lemma initWallet_post secret w :
  let w' := (initWallet secret w).2 in
  let s := walletStore w in
  let s' := walletStore w' in
  rng w' = rng w /\ localStorage w' = localStorage w
  /\ mnemonicStore w' = mnemonicStore w
  /\ effects w' = effects w ++ [SdkInitialize secret (initWalletNetwork s)]
  /\ initWalletNetwork s' = initWalletNetwork s
  /\ btcBalance s' = btcBalance s /\ tokenBalances s' = tokenBalances s
  /\ ((initializationStatus s' = success /\ isInitialized s' = true
       /\ initializationError s' = None /\ is_Some (wallet s')
       /\ mnemonic s' = Some secret
       /\ sessionStorage w' = <[MNEMONIC_STORAGE_KEY := secret]> (sessionStorage w))
      \/ (initializationStatus s' = error /\ isInitialized s' = false
          /\ (exists e, initializationError s'
                        = Some (message_or e "Initialization failed"))
          /\ mnemonic s' = mnemonic s
          /\ sessionStorage w' = sessionStorage w)).
Proof.
  rewrite initWallet_run, openWallet_run. cbn zeta.
  destruct (SparkWallet_initialize _ _) as [opened|e];
    [destruct (getSparkAddress opened) as [address|e];
     [destruct (getIdentityPublicKey opened) as [key|e];
      [destruct (getUnusedDepositAddresses opened) as [unused|e]|]|]|].
  all: run_store; fields; split_and!; try done.
  1: left; split_and!; by try eexists.
  all: right; split_and!; by try eexists.
Qed.

Lemma initWalletFromSeed_post secret w :
  let w' := (initWalletFromSeed secret w).2 in
  let s := walletStore w in
  let s' := walletStore w' in
  rng w' = rng w /\ localStorage w' = localStorage w
  /\ mnemonicStore w' = mnemonicStore w
  /\ effects w' = effects w ++ [SdkInitialize secret (initWalletNetwork s)]
  /\ initWalletNetwork s' = initWalletNetwork s
  /\ btcBalance s' = btcBalance s /\ tokenBalances s' = tokenBalances s
  /\ mnemonic s' = mnemonic s
  /\ ((initializationStatus s' = success /\ isInitialized s' = true
       /\ initializationError s' = None /\ is_Some (wallet s')
       /\ sessionStorage w' = <[SEED_STORAGE_KEY := secret]> (sessionStorage w))
      \/ (initializationStatus s' = error /\ isInitialized s' = false
          /\ (exists e, initializationError s'
                        = Some (message_or e "Initialization from seed failed"))
          /\ sessionStorage w' = sessionStorage w)).
Proof.
  rewrite initWalletFromSeed_run, openWallet_run. cbn zeta.
  destruct (SparkWallet_initialize _ _) as [opened|e];
    [destruct (getSparkAddress opened) as [address|e];
     [destruct (getIdentityPublicKey opened) as [key|e];
      [destruct (getUnusedDepositAddresses opened) as [unused|e]|]|]|].
  all: run_store; fields; split_and!; try done.
  1: left; split_and!; by try eexists.
  all: right; split_and!; by try eexists.
Qed.
End InitFacts.

Section LoadCases.
Context {engine : Engine} {crypto : WebCrypto} {sdk : SparkSdk}.

(** The ways [loadStoredWallet] can go: it returns at once, or it ends
    with one wallet-open attempt or with one last status. *)
Lemma loadStoredWallet_cases now w :
  let s := initializationStatus (walletStore w) in
  let r := loadStoredWallet now w in
  (s <> idle /\ s <> needs_password /\ r = (Ok s, w))
  \/ ((s = idle \/ s = needs_password)
      /\ r.1 = Ok (initializationStatus (walletStore r.2))
      /\ exists w1,
           (w1 = w \/ w1 = (setInitializationStatus loading None w).2)
           /\ ((exists secret, r.2 = (initWallet secret w1).2)
               \/ (exists seed, r.2 = (initWalletFromSeed seed w1).2)
               \/ (exists st e,
                     r.2 = (setInitializationStatus st e w1).2
                     /\ (st = (if truthy (encryptedMnemonic (mnemonicStore w))
                               then needs_password else no_wallet)
                         \/ st = error)))).
Proof.
  cbn zeta. rewrite loadStoredWallet_run. cbn zeta.
  destruct (bool_decide (initializationStatus (walletStore w) <> idle)
            && bool_decide (initializationStatus (walletStore w) <> needs_password))
    eqn:Eskip.
  { left. apply andb_prop in Eskip as [E1 E2].
    apply bool_decide_eq_true in E1, E2. done. }
  right. split.
  { apply andb_false_iff in Eskip as [E|E]; apply bool_decide_eq_false in E;
      apply dec_stable in E; auto. }
  split; [done|]. cbn [snd].
  exists (if bool_decide (initializationStatus (walletStore w) = idle)
          then (setInitializationStatus loading None w).2 else w).
  split.
  { destruct (bool_decide (_ = idle)); [by right|by left]. }
  set (w1 := if bool_decide (_ = idle) then _ else w). clearbody w1.
  clear Eskip.
  destruct (sessionStorage w !! MNEMONIC_STORAGE_KEY) as [[|c cached]|];
    [|left; by exists (c :: cached)|];
    (destruct (sessionStorage w !! SEED_STORAGE_KEY) as [[|d seed]|];
     [|right; left; by exists (d :: seed)|]).
  all: destruct (getSessionMnemonic now w).1 as [[[|e secret]|]|err].
  all: lazymatch goal with
       | |- (exists secret, (initWallet ?m _).2 = _) \/ _ => left; by exists m
       | |- _ \/ _ \/ (exists st e, (setInitializationStatus ?st0 ?e0 _).2 = _ /\ _) =>
           right; right; exists st0, e0; split; [reflexivity|]
       end.
  all: try (by left).
  all: by right.
Qed.

(** What [loadStoredWallet] never touches, and the calls it makes. *)
Lemma loadStoredWallet_frame now w :
  let w' := (loadStoredWallet now w).2 in
  rng w' = rng w /\ localStorage w' = localStorage w
  /\ mnemonicStore w' = mnemonicStore w
  /\ initWalletNetwork (walletStore w') = initWalletNetwork (walletStore w)
  /\ btcBalance (walletStore w') = btcBalance (walletStore w)
  /\ tokenBalances (walletStore w') = tokenBalances (walletStore w)
  /\ (effects w' = effects w
      \/ exists secret,
           effects w' = effects w
                        ++ [SdkInitialize secret (initWalletNetwork (walletStore w))]).
Proof.
  cbn zeta.
  destruct (loadStoredWallet_cases now w)
    as [(_ & _ & ->)|(_ & _ & w1 & Hw1 & Hend)]; [cbn [snd]; split_and!; try done; by left|].
  assert (rng w1 = rng w /\ localStorage w1 = localStorage w
          /\ mnemonicStore w1 = mnemonicStore w
          /\ initWalletNetwork (walletStore w1) = initWalletNetwork (walletStore w)
          /\ btcBalance (walletStore w1) = btcBalance (walletStore w)
          /\ tokenBalances (walletStore w1) = tokenBalances (walletStore w)
          /\ effects w1 = effects w) as (R1 & R2 & R3 & R4 & R5 & R6 & R7).
  { destruct Hw1 as [-> | ->]; [done|]. run_store. fields. done. }
  destruct Hend as [[secret ->]|[[seed ->]|(st & e & -> & _)]].
  - destruct (initWallet_post secret w1) as (? & ? & ? & ? & ? & ? & ? & _).
    split_and!; try congruence. right. exists secret. congruence.
  - destruct (initWalletFromSeed_post seed w1) as (? & ? & ? & ? & ? & ? & ? & _).
    split_and!; try congruence. right. exists seed. congruence.
  - run_store. fields. split_and!; try done. by left.
Qed.

(** [loadStoredWallet] keeps the wallet store coherent. *)
Lemma loadStoredWallet_coherent now w :
  coherent w -> coherent (loadStoredWallet now w).2.
Proof.
  intros Hc.
  destruct (loadStoredWallet_cases now w)
    as [(_ & _ & ->)|(_ & _ & w1 & Hw1 & Hend)]; [done|].
  unfold coherent. cbn zeta.
  destruct Hend as [[secret ->]|[[seed ->]|(st & e & -> & Hst)]].
  - destruct (initWallet_post secret w1)
      as (_ & _ & _ & _ & _ & _ & _ & [(-> & -> & _ & ? & _ & ->)|(-> & -> & _)]);
      [|done].
    split; [done|]. intros _. split; [done|]. left.
    rewrite lookup_insert_eq. by eexists.
  - destruct (initWalletFromSeed_post seed w1)
      as (_ & _ & _ & _ & _ & _ & _ & _ & [(-> & -> & _ & ? & ->)|(-> & -> & _)]);
      [|done].
    split; [done|]. intros _. split; [done|]. right.
    rewrite lookup_insert_eq. by eexists.
  - run_store. fields.
    destruct Hst as [-> | ->]; [by destruct (truthy _)|done].
Qed.
End LoadCases.

(** ** lib/use-wallet-store: the store's actions *)


(** X6. [loadStoredWallet] never throws and returns the status it leaves in
    the store; it never writes the mnemonic store or [localStorage]. Called
    in [idle] or [needs_password] it ends in [success], [error],
    [needs_password] or [no_wallet], the last two telling whether an
    encrypted vault is stored. Called in any other status it does nothing
    at all. *)
Theorem loadStoredWallet_settles {engine : Engine} {crypto : WebCrypto} {sdk : SparkSdk}
    (now : Z) (w : World) :
  let s := initializationStatus (walletStore w) in
  let r := loadStoredWallet now w in
  let s' := initializationStatus (walletStore r.2) in
  r.1 = Ok s'
  /\ mnemonicStore r.2 = mnemonicStore w
  /\ localStorage r.2 = localStorage w
  /\ if bool_decide (s = idle) || bool_decide (s = needs_password)
     then (s' = success \/ s' = error \/ s' = needs_password \/ s' = no_wallet)
          /\ (s' = needs_password ->
              truthy (encryptedMnemonic (mnemonicStore w)) = true)
          /\ (s' = no_wallet ->
              truthy (encryptedMnemonic (mnemonicStore w)) = false)
     else r.2 = w.
Proof.
  cbn zeta.
  destruct (loadStoredWallet_frame now w) as (_ & Hls & Hms & _).
  split_and!; [|done|done|].
  { by destruct (loadStoredWallet_cases now w)
      as [(_ & _ & ->)|(_ & -> & _)]. }
  destruct (loadStoredWallet_cases now w)
    as [(H1 & H2 & ->)|([-> | ->] & _ & w1 & _ & Hend)].
  - by rewrite !bool_decide_eq_false_2 by done.
  - cbn [orb bool_decide decide_rel orb]. rewrite bool_decide_eq_true_2 by done.
    cbn [orb].
    destruct Hend as [[secret ->]|[[seed ->]|(st & e & -> & Hst)]].
    + destruct (initWallet_post secret w1)
        as (_ & _ & _ & _ & _ & _ & _ & [(-> & _)|(-> & _)]);
        by split_and!; auto.
    + destruct (initWalletFromSeed_post seed w1)
        as (_ & _ & _ & _ & _ & _ & _ & _ & [(-> & _)|(-> & _)]);
        by split_and!; auto.
    + run_store. fields.
      destruct Hst as [-> | ->]; [destruct (truthy _)|]; by split_and!; auto.
  - rewrite (bool_decide_eq_true_2 (needs_password = needs_password)) by done.
    rewrite orb_true_r.
    destruct Hend as [[secret ->]|[[seed ->]|(st & e & -> & Hst)]].
    + destruct (initWallet_post secret w1)
        as (_ & _ & _ & _ & _ & _ & _ & [(-> & _)|(-> & _)]);
        by split_and!; auto.
    + destruct (initWalletFromSeed_post seed w1)
        as (_ & _ & _ & _ & _ & _ & _ & _ & [(-> & _)|(-> & _)]);
        by split_and!; auto.
    + run_store. fields.
      destruct Hst as [-> | ->]; [destruct (truthy _)|]; by split_and!; auto.
Qed.

(** ** Reset, logout and reload *)

Section ResetFacts.
Context {engine : Engine} {crypto : WebCrypto} {sdk : SparkSdk}.

(** With no cached secret and no session, [loadStoredWallet] opens
    nothing: it tells whether a vault is stored. *)
Lemma loadStoredWallet_locked now w :
  initializationStatus (walletStore w) = idle
  \/ initializationStatus (walletStore w) = needs_password ->
  sessionStorage w !! MNEMONIC_STORAGE_KEY = None ->
  sessionStorage w !! SEED_STORAGE_KEY = None ->
  sessionKey (session (mnemonicStore w)) = None ->
  (loadStoredWallet now w).1
  = Ok (if truthy (encryptedMnemonic (mnemonicStore w))
        then needs_password else no_wallet)
  /\ effects (loadStoredWallet now w).2 = effects w.
Proof.
  intros Hs Hm Hseed Hkey. rewrite loadStoredWallet_run. cbn zeta.
  assert (bool_decide (initializationStatus (walletStore w) <> idle)
          && bool_decide (initializationStatus (walletStore w) <> needs_password)
          = false) as ->.
  { destruct Hs as [-> | ->]; by vm_compute. }
  rewrite Hm, Hseed, getSessionMnemonic_no_key by done. cbn [fst snd].
  destruct (truthy _); destruct (bool_decide (_ = idle)); by run_store.
Qed.

Lemma resetWallet_run w :
  resetWallet w =
  (Ok tt,
   {| rng := rng w;
      localStorage := delete STORAGE_KEY (localStorage w);
      sessionStorage :=
        delete STORAGE_KEY
          (delete SEED_STORAGE_KEY
             (delete MNEMONIC_STORAGE_KEY (sessionStorage w)));
      mnemonicStore := mnemonicStore w;
      walletStore :=
        {| wallet := None; sparkAddress := ""; pubkey := "";
           initWalletNetwork := initWalletNetwork (walletStore w);
           mnemonic := None; isInitialized := false;
           initializationStatus := idle; initializationError := None;
           onchainDepositAddresses := ∅; btcBalance := None;
           tokenBalances := ∅ |};
      effects := effects w |}).
Proof. done. Qed.

Lemma performReset_run w :
  performReset w =
  (Ok "/create",
   {| rng := rng w;
      localStorage :=
        <[PERSIST_NAME := initialMnemonicState]>
          (delete STORAGE_KEY (localStorage w));
      sessionStorage :=
        delete STORAGE_KEY
          (delete SEED_STORAGE_KEY
             (delete MNEMONIC_STORAGE_KEY (sessionStorage w)));
      mnemonicStore := initialMnemonicState;
      walletStore :=
        {| wallet := None; sparkAddress := ""; pubkey := "";
           initWalletNetwork := initWalletNetwork (walletStore w);
           mnemonic := None; isInitialized := false;
           initializationStatus := idle; initializationError := None;
           onchainDepositAddresses := ∅; btcBalance := None;
           tokenBalances := ∅ |};
      effects := effects w |}).
Proof. done. Qed.

Lemma handleLogout_run w :
  handleLogout w =
  let s :=
    {| encryptedMnemonic := encryptedMnemonic (mnemonicStore w);
       sessionEncryptedMnemonic := None;
       session := {| sessionKey := None; expiresAt := None |} |} in
  (Ok (Some "/unlock"),
   {| rng := rng w;
      localStorage := <[PERSIST_NAME := s]> (localStorage w);
      sessionStorage :=
        delete SEED_STORAGE_KEY
          (delete MNEMONIC_STORAGE_KEY (sessionStorage w));
      mnemonicStore := s;
      walletStore :=
        {| wallet := wallet (walletStore w);
           sparkAddress := sparkAddress (walletStore w);
           pubkey := pubkey (walletStore w);
           initWalletNetwork := initWalletNetwork (walletStore w);
           mnemonic := mnemonic (walletStore w); isInitialized := false;
           initializationStatus := needs_password;
           initializationError := None;
           onchainDepositAddresses := onchainDepositAddresses (walletStore w);
           btcBalance := btcBalance (walletStore w);
           tokenBalances := tokenBalances (walletStore w) |};
      effects := effects w |}).
Proof. done. Qed.

Lemma secrets_deleted (m : gmap string jsstring) :
  let m' := delete SEED_STORAGE_KEY (delete MNEMONIC_STORAGE_KEY m) in
  m' !! MNEMONIC_STORAGE_KEY = None /\ m' !! SEED_STORAGE_KEY = None.
Proof.
  cbn zeta. split.
  - rewrite lookup_delete_ne by done. apply lookup_delete_eq.
  - apply lookup_delete_eq.
Qed.
End ResetFacts.

(** X8. The reset of the unlock page and of the settings page: the wallet
    store is as at the start except for the network, which is kept; the
    mnemonic store is empty, in memory and in [localStorage]; the cached
    secrets are gone from [sessionStorage], while a phrase waiting there
    under [pending_mnemonic] stays. From then on [loadStoredWallet] finds
    no wallet and calls the ledger client not once, at once, after a
    reload and after a restart. *)
Theorem reset_leaves_no_wallet {engine : Engine} {crypto : WebCrypto} {sdk : SparkSdk}
    (w : World) :
  let w' := (performReset w).2 in
  (performReset w).1 = Ok "/create"
  /\ handleResetWallet w = (Ok (Some "/create"), w')
  /\ walletStore w'
     = {| wallet := None; sparkAddress := ""; pubkey := "";
          initWalletNetwork := initWalletNetwork (walletStore w);
          mnemonic := None; isInitialized := false;
          initializationStatus := idle; initializationError := None;
          onchainDepositAddresses := ∅; btcBalance := None;
          tokenBalances := ∅ |}
  /\ mnemonicStore w' = initialMnemonicState
  /\ localStorage w' !! PERSIST_NAME = Some initialMnemonicState
  /\ sessionStorage w' !! MNEMONIC_STORAGE_KEY = None
  /\ sessionStorage w' !! SEED_STORAGE_KEY = None
  /\ sessionStorage w' !! PENDING_MNEMONIC = sessionStorage w !! PENDING_MNEMONIC
  /\ forall now,
       let finds_none (w'' : World) :=
         (loadStoredWallet now w'').1 = Ok no_wallet
         /\ effects (loadStoredWallet now w'').2 = effects w in
       finds_none w' /\ finds_none (reload w') /\ finds_none (restart w').
Proof.
  cbn zeta. rewrite performReset_run. cbn [fst snd].
  assert (Hm : forall m : gmap string jsstring,
            delete STORAGE_KEY
              (delete SEED_STORAGE_KEY (delete MNEMONIC_STORAGE_KEY m))
            !! MNEMONIC_STORAGE_KEY = None
            /\ delete STORAGE_KEY
                 (delete SEED_STORAGE_KEY (delete MNEMONIC_STORAGE_KEY m))
               !! SEED_STORAGE_KEY = None).
  { intros m. rewrite !(lookup_delete_ne _ STORAGE_KEY) by done.
    apply secrets_deleted. }
  split_and!; try done.
  - fields. apply lookup_insert_eq.
  - fields. apply Hm.
  - fields. apply Hm.
  - fields. by rewrite !lookup_delete_ne by done.
  - intros now.
    assert (Hnone : forall w'',
              initializationStatus (walletStore w'') = idle ->
              sessionStorage w'' !! MNEMONIC_STORAGE_KEY = None ->
              sessionStorage w'' !! SEED_STORAGE_KEY = None ->
              mnemonicStore w'' = initialMnemonicState ->
              effects w'' = effects w ->
              (loadStoredWallet now w'').1 = Ok no_wallet
              /\ effects (loadStoredWallet now w'').2 = effects w).
    { intros w'' Hst H1 H2 H3 H4.
      destruct (loadStoredWallet_locked now w'') as [-> ->];
        rewrite ?H3; auto. }
    split_and!; apply Hnone; unfold reload, restart; fields;
      rewrite ?lookup_insert_eq, ?lookup_empty; try done; apply Hm.
Qed.

(** X9. Logging out: the session is gone from the mnemonic store and the
    cached secrets from [sessionStorage], so nothing on the device yields
    the phrase without the password any more: [getSessionMnemonic] gives
    nothing, and [loadStoredWallet] calls the ledger client not once and
    asks for the password if a vault is stored, at once, after a reload
    and after a restart. The wallet object, the plain phrase and the
    balance that the wallet store holds in memory are left where they
    are. *)
Theorem logout_locks_the_wallet {engine : Engine} {crypto : WebCrypto} {sdk : SparkSdk}
    (w : World) :
  let w' := (handleLogout w).2 in
  (handleLogout w).1 = Ok (Some "/unlock")
  /\ initializationStatus (walletStore w') = needs_password
  /\ isInitialized (walletStore w') = false
  /\ sessionStorage w' !! MNEMONIC_STORAGE_KEY = None
  /\ sessionStorage w' !! SEED_STORAGE_KEY = None
  /\ encryptedMnemonic (mnemonicStore w') = encryptedMnemonic (mnemonicStore w)
  /\ wallet (walletStore w') = wallet (walletStore w)
  /\ mnemonic (walletStore w') = mnemonic (walletStore w)
  /\ btcBalance (walletStore w') = btcBalance (walletStore w)
  /\ forall now,
       let locked (w'' : World) :=
         getSessionMnemonic now w'' = (Ok None, w'')
         /\ (loadStoredWallet now w'').1
            = Ok (if truthy (encryptedMnemonic (mnemonicStore w))
                  then needs_password else no_wallet)
         /\ effects (loadStoredWallet now w'').2 = effects w in
       locked w' /\ locked (reload w') /\ locked (restart w').
Proof.
  cbn zeta. rewrite handleLogout_run. cbn zeta. cbn [fst snd].
  pose proof (secrets_deleted (sessionStorage w)) as [Hm Hseed].
  split_and!; try done.
  intros now.
  assert (Hlocked : forall w'',
            initializationStatus (walletStore w'') = idle
            \/ initializationStatus (walletStore w'') = needs_password ->
            sessionStorage w'' !! MNEMONIC_STORAGE_KEY = None ->
            sessionStorage w'' !! SEED_STORAGE_KEY = None ->
            mnemonicStore w''
            = {| encryptedMnemonic := encryptedMnemonic (mnemonicStore w);
                 sessionEncryptedMnemonic := None;
                 session := {| sessionKey := None; expiresAt := None |} |} ->
            effects w'' = effects w ->
            getSessionMnemonic now w'' = (Ok None, w'')
            /\ (loadStoredWallet now w'').1
               = Ok (if truthy (encryptedMnemonic (mnemonicStore w))
                     then needs_password else no_wallet)
            /\ effects (loadStoredWallet now w'').2 = effects w).
  { intros w'' Hst H1 H2 H3 H4.
    assert (Hk : sessionKey (session (mnemonicStore w'')) = None)
      by by rewrite H3.
    destruct (loadStoredWallet_locked now w'') as [-> ->]; auto.
    rewrite getSessionMnemonic_no_key, H3 by done. by split_and!. }
  split_and!; apply Hlocked; unfold reload, restart; fields;
    rewrite ?lookup_insert_eq, ?lookup_empty; auto.
Qed.

(** X7. The phrase that [initWallet] caches in [sessionStorage] opens the
    wallet again after a reload of the page, at any time and whatever has
    become of the session in the mnemonic store: [loadStoredWallet] calls
    the ledger client with the cached phrase (on the default network, the
    wallet store being new) and asks for no password. *)
Theorem reload_reopens_from_cache {engine : Engine} {crypto : WebCrypto} {sdk : SparkSdk}
    (secret : jsstring) (w : World) :
  initializationStatus (walletStore (initWallet secret w).2) = success ->
  truthy (Some secret) = true ->
  forall (now : Z) (w' : World),
    sessionStorage w' = sessionStorage (initWallet secret w).2 ->
    effects (loadStoredWallet now (reload w')).2
    = effects w' ++ [SdkInitialize secret DEFAULT_NETWORK].
Proof.
  intros Hs Ht now w' Hss.
  destruct (initWallet_post secret w)
    as (_ & _ & _ & _ & _ & _ & _ & [(_ & _ & _ & _ & _ & Hc)|(He & _)]);
    [|congruence].
  rewrite Hc in Hss.
  assert (Hst : initializationStatus (walletStore (reload w')) = idle) by done.
  assert (Hnet : initWalletNetwork (walletStore (reload w')) = DEFAULT_NETWORK)
    by done.
  assert (Hss' : sessionStorage (reload w') = sessionStorage w') by done.
  assert (Heff : effects (reload w') = effects w') by done.
  set (wr := reload w') in *. clearbody wr.
  rewrite loadStoredWallet_run. cbn zeta. rewrite Hst.
  rewrite (bool_decide_eq_false_2 (idle <> idle)) by (by intros []).
  cbn [andb]. rewrite bool_decide_eq_true_2 by done.
  rewrite Hss', Hss, lookup_insert_eq.
  destruct secret as [|c secret]; [done|]. cbn [snd].
  destruct (initWallet_post (c :: secret)
              (setInitializationStatus loading None wr).2)
    as (_ & _ & _ & -> & _).
  run_store. run_store. fields. by rewrite Heff, Hnet.
Qed.

(** ** The watched deposit addresses *)

Lemma query_logged ledger (addrs : list string) x :
  x ∈ addrs ->
  SdkGetLatestDepositTxId x ∈ cycleCalls ledger addrs.
Proof.
  intros Hx. unfold cycleCalls. apply elem_of_app. left.
  by apply list_elem_of_fmap_2.
Qed.

(** The calls of a cycle are made whatever comes of it. *)
Lemma l1Deposit_effects ledger w opened :
  wallet (walletStore w) = Some opened ->
  effects (l1Deposit ledger w).2 = effects (afterCalls ledger w).
Proof.
  intros Hw. rewrite l1Deposit_run, Hw. cbn zeta.
  destruct (firstRejection _); [done|]. cbn [snd].
  by destruct (_ || _).
Qed.

(** The polling query reads the store when it starts. *)
Lemma l1Deposit_closure_store ledger w :
  l1Deposit ledger w
  = l1Deposit_closure ledger (wallet (walletStore w))
      (onchainDepositAddresses (walletStore w)) w.
Proof. done. Qed.

Lemma l1Deposit_closure_run ledger opened (watched : gset string) w :
  l1Deposit_closure ledger (Some opened) watched w =
  let locals := foldl (runTask ledger) (watched, false) (elements watched) in
  let w1 := (performAll (cycleCalls ledger (elements watched)) w).2 in
  match firstRejection (map (claimTask ledger) (elements watched)) with
  | Some e => (Throw e, w1)
  | None =>
      (Ok (Some locals.2),
       if locals.2 || negb (size watched =? size locals.1)%nat
       then (setOnchainDepositAddresses locals.1 w1).2
       else w1)
  end.
Proof.
  unfold l1Deposit_closure. cbn zeta.
  destruct (foldl _ _ _) as [unClaimed claimedSomething].
  rewrite bind_run. unfold performAll at 1, modify at 1. cbn beta iota.
  destruct (firstRejection _); [done|]. cbn [fst snd].
  rewrite bind_run. by destruct (claimedSomething || _).
Qed.

(** [getBitcoinDepositAddress], run. *)
Lemma getBitcoinDepositAddress_run address w :
  getBitcoinDepositAddress (Ok address) w =
  match wallet (walletStore w) with
  | None => (Throw (Error "Wallet not initialized"), w)
  | Some _ =>
      (match address with
       | EmptyString => Throw (Error "Failed to generate deposit address")
       | _ => Ok address
       end,
       (setOnchainDepositAddresses
          ({[address]} ∪ onchainDepositAddresses (walletStore w)) w).2)
  end.
Proof.
  unfold getBitcoinDepositAddress, getBitcoinDepositAddress_begin,
    getBitcoinDepositAddress_resume. run.
  destruct (wallet (walletStore w)); [|done]. by destruct address.
Qed.

(** X17. [getBitcoinDepositAddress] throws "Wallet not initialized" without a
    wallet and changes nothing. With a wallet, the address that the ledger
    client gives is added to the watched set, which loses nothing, and the
    next cycle of the deposit polling asks the ledger about it. This holds
    for the empty address too: it is put in the watched set, and polled,
    although the call then throws "Failed to generate deposit address". *)
Theorem new_deposit_address_is_polled (address : string) (w : World)
    (ledger : Ledger) :
  let r := getBitcoinDepositAddress (Ok address) w in
  match wallet (walletStore w) with
  | None => r = (Throw (Error "Wallet not initialized"), w)
  | Some _ =>
      r.1 = (if decide (address = "")
             then Throw (Error "Failed to generate deposit address")
             else Ok address)
      /\ (forall x, x ∈ onchainDepositAddresses (walletStore r.2)
                    <-> x = address \/ x ∈ onchainDepositAddresses (walletStore w))
      /\ SdkGetLatestDepositTxId address ∈ effects (l1Deposit ledger r.2).2
  end.
Proof.
  cbn zeta. rewrite getBitcoinDepositAddress_run.
  set (w1 := (setOnchainDepositAddresses
                ({[address]} ∪ onchainDepositAddresses (walletStore w)) w).2).
  destruct (wallet (walletStore w)) as [opened|] eqn:Hw; [|done].
  cbn [fst snd].
  assert (Hw1 : wallet (walletStore w1) = Some opened) by done.
  assert (Hset : onchainDepositAddresses (walletStore w1)
                 = {[address]} ∪ onchainDepositAddresses (walletStore w)) by done.
  clearbody w1.
  assert (Hgoal :
    (forall x, x ∈ onchainDepositAddresses (walletStore w1)
               <-> x = address \/ x ∈ onchainDepositAddresses (walletStore w))
    /\ SdkGetLatestDepositTxId address ∈ effects (l1Deposit ledger w1).2).
  { split.
    - intros x. rewrite Hset, elem_of_union, elem_of_singleton. done.
    - rewrite (l1Deposit_effects ledger w1 opened Hw1). unfold afterCalls.
      fields. apply elem_of_app. right. apply query_logged.
      apply elem_of_elements. rewrite Hset. apply elem_of_union. left.
      by apply elem_of_singleton. }
  destruct address as [|a address]; [rewrite decide_True by done|rewrite decide_False by done]; done.
Qed.

(** X18. The polling query writes back the watched set of the render that
    made it. When [getBitcoinDepositAddress] adds an address while a cycle
    that claims a deposit is under way, the cycle's write drops the new
    address from the watched set again. *)
Theorem l1Deposit_drops_address_added_meanwhile (ledger : Ledger) (w : World)
    (opened : SparkWallet) (address claimed : string) :
  wallet (walletStore w) = Some opened ->
  address ∉ onchainDepositAddresses (walletStore w) ->
  claimed ∈ onchainDepositAddresses (walletStore w) ->
  claimTask ledger claimed = TaskClaimed ->
  (forall x, x ∈ onchainDepositAddresses (walletStore w) ->
             forall e, getLatestDepositTxId ledger x <> Throw e) ->
  let w1 := (getBitcoinDepositAddress (Ok address) w).2 in
  let cycle :=
    l1Deposit_closure ledger (wallet (walletStore w))
      (onchainDepositAddresses (walletStore w)) w1 in
  l1Deposit ledger w
  = l1Deposit_closure ledger (wallet (walletStore w))
      (onchainDepositAddresses (walletStore w)) w
  /\ address ∈ onchainDepositAddresses (walletStore w1)
  /\ cycle.1 = Ok (Some true)
  /\ address ∉ onchainDepositAddresses (walletStore cycle.2).
Proof.
  intros Hw Hfresh Hin Hclaimed Hq. cbn zeta.
  split; [done|]. split.
  { rewrite getBitcoinDepositAddress_run, Hw. cbn [snd]. run_all.
    apply elem_of_union. left. by apply elem_of_singleton. }
  rewrite Hw, l1Deposit_closure_run. cbn zeta.
  set (watched := onchainDepositAddresses (walletStore w)) in *.
  pose proof (runTask_foldl ledger (elements watched) watched false)
    as [Hset Hflag].
  destruct (foldl _ _ _) as [unClaimed claimedSomething].
  cbn [fst snd] in Hset, Hflag |- *.
  rewrite firstRejection_None
    by (intros x Hx; apply Hq; by apply elem_of_elements).
  assert (claimedSomething = true) as ->.
  { apply Hflag. right. exists claimed. by rewrite elem_of_elements. }
  cbn [orb snd]. split; [done|]. fields.
  intros Hx. apply Hset in Hx as [Hx _]. done.
Qed.

(** X19. A cycle of the deposit polling never adds to the watched set, whatever
    the ledger answers, and the watched set is all it changes in the
    wallet store. *)
Theorem l1Deposit_only_unwatches (ledger : Ledger) (w : World) :
  let w' := (l1Deposit ledger w).2 in
  (forall x, x ∈ onchainDepositAddresses (walletStore w') ->
             x ∈ onchainDepositAddresses (walletStore w))
  /\ walletStore w'
     = walletStore
         (setOnchainDepositAddresses
            (onchainDepositAddresses (walletStore w')) w).2.
Proof.
  cbn zeta. rewrite l1Deposit_run.
  destruct (wallet (walletStore w)) as [opened|]; cbn zeta.
  2:{ cbn [snd]. split; [done|]. run_all. by destruct (walletStore w). }
  set (watched := onchainDepositAddresses (walletStore w)).
  pose proof (runTask_foldl ledger (elements watched) watched false)
    as [Hset _].
  destruct (foldl _ _ _) as [unClaimed claimedSomething].
  cbn [fst snd] in Hset |- *.
  destruct (firstRejection _); cbn [snd].
  { split; [done|]. unfold afterCalls. run_all.
    by destruct (walletStore w). }
  destruct (_ || _); cbn [snd].
  - split; [|done]. fields. intros x Hx. by apply Hset in Hx as [Hx _].
  - split; [done|]. unfold afterCalls. run_all.
    by destruct (walletStore w).
Qed.

(** X20. When no query rejects, the cycle returns [true] exactly if the
    deposit of some watched address was claimed; and a cycle that returns
    [false] has left the whole wallet store as it was. *)
Theorem l1Deposit_reports_claims (ledger : Ledger) (w : World)
    (opened : SparkWallet) :
  wallet (walletStore w) = Some opened ->
  (forall x, x ∈ onchainDepositAddresses (walletStore w) ->
             forall e, getLatestDepositTxId ledger x <> Throw e) ->
  exists claimedSomething,
    (l1Deposit ledger w).1 = Ok (Some claimedSomething)
    /\ (claimedSomething = true
        <-> exists x, x ∈ onchainDepositAddresses (walletStore w)
                      /\ claimTask ledger x = TaskClaimed)
    /\ (claimedSomething = false ->
        walletStore (l1Deposit ledger w).2 = walletStore w).
Proof.
  intros Hw Hq. rewrite l1Deposit_run, Hw. cbn zeta.
  set (watched := onchainDepositAddresses (walletStore w)) in *.
  pose proof (runTask_foldl ledger (elements watched) watched false)
    as [Hset Hflag].
  destruct (foldl _ _ _) as [unClaimed claimedSomething].
  cbn [fst snd] in Hset, Hflag |- *.
  rewrite firstRejection_None
    by (intros x Hx; apply Hq; by apply elem_of_elements).
  exists claimedSomething. cbn [fst snd]. split; [done|]. split.
  - rewrite Hflag. setoid_rewrite elem_of_elements.
    split; [by intros [|]|by right].
  - intros ->. cbn [orb].
    assert (unClaimed = watched) as ->.
    { apply set_eq. intros x. rewrite Hset. split; [by intros []|].
      intros Hx. split; [done|]. intros [Hin Hc].
      assert (false = true) as [=]. apply Hflag. right. by exists x. }
    by rewrite Nat.eqb_refl.
Qed.

(** ** The balance effect *)

(** The second half of a run never throws. *)
Lemma handleBalanceUpdate_resume_returns mounted run response w :
  (handleBalanceUpdate_resume mounted run response w).1 = Ok tt.
Proof.
  unfold handleBalanceUpdate_resume.
  destruct response as [currentBalance|e]; [|done].
  destruct mounted; [|done]. cbn [negb]. run_all.
  destruct (previousBtcBalance run) as [previous|];
    [destruct (previous <? _)%Z|]; run_all;
    (destruct (balanceFromEvent run) as [hint|];
     [destruct (negb (_ =? hint)%Z)|]); by run_all.
Qed.

(** A whole run of the mounted effect with nothing in flight besides. *)
Lemma serial_run_step hooked x w :
  is_Some hooked ->
  let r := {| isMounted := true; hookWallet := hooked; inFlight := [] |} in
  reconcilerRun
    [Trigger (run_eventType x) (run_eventId x) (run_balanceFromEvent x);
     Settle 0 (Ok (run_response x))] r w
  = (Ok r,
     (handleBalanceUpdate_resume true
        {| eventType := run_eventType x; eventId := run_eventId x;
           balanceFromEvent := run_balanceFromEvent x;
           previousBtcBalance := btcBalance (walletStore w) |}
        (Ok (run_response x)) (perform SdkGetBalance w).2).2).
Proof.
  intros Hw r. subst r. cbn [reconcilerRun reconcilerStep isMounted hookWallet inFlight].
  rewrite !bind_run, handleBalanceUpdate_begin_run.
  rewrite bool_decide_eq_true_2 by done. cbn [andb app option_list].
  unfold mret at 1, M_ret at 1. cbn beta iota.
  unfold option_list. cbn [option_rect inFlight isMounted hookWallet].
  change ([?a] !! 0) with (Some a). cbn beta iota.
  rewrite !bind_run.
  pose proof (handleBalanceUpdate_resume_returns true
                {| eventType := run_eventType x; eventId := run_eventId x;
                   balanceFromEvent := run_balanceFromEvent x;
                   previousBtcBalance := btcBalance (walletStore w) |}
                (Ok (run_response x)) (perform SdkGetBalance w).2) as Hok.
  destruct (handleBalanceUpdate_resume _ _ _ _) as [[[]|e] w']; [|done].
  reflexivity.
Qed.

Lemma reconcilerRun_app evs1 evs2 r w :
  reconcilerRun (evs1 ++ evs2) r w =
  match reconcilerRun evs1 r w with
  | (Ok r', w') => reconcilerRun evs2 r' w'
  | (Throw e, w') => (Throw e, w')
  end.
Proof.
  revert r w. induction evs1 as [|ev evs1 IH]; intros r w; [done|].
  cbn [app reconcilerRun]. rewrite !bind_run.
  destruct (reconcilerStep ev r w) as [[r'|e] w']; [apply IH|done].
Qed.

Lemma last_cons_default {A} (a : A) (l : list A) (d : A) :
  List.last (a :: l) d = List.last l a.
Proof.
  revert a d. induction l as [|c rest IH]; intros a d; [done|].
  change (List.last (a :: c :: rest) d) with (List.last (c :: rest) d).
  by rewrite !IH.
Qed.

Lemma sum_increases previous balances :
  nondecreasing previous balances = true ->
  foldr Z.add 0%Z (increases previous balances)
  = (List.last balances previous - previous)%Z.
Proof.
  revert previous. induction balances as [|b rest IH]; intros previous.
  { intros _. cbn. lia. }
  cbn [nondecreasing increases]. intros [Hle Hrest]%andb_prop.
  apply Z.leb_le in Hle. rewrite foldr_app, IH by done.
  rewrite last_cons_default.
  destruct (Z.ltb_spec previous b); cbn [foldr app]; lia.
Qed.

(** X24. When the runs of [handleBalanceUpdate] do take turns, each settled
    before the next is triggered, the "Funds Received" toasts are exactly
    the steps up of the fetched balances, starting from the stored one;
    the store ends with the last fetched balance and nothing in flight.
    If the balance never goes down, the toasts add up to the whole
    increase. *)
Theorem serial_runs_toast_each_increase (r : Reconciler) (w : World)
    (runs : list SerialRun) (stored : Z) :
  isMounted r = true -> is_Some (hookWallet r) -> inFlight r = [] ->
  btcBalance (walletStore w) = Some stored ->
  let balances := map (fun x => fetchedBalance (run_response x)) runs in
  exists w',
    reconcilerRun (serial runs) r w = (Ok r, w')
    /\ toasts (effects w') = toasts (effects w) ++ increases stored balances
    /\ btcBalance (walletStore w') = Some (List.last balances stored)
    /\ (nondecreasing stored balances = true ->
        foldr Z.add 0%Z (increases stored balances)
        = (List.last balances stored - stored)%Z).
Proof.
  destruct r as [mounted hooked flight]. cbn [isMounted hookWallet inFlight].
  intros -> Hw -> Hstored. cbn zeta.
  revert w stored Hstored.
  induction runs as [|x runs IH]; intros w stored Hstored.
  { exists w. cbn. rewrite app_nil_r. split_and!; try done. intros _. lia. }
  change (serial (x :: runs))
    with ([Trigger (run_eventType x) (run_eventId x) (run_balanceFromEvent x);
           Settle 0 (Ok (run_response x))] ++ serial runs).
  rewrite reconcilerRun_app, serial_run_step by done.
  set (run := {| eventType := run_eventType x; eventId := run_eventId x;
                 balanceFromEvent := run_balanceFromEvent x;
                 previousBtcBalance := btcBalance (walletStore w) |}).
  destruct (handleBalanceUpdate_resume_run run (run_response x)
              (perform SdkGetBalance w).2) as [Hb Ht].
  set (w1 := (handleBalanceUpdate_resume true run (Ok (run_response x))
                (perform SdkGetBalance w).2).2) in *.
  destruct (IH w1 (fetchedBalance (run_response x)) Hb)
    as (w' & Hrun & Htoasts & Hlast & _).
  exists w'. split; [done|].
  assert (Heq : List.last
            (map (fun x => fetchedBalance (run_response x)) (x :: runs)) stored
          = List.last (map (fun x => fetchedBalance (run_response x)) runs)
              (fetchedBalance (run_response x))).
  { cbn [map]. apply last_cons_default. }
  split_and!.
  - rewrite Htoasts, Ht. cbn [run previousBtcBalance]. rewrite Hstored.
    unfold perform, performAll, modify. cbn [snd effects].
    rewrite toasts_app. cbn [toasts omap map increases].
    by rewrite app_nil_r, <- app_assoc.
  - by rewrite Hlast, Heq.
  - apply sum_increases.
Qed.

(** X25. Once the cleanup of the effect has run, nothing that still happens to
    it changes anything: runs in flight settle without a write and
    without a toast, and a late event starts no run. *)
Theorem cleanup_makes_effect_inert (evs : list ReconcilerEvent)
    (r : Reconciler) (w : World) :
  exists r',
    reconcilerRun (Cleanup :: evs) r w = (Ok r', w)
    /\ isMounted r' = false
    /\ length (inFlight r') <= length (inFlight r).
Proof.
  cbn [reconcilerRun]. rewrite bind_run. cbn [reconcilerStep].
  unfold mret at 1, M_ret at 1. cbn beta iota.
  set (r0 := {| isMounted := false; hookWallet := hookWallet r;
                inFlight := inFlight r |}).
  assert (Hm : isMounted r0 = false) by done.
  assert (Hl : length (inFlight r0) <= length (inFlight r)) by done.
  clearbody r0. revert r0 Hm Hl.
  induction evs as [|ev evs IH]; intros r0 Hm Hl; [by exists r0|].
  cbn [reconcilerRun]. rewrite bind_run.
  destruct ev as [eventType eventId hint|i response|]; cbn [reconcilerStep].
  - rewrite bind_run, handleBalanceUpdate_begin_run, Hm. cbn [andb].
    unfold mret at 1, M_ret at 1. cbn beta iota. apply IH; [done|].
    cbn [inFlight option_list]. by rewrite app_nil_r.
  - destruct (inFlight r0 !! i) as [run|] eqn:Hi.
    + rewrite bind_run, Hm.
      rewrite handleBalanceUpdate_resume_cut by by left.
      unfold mret at 1, M_ret at 1. cbn beta iota. apply IH; [done|].
      cbn [inFlight]. rewrite length_delete by eauto. lia.
    + unfold mret at 1, M_ret at 1. cbn beta iota. by apply IH.
  - unfold mret at 1, M_ret at 1. cbn beta iota. by apply IH.
Qed.

(** X23. The effect is set up only with a wallet in the store and the status
    [success]; it then starts the initial fetch at once. Until that fetch
    returns, [useWallet] reports the balance as loading if the store holds
    none; when it returns, the balance is the fetched one and no longer
    loading. If the fetch fails, the store is left as it is and nothing is
    in flight any more: a balance that was loading stays loading until an
    event of the ledger client triggers another run. *)
Theorem balanceEffect_initial_fetch (w : World) :
  let s := walletStore w in
  match wallet s with
  | Some opened =>
      if bool_decide (initializationStatus s = success) then
        let run :=
          {| eventType := "initial fetch"; eventId := None;
             balanceFromEvent := None; previousBtcBalance := btcBalance s |} in
        let r inFlight :=
          {| isMounted := true; hookWallet := Some opened;
             inFlight := inFlight |} in
        let w1 := (perform SdkGetBalance w).2 in
        balanceEffect w = (Ok (Some (r [run])), w1)
        /\ isLoading (useWallet_btcBalance (walletStore w1))
           = bool_decide (btcBalance s = None)
        /\ (forall currentBalance,
              let settled :=
                reconcilerStep (Settle 0 (Ok currentBalance)) (r [run]) w1 in
              settled.1 = Ok (r [])
              /\ useWallet_btcBalance (walletStore settled.2)
                 = {| value := fetchedBalance currentBalance;
                      isLoading := false |})
        /\ (forall e,
              reconcilerStep (Settle 0 (Throw e)) (r [run]) w1 = (Ok (r []), w1))
      else balanceEffect w = (Ok None, w)
  | None => balanceEffect w = (Ok None, w)
  end.
Proof.
  cbn zeta. unfold balanceEffect. rewrite bind_run. unfold gets.
  cbn beta iota.
  destruct (wallet (walletStore w)) as [opened|] eqn:Hw.
  2:{ by rewrite (bool_decide_eq_false_2 (is_Some None)) by apply is_Some_None. }
  rewrite (bool_decide_eq_true_2 (is_Some (Some opened))) by eauto.
  cbn [negb orb].
  destruct (decide (initializationStatus (walletStore w) = success)) as [Hs|Hs].
  2:{ rewrite (bool_decide_eq_true_2 (_ <> success)) by done.
      by rewrite bool_decide_eq_false_2 by done. }
  rewrite (bool_decide_eq_false_2 (_ <> success)) by (by intros []).
  rewrite (bool_decide_eq_true_2 (_ = success)) by done.
  split_and!.
  - rewrite bind_run. unfold reconcilerStep. rewrite bind_run.
    rewrite handleBalanceUpdate_begin_run. cbn [isMounted hookWallet].
    by rewrite bool_decide_eq_true_2 by eauto.
  - unfold useWallet_btcBalance, perform, performAll, modify.
    cbn [isLoading snd walletStore]. rewrite Hs.
    rewrite (bool_decide_eq_false_2 (success = loading)) by done.
    by rewrite bool_decide_eq_true_2 by done.
  - intros currentBalance. cbn zeta. unfold reconcilerStep.
    cbn [inFlight isMounted hookWallet].
    change ([?a] !! 0) with (Some a). cbn beta iota. rewrite bind_run.
    pose proof (handleBalanceUpdate_resume_returns true
                  {| eventType := "initial fetch"; eventId := None;
                     balanceFromEvent := None;
                     previousBtcBalance := btcBalance (walletStore w) |}
                  (Ok currentBalance) (perform SdkGetBalance w).2) as Hok.
    destruct (handleBalanceUpdate_resume_run
                {| eventType := "initial fetch"; eventId := None;
                   balanceFromEvent := None;
                   previousBtcBalance := btcBalance (walletStore w) |}
                currentBalance (perform SdkGetBalance w).2) as [Hb _].
    assert (Hst : initializationStatus
                    (walletStore
                       (handleBalanceUpdate_resume true
                          {| eventType := "initial fetch"; eventId := None;
                             balanceFromEvent := None;
                             previousBtcBalance := btcBalance (walletStore w) |}
                          (Ok currentBalance) (perform SdkGetBalance w).2).2)
                  = success).
    { unfold handleBalanceUpdate_resume. cbn [negb previousBtcBalance
        balanceFromEvent]. run_all.
      destruct (btcBalance (walletStore w)) as [previous|];
        [destruct (previous <? _)%Z|]; by run_all. }
    destruct (handleBalanceUpdate_resume _ _ _ _) as [[[]|e] w']; [|done].
    cbn [fst snd] in *. split; [done|].
    unfold useWallet_btcBalance, mret, M_ret. cbn [snd]. rewrite Hb, Hst. done.
  - intros e. unfold reconcilerStep. cbn [inFlight isMounted hookWallet].
    change ([?a] !! 0) with (Some a). cbn beta iota. rewrite bind_run.
    by rewrite handleBalanceUpdate_resume_cut by (right; eauto).
Qed.

(** ** The pages *)

Section PageFacts.
Context {engine : Engine} {crypto : WebCrypto} {sdk : SparkSdk}.

(** [handleUnlock], run: it never throws; a failure of [startSession]
    is shown with its message and leaves the world as [startSession] left
    it; otherwise the outcome is decided by the status that
    [loadStoredWallet] returns. *)
Lemma handleUnlock_run password now later w :
  handleUnlock password now later w =
  match startSession password now w with
  | (Throw e, w1) =>
      (Ok (UnlockFailed (message_or e "Incorrect password or failed.")), w1)
  | (Ok _, w1) =>
      let w2 := (loadStoredWallet later w1).2 in
      let loaded := initializationStatus (walletStore w2) in
      (Ok (if bool_decide (loaded = success) then Unlocked
           else UnlockFailed
                  ("Failed to initialize wallet after starting session. Status: "
                   +:+ status_name loaded)), w2)
  end.
Proof.
  unfold handleUnlock, try_catch. rewrite bind_run.
  rewrite startSession_run.
  destruct (getDecryptedMnemonic password w) as [[mnemonic|e] w0]; [|done].
  cbn beta iota zeta. destruct (spreads _); [|done].
  cbn beta iota zeta. unfold mbind, M_bind.
  match goal with |- context [loadStoredWallet later ?w1] =>
    assert ((loadStoredWallet later w1).1
            = Ok (initializationStatus
                    (walletStore (loadStoredWallet later w1).2))) as Hr
      by (by destruct (loadStoredWallet_cases later w1)
            as [(_ & _ & ->)|(_ & -> & _)]);
    destruct (loadStoredWallet later w1) as [[loaded|e] w2] end;
    [|done].
  cbn [fst snd] in Hr |- *. injection Hr as ->.
  by destruct (bool_decide (_ = success)).
Qed.
End PageFacts.

Section UnlockFacts.
Context {engine : Engine} {crypto : WebCrypto} {sdk : SparkSdk}.

(** What [getDecryptedMnemonic] and [startSession] can throw. *)
Lemma getDecryptedMnemonic_throws password w e :
  (getDecryptedMnemonic password w).1 = Throw e ->
  e = Error "No encrypted mnemonic found"
  \/ e = InvalidCharacterError atob_message
  \/ e = Error "Invalid password".
Proof.
  unfold getDecryptedMnemonic. run.
  destruct (encryptedMnemonic (mnemonicStore w)) as [[|c envelope]|];
    cbn [fst]; [intros [= <-]; by left| |intros [= <-]; by left].
  unfold decryptMnemonic.
  destruct (Base64.atob (c :: envelope)) as [binary|e'] eqn:E.
  - destruct (AES_GCM_decrypt _ _ _); [done|]. intros [= <-]. by right; right.
  - intros [= <-]. right; left. by eapply Base64Facts.atob_throws.
Qed.

(** [startSession] leaves the wallet store, [sessionStorage] and the
    effects alone. *)
Lemma startSession_frame password now w :
  let w' := (startSession password now w).2 in
  walletStore w' = walletStore w /\ sessionStorage w' = sessionStorage w
  /\ effects w' = effects w.
Proof.
  cbn zeta. rewrite startSession_run.
  destruct (getDecryptedMnemonic password w) as [[mnemonic|e] w0]; [|done].
  cbv zeta. by destruct (spreads _).
Qed.

(** When [startSession] throws: the vault did not open and the world is
    as it was, or the phrase was too long to seal for the session and
    only entropy was drawn. *)
Lemma startSession_throws password now w e w' :
  startSession password now w = (Throw e, w') ->
  ((e = Error "No encrypted mnemonic found"
    \/ e = InvalidCharacterError atob_message
    \/ e = Error "Invalid password") /\ w' = w)
  \/ (e = RangeError RangeError_message /\ w' = with_rng (rng w') w).
Proof.
  rewrite startSession_run.
  pose proof (getDecryptedMnemonic_throws password w) as Hthrows.
  destruct (getDecryptedMnemonic password w) as [[mnemonic|e'] w0].
  - cbv zeta. destruct (spreads _); [done|]. intros Heq. right.
    split; [congruence|].
    apply (f_equal snd) in Heq. cbn [snd] in Heq. by subst w'.
  - intros Heq. left. split; [|congruence].
    apply Hthrows. cbn [fst]. congruence.
Qed.
End UnlockFacts.

(** X10. Unlocking when [startSession] throws shows "Unlock Failed" with
    the message of the error. When the vault does not open, the message is
    "No encrypted mnemonic found", the message that [atob] gives its
    [InvalidCharacterError] for a vault that is not base64, or "Invalid
    password", and nothing at all has changed: no session is started and
    the wallet is not touched. The only other failure is the [RangeError]
    of sealing the phrase for the session; its message is shown and
    nothing has changed but the entropy drawn. *)
Theorem unlock_failure_changes_nothing {engine : Engine} {crypto : WebCrypto} {sdk : SparkSdk}
    (password : jsstring) (now later : Z) (w : World) (e : exn) :
  (startSession password now w).1 = Throw e ->
  let r := handleUnlock password now later w in
  (e = Error "No encrypted mnemonic found"
   /\ r = (Ok (UnlockFailed "No encrypted mnemonic found"), w))
  \/ (e = InvalidCharacterError atob_message
      /\ r = (Ok (UnlockFailed atob_message), w))
  \/ (e = Error "Invalid password"
      /\ r = (Ok (UnlockFailed "Invalid password"), w))
  \/ (e = RangeError RangeError_message
      /\ r.1 = Ok (UnlockFailed RangeError_message)
      /\ r.2 = with_rng (rng r.2) w).
Proof.
  intros He. cbn zeta. rewrite handleUnlock_run.
  destruct (startSession password now w) as [[[]|e'] w1] eqn:Hstart; [done|].
  cbn [fst] in He. injection He as ->.
  destruct (startSession_throws _ _ _ _ _ Hstart)
    as [[[-> | [-> | ->]] ->] | [-> Hw1]]; cbn [message_or]; auto 6.
Qed.


(** X11. Unlocking a locked wallet with the password of its vault: with no
    secret cached in [sessionStorage] and a status of [idle] or
    [needs_password], [handleUnlock] starts the session and opens the
    wallet with the phrase of the vault, in one call of the ledger
    client. It ends in [Unlocked] with the wallet in the store and the
    phrase cached, or, if the ledger client fails, in the failure "Status:
    error". Either way the session is started and yields the phrase for 30
    minutes. (All this when the phrase, sealed under the session key, is
    within the arguments a call may have; a longer one ends the handler
    with the message of the [RangeError] and nothing changed but the
    entropy drawn.) *)
Theorem unlock_opens_with_vault_phrase {engine : Engine} {crypto : WebCrypto}
    {laws : WebCryptoLaws crypto} {sdk : SparkSdk}
    (password mnemonic : jsstring) (now later : Z) (w : World) :
  getDecryptedMnemonic password w = (Ok mnemonic, w) ->
  initializationStatus (walletStore w) = idle
  \/ initializationStatus (walletStore w) = needs_password ->
  sessionStorage w !! MNEMONIC_STORAGE_KEY = None ->
  sessionStorage w !! SEED_STORAGE_KEY = None ->
  (0 <= now)%Z -> (later < now + 1800000)%Z ->
  let secret := TextDecoder_decode (TextEncoder_encode mnemonic) in
  truthy (Some secret) = true ->
  let r := handleUnlock password now later w in
  let s' := walletStore r.2 in
  if spreads (sealed mnemonic (randomUUID (rng w)).1 (randomUUID (rng w)).2)
  then
    effects r.2
    = effects w ++ [SdkInitialize secret (initWalletNetwork (walletStore w))]
    /\ ((r.1 = Ok Unlocked /\ initializationStatus s' = success
         /\ is_Some (wallet s')
         /\ sessionStorage r.2 !! MNEMONIC_STORAGE_KEY = Some secret)
        \/ (r.1 = Ok (UnlockFailed
                        "Failed to initialize wallet after starting session. Status: error")
            /\ initializationStatus s' = error))
    /\ forall t, (t < now + 1800000)%Z ->
         (getSessionMnemonic t r.2).1 = Ok (Some secret)
  else
    r.1 = Ok (UnlockFailed RangeError_message)
    /\ r.2 = with_rng (rng r.2) w.
Proof.
  intros Hvault Hs Hm Hseed Hnow Hlater secret Ht. cbn zeta.
  rewrite handleUnlock_run.
  destruct (spreads _) eqn:Hfit.
  2:{ rewrite startSession_run, Hvault. cbv zeta. by rewrite Hfit. }
  destruct (startSession_frame password now w) as (Hws & Hss & Heff).
  assert (Hstart : exists w1, startSession password now w = (Ok tt, w1)).
  { rewrite startSession_run, Hvault. cbv zeta. rewrite Hfit. eauto. }
  destruct Hstart as [w1 Hstart]. rewrite Hstart in *. cbn [snd] in *.
  destruct (session_after_startSession _ _ _ _ Hnow Hstart)
    as (_ & mnemonic' & Hm' & Hsession).
  rewrite Hvault in Hm'. injection Hm' as <-. fold secret in Hsession.
  cbn zeta.
  assert (Hload : mnemonicStore (loadStoredWallet later w1).2 = mnemonicStore w1)
    by apply loadStoredWallet_frame.
  rewrite loadStoredWallet_run. rewrite loadStoredWallet_run in Hload.
  cbn zeta in Hload |- *. rewrite Hws, Hss, Hm, Hseed in *.
  assert (bool_decide (initializationStatus (walletStore w) <> idle)
          && bool_decide (initializationStatus (walletStore w) <> needs_password)
          = false) as Hskip.
  { destruct Hs as [-> | ->]; by vm_compute. }
  rewrite Hskip in *.
  rewrite (Hsession later w1 eq_refl) in *.
  destruct (Z.ltb_spec later (now + 1800000)); [|lia].
  clearbody secret. destruct secret as [|c secret]; [done|].
  cbn [fst snd] in *.
  set (w1' := if bool_decide (initializationStatus (walletStore w) = idle)
              then (setInitializationStatus loading None w1).2 else w1) in *.
  assert (Hw1' : effects w1' = effects w
                 /\ initWalletNetwork (walletStore w1')
                    = initWalletNetwork (walletStore w)).
  { subst w1'. destruct (bool_decide (_ = idle)); run_all;
      by rewrite ?Hws, ?Heff. }
  destruct Hw1' as [Heff' Hnet']. clearbody w1'.
  destruct (initWallet_post (c :: secret) w1')
    as (_ & _ & _ & He & _ & _ & _ & Hend).
  split_and!.
  - by rewrite He, Heff', Hnet'.
  - destruct Hend as [(-> & _ & _ & ? & _ & ->)|(-> & _)]; [left|right].
    + split_and!; try done. apply lookup_insert_eq.
    + by split.
  - intros t Hlt. rewrite (Hsession t _ Hload).
    by destruct (Z.ltb_spec t (now + 1800000)); [|lia].
Qed.

Section CreateFacts.
Context {engine : Engine} {crypto : WebCrypto} {sdk : SparkSdk}.

(** [handleCreateWallet], run. *)
Lemma handleCreateWallet_run password confirmPassword w :
  handleCreateWallet password confirmPassword w =
  if negb (bool_decide (password = confirmPassword))
  then (Ok PasswordsDoNotMatch, w)
  else if (length password <? 8)%nat then (Ok PasswordTooShort, w)
  else
    match sessionStorage w !! PENDING_MNEMONIC with
    | Some ((_ :: _) as pending) =>
        match saveEncryptedMnemonic pending password w with
        | (Ok _, w1) =>
            (Ok WalletCreated,
             (sessionStorage_removeItem PENDING_MNEMONIC
                (initWallet pending w1).2).2)
        | (Throw e, w1) => (Ok (CreateFailed (message_or e "Unknown error")), w1)
        end
    | _ => (Ok MnemonicNotFound, w)
    end.
Proof.
  unfold handleCreateWallet.
  destruct (negb (bool_decide (password = confirmPassword))); [reflexivity|].
  destruct (length password <? 8)%nat; [reflexivity|].
  rewrite bind_run. unfold sessionStorage_getItem, gets. cbn beta iota.
  destruct (sessionStorage w !! PENDING_MNEMONIC) as [[|c pending]|];
    [reflexivity| |reflexivity].
  unfold try_catch. rewrite bind_run, saveEncryptedMnemonic_run. cbn zeta.
  destruct (spreads _); [|reflexivity].
  cbn [fst snd]. rewrite bind_run, initWallet_run. reflexivity.
Qed.
End CreateFacts.

(** X13. Setting the wallet up from the password page. Two different
    passwords, a password of fewer than 8 code units, or no phrase waiting
    under [pending_mnemonic] end the handler with its message and change
    nothing. So does a phrase whose sealed bytes are more than the
    arguments a call may have, but for the entropy drawn: the page shows
    "Failed to create wallet" with the message of the [RangeError].
    Otherwise the phrase is sealed in the vault under the password, the
    wallet is opened with it in one call of the ledger client, and the
    waiting phrase is removed; the page reports success whether the wallet
    ended in [success] or in [error]. The vault then opens under the
    password, at once and after a restart (for a phrase that is well
    formed and does not start with U+FEFF). *)
Theorem handleCreateWallet_outcome {engine : Engine} {crypto : WebCrypto}
    {laws : WebCryptoLaws crypto} {sdk : SparkSdk}
    (password confirmPassword : jsstring) (w : World) :
  let r := handleCreateWallet password confirmPassword w in
  if negb (bool_decide (password = confirmPassword))
  then r = (Ok PasswordsDoNotMatch, w)
  else if (length password <? 8)%nat then r = (Ok PasswordTooShort, w)
  else
    match sessionStorage w !! PENDING_MNEMONIC with
    | Some ((_ :: _) as pending) =>
        if spreads (sealed pending password (rng w))
        then
          r.1 = Ok WalletCreated
          /\ effects r.2
             = effects w
               ++ [SdkInitialize pending (initWalletNetwork (walletStore w))]
          /\ sessionStorage r.2 !! PENDING_MNEMONIC = None
          /\ (initializationStatus (walletStore r.2) = success
              \/ initializationStatus (walletStore r.2) = error)
          /\ (Utf16.well_formed pending = true -> has_bom pending = false ->
              getDecryptedMnemonic password r.2 = (Ok pending, r.2)
              /\ getDecryptedMnemonic password (restart r.2)
                 = (Ok pending, restart r.2))
        else
          r.1 = Ok (CreateFailed RangeError_message)
          /\ r.2 = with_rng (rng r.2) w
    | _ => r = (Ok MnemonicNotFound, w)
    end.
Proof.
  cbn zeta. rewrite handleCreateWallet_run.
  destruct (negb (bool_decide (password = confirmPassword))); [done|].
  destruct (length password <? 8)%nat; [done|].
  destruct (sessionStorage w !! PENDING_MNEMONIC) as [[|c pending]|];
    [done| |done].
  rewrite saveEncryptedMnemonic_run. cbn zeta.
  destruct (spreads _); [|done]. cbn [fst snd].
  set (envelope := Base64.encode
                     (String_fromCharCode (sealed (c :: pending) password (rng w)))).
  set (s := {| encryptedMnemonic := Some envelope;
               sessionEncryptedMnemonic := sessionEncryptedMnemonic (mnemonicStore w);
               session := session (mnemonicStore w) |}).
  set (w1 := {| rng := (getRandomValues 12 (getRandomValues 16 (rng w)).2).2;
                localStorage := <[PERSIST_NAME := s]> (localStorage w);
                sessionStorage := sessionStorage w; mnemonicStore := s;
                walletStore := walletStore w; effects := effects w |}).
  destruct (initWallet_post (c :: pending) w1)
    as (_ & Hls & Hms & He & _ & _ & _ & Hend).
  set (w2 := (initWallet (c :: pending) w1).2) in *. clearbody w2.
  unfold sessionStorage_removeItem, modify. cbn [fst snd].
  assert (Hopen : decryptMnemonic envelope password
                  = Ok (TextDecoder_decode (TextEncoder_encode (c :: pending))))
    by by apply open_sealed.
  split_and!.
  - done.
  - fields. by rewrite He.
  - fields. apply lookup_delete_eq.
  - fields. destruct Hend as [(-> & _)|(-> & _)]; auto.
  - intros Hwf Hbom. rewrite TextDecoder_decode_encode in Hopen by done.
    split.
    + erewrite getDecryptedMnemonic_found;
        [by rewrite Hopen| |apply sealed_envelope_truthy].
      fields. by rewrite Hms.
    + erewrite getDecryptedMnemonic_found;
        [by rewrite Hopen| |apply sealed_envelope_truthy].
      unfold restart. fields. rewrite Hls. cbn [localStorage w1].
      by rewrite lookup_insert_eq.
Qed.

Section EffectFacts.

(** The effect, set up: the listeners are there and the initial fetch is
    in flight. *)
Lemma balanceEffect_run w opened :
  wallet (walletStore w) = Some opened ->
  initializationStatus (walletStore w) = success ->
  balanceEffect w
  = (Ok (Some {| isMounted := true; hookWallet := Some opened;
                 inFlight :=
                   [{| eventType := "initial fetch"; eventId := None;
                       balanceFromEvent := None;
                       previousBtcBalance := btcBalance (walletStore w) |}] |}),
     (perform SdkGetBalance w).2).
Proof.
  intros Hw Hs. unfold balanceEffect. rewrite bind_run. unfold gets.
  cbn beta iota. rewrite Hw, Hs.
  rewrite (bool_decide_eq_true_2 (is_Some (Some opened))) by eauto.
  rewrite (bool_decide_eq_false_2 (success <> success)) by (by intros []).
  cbn [negb orb]. rewrite bind_run. unfold reconcilerStep. rewrite bind_run.
  rewrite handleBalanceUpdate_begin_run. cbn [isMounted hookWallet].
  by rewrite bool_decide_eq_true_2 by eauto.
Qed.
End EffectFacts.

(** X26. The first fetch after logging out and unlocking again in the same
    page is not silent: logging out leaves the balance in the wallet store,
    so the initial fetch of the new effect is compared with it, and a
    higher balance shows the "Funds Received" toast with the difference. *)
Theorem first_fetch_after_relogin_is_compared {engine : Engine} {crypto : WebCrypto}
    {sdk : SparkSdk} (password : jsstring) (now later : Z) (w w2 : World)
    (previous : Z) :
  btcBalance (walletStore w) = Some previous ->
  handleUnlock password now later (handleLogout w).2 = (Ok Unlocked, w2) ->
  exists r w3,
    balanceEffect w2 = (Ok (Some r), w3)
    /\ forall currentBalance,
         toasts (effects (reconcilerStep (Settle 0 (Ok currentBalance)) r w3).2)
         = toasts (effects w)
           ++ (if (previous <? fetchedBalance currentBalance)%Z
               then [(fetchedBalance currentBalance - previous)%Z] else []).
Proof.
  intros Hprev. rewrite handleUnlock_run.
  set (w0 := (handleLogout w).2).
  assert (Hw0 : btcBalance (walletStore w0) = Some previous
                /\ effects w0 = effects w
                /\ initializationStatus (walletStore w0) = needs_password
                /\ isInitialized (walletStore w0) = false).
  { subst w0. rewrite handleLogout_run. cbn zeta. by fields. }
  destruct Hw0 as (Hb0 & He0 & Hs0 & Hi0).
  destruct (startSession_frame password now w0) as (Hws & Hss & Heff).
  destruct (startSession password now w0) as [[[]|e] w1]; [|done].
  cbn [snd] in *. cbn zeta.
  destruct (loadStoredWallet_frame later w1)
    as (_ & _ & _ & _ & Hb & _ & He).
  assert (Hc : coherent (loadStoredWallet later w1).2).
  { apply loadStoredWallet_coherent. unfold coherent.
    rewrite Hws, Hs0, Hi0. by split. }
  destruct (bool_decide (_ = success)) eqn:Esuccess; [|done].
  apply bool_decide_eq_true in Esuccess.
  intros [= <-].
  destruct Hc as [_ Hc]. destruct (Hc Esuccess) as [[opened Hopened] _].
  eexists _, _. split; [by apply balanceEffect_run|].
  intros currentBalance. unfold reconcilerStep. cbn [inFlight isMounted].
  change ([?a] !! 0) with (Some a). cbn beta iota. rewrite bind_run.
  match goal with |- context [handleBalanceUpdate_resume true ?run _ ?w3] =>
    destruct (handleBalanceUpdate_resume_run run currentBalance w3) as [_ Ht];
    pose proof (handleBalanceUpdate_resume_returns true run
                  (Ok currentBalance) w3) as Hok;
    destruct (handleBalanceUpdate_resume true run (Ok currentBalance) w3)
      as [[[]|e] w4] end; [|done].
  cbn [fst snd] in *. unfold mret, M_ret. cbn [snd]. rewrite Ht.
  cbn [previousBtcBalance]. rewrite Hb, Hws, Hb0.
  unfold perform, performAll, modify. cbn [snd effects].
  rewrite toasts_app. cbn [toasts omap]. rewrite app_nil_r.
  assert (toasts (effects (loadStoredWallet later w1).2) = toasts (effects w))
    as ->; [|done].
  destruct He as [-> | [secret ->]]; rewrite ?toasts_app, Heff, He0; [done|].
  cbn [toasts omap]. by rewrite app_nil_r.
Qed.

(** X15. Where a restart of the application leads. The entry page routes to
    [/home] if a vault is stored and to [/create] if not. On [/home] the
    wallet is loaded, and the guard of the layout then redirects to
    [/unlock] exactly when a vault is stored and the mnemonic store yields
    no session secret, and to [/create] when there is neither; with a
    session secret the wallet is opened with it and the guard redirects
    nowhere. *)
Theorem entry_routing_after_restart {engine : Engine} {crypto : WebCrypto} {sdk : SparkSdk}
    (w : World) (now : Z) :
  let w0 := restart w in
  let vault := truthy (encryptedMnemonic (mnemonicStore w0)) in
  let loaded := loadStoredWallet now w0 in
  let s' := initializationStatus (walletStore loaded.2) in
  EntryPage w0 = (Ok (if vault then "/home" else "/create"), w0)
  /\ match (getSessionMnemonic now w0).1 with
     | Ok (Some ((_ :: _) as secret)) =>
         effects loaded.2
         = effects w ++ [SdkInitialize secret DEFAULT_NETWORK]
         /\ MainAppLayout_redirect s' = None
     | Ok _ =>
         effects loaded.2 = effects w
         /\ MainAppLayout_redirect s'
            = Some (if vault then "/unlock" else "/create")
     | Throw _ =>
         effects loaded.2 = effects w /\ MainAppLayout_redirect s' = None
     end.
Proof.
  cbn zeta. split.
  { unfold EntryPage. rewrite bind_run. unfold gets. cbn beta iota.
    by destruct (truthy _). }
  rewrite loadStoredWallet_run. cbn zeta.
  assert (Hst : initializationStatus (walletStore (restart w)) = idle) by done.
  assert (Hss : sessionStorage (restart w) = ∅) by done.
  assert (Heff : effects (restart w) = effects w) by done.
  assert (Hnet : initWalletNetwork (walletStore (restart w)) = DEFAULT_NETWORK)
    by done.
  set (w0 := restart w) in *. clearbody w0.
  rewrite Hst, Hss, !lookup_empty.
  rewrite (bool_decide_eq_false_2 (idle <> idle)) by (by intros []).
  cbn [andb]. rewrite bool_decide_eq_true_2 by done.
  destruct (getSessionMnemonic now w0).1 as [[[|c secret]|]|e]; cbn [snd].
  2:{ assert (Hw1 : effects (setInitializationStatus loading None w0).2
                     = effects w0
                     /\ initWalletNetwork
                          (walletStore (setInitializationStatus loading None w0).2)
                        = initWalletNetwork (walletStore w0)) by done.
      destruct Hw1 as [Heff1 Hnet1].
      set (w1 := (setInitializationStatus loading None w0).2) in *.
      clearbody w1.
      destruct (initWallet_post (c :: secret) w1)
        as (_ & _ & _ & -> & _ & _ & _ & Hend).
      rewrite Heff1, Hnet1, Heff, Hnet. split; [done|].
      by destruct Hend as [(-> & _)|(-> & _)]. }
  all: run_all; rewrite Heff; split; [done|]; try done.
  all: by destruct (truthy _).
Qed.

(** ** Invariants of the application *)

Section Invariants.
Context {engine : Engine} {crypto : WebCrypto} {sdk : SparkSdk}.

(** The three conditions depend on a part of the world only. *)
Lemma coherent_transfer w w' :
  isInitialized (walletStore w') = isInitialized (walletStore w) ->
  initializationStatus (walletStore w') = initializationStatus (walletStore w) ->
  wallet (walletStore w') = wallet (walletStore w) ->
  sessionStorage w' !! MNEMONIC_STORAGE_KEY
  = sessionStorage w !! MNEMONIC_STORAGE_KEY ->
  sessionStorage w' !! SEED_STORAGE_KEY = sessionStorage w !! SEED_STORAGE_KEY ->
  coherent w -> coherent w'.
Proof. unfold coherent. cbn zeta. by intros -> -> -> -> ->. Qed.

Lemma hydrated_transfer w w' :
  localStorage w' !! PERSIST_NAME = localStorage w !! PERSIST_NAME ->
  mnemonicStore w' = mnemonicStore w ->
  hydrated w -> hydrated w'.
Proof. unfold hydrated. by intros -> ->. Qed.

Lemma set_mnemonicStore_hydrated patch w :
  hydrated (set_mnemonicStore patch w).2.
Proof.
  unfold hydrated, set_mnemonicStore. run. fields.
  by rewrite lookup_insert_eq.
Qed.

(** The world that the deposit polling, a new deposit address and a run
    of [handleBalanceUpdate] leave differs from the one before in the
    watched set, the balances and the effects only. *)
Lemma l1Deposit_steady ledger w :
  let w' := (l1Deposit ledger w).2 in
  isInitialized (walletStore w') = isInitialized (walletStore w)
  /\ initializationStatus (walletStore w') = initializationStatus (walletStore w)
  /\ wallet (walletStore w') = wallet (walletStore w)
  /\ sessionStorage w' = sessionStorage w
  /\ localStorage w' = localStorage w /\ mnemonicStore w' = mnemonicStore w.
Proof.
  cbn zeta. rewrite l1Deposit_run.
  destruct (wallet (walletStore w)) as [opened|] eqn:Hw;
    [|cbn [snd]; by rewrite ?Hw].
  cbn zeta. destruct (firstRejection _); cbn [snd];
    [unfold afterCalls; fields; by rewrite ?Hw|].
  destruct (_ || _); unfold afterCalls; run_all; by rewrite ?Hw.
Qed.

Lemma getBitcoinDepositAddress_steady answer w :
  let w' := (getBitcoinDepositAddress answer w).2 in
  isInitialized (walletStore w') = isInitialized (walletStore w)
  /\ initializationStatus (walletStore w') = initializationStatus (walletStore w)
  /\ wallet (walletStore w') = wallet (walletStore w)
  /\ sessionStorage w' = sessionStorage w
  /\ localStorage w' = localStorage w /\ mnemonicStore w' = mnemonicStore w.
Proof.
  cbn zeta. unfold getBitcoinDepositAddress, getBitcoinDepositAddress_begin,
    getBitcoinDepositAddress_resume. run.
  destruct (wallet (walletStore w)) as [opened|] eqn:Hw;
    [|cbn [snd]; by rewrite ?Hw].
  destruct answer as [[|a address]|e]; run_all; by rewrite ?Hw.
Qed.

Lemma handleBalanceUpdate_steady before after hooked eventType eventId hint
    response w :
  let w' := (handleBalanceUpdate before after hooked eventType eventId hint
               response w).2 in
  isInitialized (walletStore w') = isInitialized (walletStore w)
  /\ initializationStatus (walletStore w') = initializationStatus (walletStore w)
  /\ wallet (walletStore w') = wallet (walletStore w)
  /\ sessionStorage w' = sessionStorage w
  /\ localStorage w' = localStorage w /\ mnemonicStore w' = mnemonicStore w.
Proof.
  cbn zeta. unfold handleBalanceUpdate. rewrite bind_run.
  rewrite handleBalanceUpdate_begin_run.
  destruct (before && _); [|done].
  unfold handleBalanceUpdate_resume.
  destruct response as [currentBalance|e]; [|done].
  destruct after; [|done]. cbn [negb previousBtcBalance balanceFromEvent].
  run_all.
  destruct (btcBalance (walletStore w)) as [previous|];
    [destruct (previous <? _)%Z|]; run_all;
    (destruct hint as [hint|]; [destruct (negb (_ =? hint)%Z)|]);
    by run_all.
Qed.

(** [initWallet] and [initWalletFromSeed] make the wallet store
    coherent. *)
Lemma initWallet_coherent secret w : coherent (initWallet secret w).2.
Proof.
  unfold coherent. cbn zeta.
  destruct (initWallet_post secret w)
    as (_ & _ & _ & _ & _ & _ & _ & [(-> & -> & _ & ? & _ & ->)|(-> & -> & _)]);
    [|done].
  split; [done|]. intros _. split; [done|]. left.
  rewrite lookup_insert_eq. by eexists.
Qed.

Lemma initWalletFromSeed_coherent seed w :
  coherent (initWalletFromSeed seed w).2.
Proof.
  unfold coherent. cbn zeta.
  destruct (initWalletFromSeed_post seed w)
    as (_ & _ & _ & _ & _ & _ & _ & _ & [(-> & -> & _ & ? & ->)|(-> & -> & _)]);
    [|done].
  split; [done|]. intros _. split; [done|]. right.
  rewrite lookup_insert_eq. by eexists.
Qed.

Lemma startSession_session_whole password now w :
  session_whole (mnemonicStore w) ->
  session_whole (mnemonicStore (startSession password now w).2).
Proof.
  intros Hw. rewrite startSession_run.
  destruct (getDecryptedMnemonic password w) as [[mnemonic|e] w0]; [|done].
  cbv zeta. destruct (spreads _); [|done].
  unfold session_whole. fields.
  cbn [session sessionKey expiresAt sessionEncryptedMnemonic].
  split; split; by eexists.
Qed.

Lemma startSession_hydrated password now w :
  hydrated w -> hydrated (startSession password now w).2.
Proof.
  intros Hw. rewrite startSession_run.
  destruct (getDecryptedMnemonic password w) as [[mnemonic|e] w0]; [|done].
  cbv zeta. destruct (spreads _); [|done].
  unfold hydrated. fields. by rewrite lookup_insert_eq.
Qed.

Lemma stores_transfer w w' :
  localStorage w' !! PERSIST_NAME = localStorage w !! PERSIST_NAME ->
  mnemonicStore w' = mnemonicStore w ->
  hydrated w /\ session_whole (mnemonicStore w) ->
  hydrated w' /\ session_whole (mnemonicStore w').
Proof. unfold hydrated. by intros -> ->. Qed.

Lemma no_session_whole (encrypted : option jsstring) :
  session_whole
    {| encryptedMnemonic := encrypted; sessionEncryptedMnemonic := None;
       session := {| sessionKey := None; expiresAt := None |} |}.
Proof.
  unfold session_whole.
  cbn [session sessionKey expiresAt sessionEncryptedMnemonic].
  split; split; by intros [? [=]].
Qed.

(** Every action, run to its end, keeps the mnemonic store and its copy
    in [localStorage] together, and the session whole. *)
Lemma act_stores a w :
  hydrated w /\ session_whole (mnemonicStore w) ->
  hydrated (act a w) /\ session_whole (mnemonicStore (act a w)).
Proof.
  intros Hw. pose proof Hw as [Hh Hs].
  destruct a as [network|opened|address|key|status err|balance tokens|addresses
                |m p|password now| | |m|seed|now| |answer|ledger
                |before after hooked eventType eventId hint response
                |password now later| | |password confirmPassword|m| |];
    cbn [act].
  1-7: by eapply stores_transfer; [..|exact Hw].
  - (* saveEncryptedMnemonic *)
    rewrite saveEncryptedMnemonic_run. cbn zeta.
    destruct (spreads _); [|done]. cbn [snd]. split; [|done].
    unfold hydrated. fields. by rewrite lookup_insert_eq.
  - (* startSession *)
    split; [by apply startSession_hydrated|by apply startSession_session_whole].
  - (* endSession *)
    split; [apply set_mnemonicStore_hydrated|].
    unfold endSession, set_mnemonicStore. run. fields.
    apply no_session_whole.
  - (* clearEncryptedMnemonic *)
    split; [apply set_mnemonicStore_hydrated|].
    unfold clearEncryptedMnemonic, set_mnemonicStore. run. fields.
    apply no_session_whole.
  - (* initWallet *)
    destruct (initWallet_post m w) as (_ & Hls & Hms & _).
    eapply stores_transfer; [..|exact Hw]; by rewrite ?Hls.
  - (* initWalletFromSeed *)
    destruct (initWalletFromSeed_post seed w) as (_ & Hls & Hms & _).
    eapply stores_transfer; [..|exact Hw]; by rewrite ?Hls.
  - (* loadStoredWallet *)
    destruct (loadStoredWallet_frame now w) as (_ & Hls & Hms & _).
    eapply stores_transfer; [..|exact Hw]; by rewrite ?Hls.
  - (* resetWallet *)
    rewrite resetWallet_run. cbn [snd].
    eapply stores_transfer; [..|exact Hw]; fields; [|done].
    by rewrite lookup_delete_ne by done.
  - (* getBitcoinDepositAddress *)
    destruct (getBitcoinDepositAddress_steady answer w)
      as (_ & _ & _ & _ & H5 & H6).
    eapply stores_transfer; [..|exact Hw]; by rewrite ?H5.
  - (* l1Deposit *)
    destruct (l1Deposit_steady ledger w) as (_ & _ & _ & _ & H5 & H6).
    eapply stores_transfer; [..|exact Hw]; by rewrite ?H5.
  - (* handleBalanceUpdate *)
    destruct (handleBalanceUpdate_steady before after hooked eventType
                eventId hint response w)
      as (_ & _ & _ & _ & H5 & H6).
    eapply stores_transfer; [..|exact Hw]; by rewrite ?H5.
  - (* handleUnlock *)
    rewrite handleUnlock_run.
    pose proof (startSession_hydrated password now w Hh) as Hh1.
    pose proof (startSession_session_whole password now w Hs) as Hs1.
    destruct (startSession password now w) as [[[]|e] w1]; [|done].
    cbn [snd] in *. cbn zeta. cbn [snd].
    destruct (loadStoredWallet_frame later w1) as (_ & Hls & Hms & _).
    eapply stores_transfer; [..|exact (conj Hh1 Hs1)]; by rewrite ?Hls.
  - (* performReset *)
    rewrite performReset_run. cbn [snd]. split.
    + unfold hydrated. fields. by rewrite lookup_insert_eq.
    + fields. apply no_session_whole.
  - (* handleLogout *)
    rewrite handleLogout_run. cbn zeta. cbn [snd]. split.
    + unfold hydrated. fields. by rewrite lookup_insert_eq.
    + fields. apply no_session_whole.
  - (* handleCreateWallet *)
    rewrite handleCreateWallet_run.
    destruct (negb _); [done|]. destruct (_ <? _)%nat; [done|].
    destruct (sessionStorage w !! PENDING_MNEMONIC) as [[|c pending]|];
      [done| |done].
    rewrite saveEncryptedMnemonic_run. cbn zeta.
    destruct (spreads _); [|done]. cbn [snd].
    match goal with |- context [initWallet _ ?w1] =>
      destruct (initWallet_post (c :: pending) w1) as (_ & Hls & Hms & _);
      set (w2 := (initWallet (c :: pending) w1).2) in * end.
    clearbody w2. unfold sessionStorage_removeItem, modify. cbn [snd].
    split.
    + unfold hydrated. fields. rewrite Hls, Hms. fields.
      by rewrite lookup_insert_eq.
    + fields. by rewrite Hms.
  - (* the create page stores the phrase *)
    by run_all.
  - (* reload *)
    unfold reload. split; [done|]. fields. by rewrite Hh.
  - (* restart *)
    unfold restart. split; [done|]. fields. by rewrite Hh.
Qed.

(** Every action but the two bare ones, run to its end, keeps the wallet
    store coherent. *)
Lemma act_coherent a w :
  bare a = false -> coherent w -> coherent (act a w).
Proof.
  intros Hbare Hc.
  destruct a as [network|opened|address|key|status err|balance tokens|addresses
                |m p|password now| | |m|seed|now| |answer|ledger
                |before after hooked eventType eventId hint response
                |password now later| | |password confirmPassword|m| |];
    cbn [act].
  - (* setInitWalletNetwork *)
    by eapply coherent_transfer; [..|exact Hc].
  - (* setWallet *)
    done.
  - (* setSparkAddress *)
    by eapply coherent_transfer; [..|exact Hc].
  - (* setPubkey *)
    by eapply coherent_transfer; [..|exact Hc].
  - (* setInitializationStatus, not to success *)
    unfold coherent. run_all. cbn [isInitialized]. split; [done|].
    intros ->. done.
  - (* setBalance *)
    by eapply coherent_transfer; [..|exact Hc].
  - (* setOnchainDepositAddresses *)
    by eapply coherent_transfer; [..|exact Hc].
  - (* saveEncryptedMnemonic *)
    rewrite saveEncryptedMnemonic_run. cbn zeta.
    destruct (spreads _); cbn [snd]; by eapply coherent_transfer; [..|exact Hc].
  - (* startSession *)
    destruct (startSession_frame password now w) as (Hws & Hss & _).
    eapply coherent_transfer; [..|exact Hc]; by rewrite ?Hws, ?Hss.
  - (* endSession *)
    by eapply coherent_transfer; [..|exact Hc].
  - (* clearEncryptedMnemonic *)
    by eapply coherent_transfer; [..|exact Hc].
  - (* initWallet *)
    apply initWallet_coherent.
  - (* initWalletFromSeed *)
    apply initWalletFromSeed_coherent.
  - (* loadStoredWallet *)
    by apply loadStoredWallet_coherent.
  - (* resetWallet *)
    rewrite resetWallet_run. cbn [snd]. done.
  - (* getBitcoinDepositAddress *)
    destruct (getBitcoinDepositAddress_steady answer w)
      as (H1 & H2 & H3 & H4 & _).
    eapply coherent_transfer; [..|exact Hc]; by rewrite ?H4.
  - (* l1Deposit *)
    destruct (l1Deposit_steady ledger w) as (H1 & H2 & H3 & H4 & _).
    eapply coherent_transfer; [..|exact Hc]; by rewrite ?H4.
  - (* handleBalanceUpdate *)
    destruct (handleBalanceUpdate_steady before after hooked eventType
                eventId hint response w)
      as (H1 & H2 & H3 & H4 & _).
    eapply coherent_transfer; [..|exact Hc]; by rewrite ?H4.
  - (* handleUnlock *)
    rewrite handleUnlock_run.
    destruct (startSession_frame password now w) as (Hws & Hss & _).
    destruct (startSession password now w) as [[[]|e] w1]; cbn [snd] in *.
    + cbn zeta. cbn [snd]. apply loadStoredWallet_coherent.
      eapply coherent_transfer; [..|exact Hc]; by rewrite ?Hws, ?Hss.
    + eapply coherent_transfer; [..|exact Hc]; by rewrite ?Hws, ?Hss.
  - (* performReset *)
    rewrite performReset_run. cbn [snd]. done.
  - (* handleLogout *)
    rewrite handleLogout_run. cbn zeta. cbn [snd]. done.
  - (* handleCreateWallet *)
    rewrite handleCreateWallet_run.
    destruct (negb _); [done|]. destruct (_ <? _)%nat; [done|].
    destruct (sessionStorage w !! PENDING_MNEMONIC) as [[|c pending]|];
      [done| |done].
    rewrite saveEncryptedMnemonic_run. cbn zeta.
    destruct (spreads _); cbn [snd];
      [|by eapply coherent_transfer; [..|exact Hc]].
    match goal with |- context [initWallet _ ?w1] =>
      pose proof (initWallet_coherent (c :: pending) w1) as Hc2;
      set (w2 := (initWallet (c :: pending) w1).2) in * end.
    clearbody w2. unfold sessionStorage_removeItem, modify. cbn [snd].
    eapply coherent_transfer; [..|exact Hc2]; fields; try done;
      by rewrite lookup_delete_ne.
  - (* the create page stores the phrase *)
    run_all.
    eapply coherent_transfer; [..|exact Hc]; fields; try done;
      by rewrite lookup_insert_ne.
  - (* reload *)
    unfold reload. done.
  - (* restart *)
    unfold restart, coherent. fields. split; [done|]. done.
Qed.
End Invariants.

(** X16. Whatever the application does, from its first start on, with
    each action run to its end before the next one starts. A restart
    finds in [localStorage] exactly the mnemonic store that was in
    memory, and the session is whole or absent. And as long as the store
    is not written by one of the two bare actions ([setWallet] and
    [setInitializationStatus("success")] called on their own), the wallet
    store stays coherent: [isInitialized] says whether the status is
    [success], and under [success] a wallet is in the store and its secret
    is cached in [sessionStorage], so that the layout shows the
    application only with a wallet in the store. *)
Theorem app_invariants {engine : Engine} {crypto : WebCrypto} {sdk : SparkSdk}
    (actions : list AppAction) (g : Rng) :
  let w := actAll actions (initialWorld g) in
  mnemonicStore (restart w) = mnemonicStore w
  /\ session_whole (mnemonicStore w)
  /\ (forallb (fun a => negb (bare a)) actions = true ->
      coherent w
      /\ (MainAppLayout_view (initializationStatus (walletStore w))
            (initializationError (walletStore w)) = ViewApp ->
          is_Some (wallet (walletStore w)))).
Proof.
  cbn zeta.
  assert (Hinv : hydrated (actAll actions (initialWorld g))
                 /\ session_whole (mnemonicStore (actAll actions (initialWorld g)))
                 /\ (forallb (fun a => negb (bare a)) actions = true ->
                     coherent (actAll actions (initialWorld g)))).
  { unfold actAll.
    induction actions as [|a actions IH] using rev_ind.
    - split_and!; [done|apply no_session_whole|done].
    - rewrite foldl_app. cbn [foldl]. destruct IH as (Hh & Hs & Hc).
      destruct (act_stores a _ (conj Hh Hs)) as [Hh' Hs'].
      split_and!; [done|done|].
      rewrite forallb_app. cbn [forallb]. rewrite andb_true_r.
      intros [Hall Ha%negb_true_iff]%andb_true_iff.
      by apply act_coherent; [|apply Hc]. }
  destruct Hinv as (Hh & Hs & Hc). split_and!; [done|done|].
  intros Hall. specialize (Hc Hall). split; [done|].
  destruct Hc as [_ Hc]. intros Hview. apply Hc.
  by destruct (initializationStatus _).
Qed.

(** ** An action between the parts of another *)

Section InitWalletPartsFacts.
Context {sdk : SparkSdk}.

(** The two parts, one after the other, are [initWallet]. *)
Lemma initWallet_parts phrase w :
  initWallet phrase w =
  match initWallet_begin phrase w with
  | (Ok (Some opened), w1) => initWallet_resume phrase opened w1
  | (Ok None, w1) => (Ok tt, w1)
  | (Throw e, w1) => (Throw e, w1)
  end.
Proof.
  unfold initWallet, initWallet_begin, initWallet_resume, openWallet.
  run_store.
  destruct (SparkWallet_initialize phrase _) as [opened|e]; [|done].
  run_store.
  destruct (getSparkAddress opened) as [address|e]; [|done]. run_store.
  destruct (getIdentityPublicKey opened) as [key|e]; [|done]. run_store.
  by destruct (getUnusedDepositAddresses opened) as [unused|e].
Qed.

(** The first part when the ledger client opens the wallet. *)
Lemma initWallet_begin_run phrase w opened :
  SparkWallet_initialize phrase (initWalletNetwork (walletStore w)) = Ok opened ->
  initWallet_begin phrase w
  = (Ok (Some opened),
     (set_walletStore (withWallet opened)
        (perform (SdkInitialize phrase (initWalletNetwork (walletStore w))) w).2).2).
Proof. intros Hopen. unfold initWallet_begin. run_store. by rewrite Hopen. Qed.

(** The second part when the wallet answers, on a store that was reset
    in between. *)
Lemma initWallet_resume_after_reset phrase w opened address key unused :
  getSparkAddress opened = Ok address ->
  getIdentityPublicKey opened = Ok key ->
  getUnusedDepositAddresses opened = Ok unused ->
  initWallet_resume phrase opened (resetWallet w).2
  = (Ok tt,
     {| rng := rng w; localStorage := delete STORAGE_KEY (localStorage w);
        sessionStorage :=
          <[MNEMONIC_STORAGE_KEY := phrase]>
            (delete STORAGE_KEY
               (delete SEED_STORAGE_KEY
                  (delete MNEMONIC_STORAGE_KEY (sessionStorage w))));
        mnemonicStore := mnemonicStore w;
        walletStore :=
          {| wallet := None; sparkAddress := address; pubkey := key;
             initWalletNetwork := initWalletNetwork (walletStore w);
             mnemonic := Some phrase; isInitialized := true;
             initializationStatus := success; initializationError := None;
             onchainDepositAddresses := list_to_set unused;
             btcBalance := None; tokenBalances := ∅ |};
        effects := effects w |}).
Proof.
  intros Haddress Hkey Hunused. rewrite resetWallet_run. cbn [snd].
  unfold initWallet_resume. run_store.
  rewrite Haddress. run_store. rewrite Hkey. run_store. rewrite Hunused.
  run_store. unfold withMnemonic. cbn [wallet sparkAddress pubkey
    initWalletNetwork mnemonic isInitialized initializationStatus
    initializationError onchainDepositAddresses btcBalance tokenBalances].
  by rewrite bool_decide_eq_true_2.
Qed.
End InitWalletPartsFacts.

(** X28. The coherence of the wallet store does not survive an action that
    runs between the parts of another. When [resetWallet] runs while
    [initWallet] waits for the address of the wallet it has just opened,
    [initWallet] goes on with its local wallet and ends in [success]: the
    status says [success] and the layout shows the application, the phrase
    is cached in [sessionStorage] and in the store, but the store holds no
    wallet, so the deposit polling and the balance effect do nothing. *)
Theorem reset_during_initWallet {sdk : SparkSdk} (phrase : jsstring)
    (w : World) (opened : SparkWallet) (address key : string)
    (unused : list string) (ledger : Ledger) :
  SparkWallet_initialize phrase (initWalletNetwork (walletStore w)) = Ok opened ->
  getSparkAddress opened = Ok address ->
  getIdentityPublicKey opened = Ok key ->
  getUnusedDepositAddresses opened = Ok unused ->
  let started := initWallet_begin phrase w in
  let w' := (initWallet_resume phrase opened (resetWallet started.2).2).2 in
  let s' := walletStore w' in
  started.1 = Ok (Some opened)
  /\ wallet (walletStore started.2) = Some opened
  /\ initializationStatus s' = success /\ isInitialized s' = true
  /\ wallet s' = None
  /\ mnemonic s' = Some phrase
  /\ sessionStorage w' !! MNEMONIC_STORAGE_KEY = Some phrase
  /\ MainAppLayout_view (initializationStatus s') (initializationError s')
     = ViewApp
  /\ l1Deposit ledger w' = (Ok None, w')
  /\ balanceEffect w' = (Ok None, w')
  /\ ~ coherent w'.
Proof.
  intros Hopen Haddress Hkey Hunused. cbn zeta.
  rewrite (initWallet_begin_run _ _ _ Hopen). cbn [fst snd].
  rewrite (initWallet_resume_after_reset _ _ _ _ _ _ Haddress Hkey Hunused).
  cbn [fst snd]. set (w' := {| rng := _ |}).
  assert (Hwallet : wallet (walletStore w') = None) by done.
  assert (Hstatus : initializationStatus (walletStore w') = success) by done.
  split; [done|]. split; [done|]. split; [done|]. split; [done|].
  split; [done|]. split; [done|]. split; [apply lookup_insert_eq|].
  split; [done|]. clearbody w'. split; [|split].
  - by rewrite l1Deposit_run, Hwallet.
  - unfold balanceEffect. rewrite bind_run. unfold gets. cbn beta iota.
    rewrite Hwallet.
    by rewrite (bool_decide_eq_false_2 (is_Some None)) by apply is_Some_None.
  - unfold coherent. intros [_ Hc].
    destruct (Hc Hstatus) as [[? Hw] _]. by rewrite Hwallet in Hw.
Qed.

(** ** lib/crypto *)

(** X4. [encryptMnemonic] throws when the salt, the IV and the ciphertext
    together are more bytes than a call may have arguments: a
    [RangeError], and nothing else. Otherwise its envelope is the base64
    text of a 16-byte salt, a 12-byte IV and the AES-GCM ciphertext of the
    encoded phrase, in this order, under the key that PBKDF2 derives from
    the encoded password and the salt (100000 rounds of SHA-256); [atob]
    reads these bytes back, and the envelope is never empty. Either way
    the salt and the IV are 28 fresh bytes of entropy: the next call draws
    the bytes after them. *)
Theorem encryptMnemonic_envelope {engine : Engine} {crypto : WebCrypto}
    (mnemonic password : jsstring) (g : Rng) :
  let r := encryptMnemonic mnemonic password g in
  let salt := map (entropy g) (seq (cursor g) 16) in
  let iv := map (entropy g) (seq (cursor g + 16) 12) in
  let key :=
    PBKDF2_deriveKey (TextEncoder_encode password) salt 100000 "SHA-256" 256 in
  let ciphertext := AES_GCM_encrypt key iv (TextEncoder_encode mnemonic) in
  (if (N.of_nat (length (salt ++ iv ++ ciphertext)) <=? maxArguments)%N
   then exists envelope,
          r.1 = Ok envelope
          /\ truthy (Some envelope) = true
          /\ Base64.atob envelope
             = Ok (String_fromCharCode (salt ++ iv ++ ciphertext))
   else r.1 = Throw (RangeError RangeError_message))
  /\ entropy r.2 = entropy g
  /\ cursor r.2 = cursor g + 28
  /\ (getRandomValues 16 r.2).1
     = map (entropy g) (seq (cursor g + 28) 16).
Proof.
  cbn zeta. rewrite encryptMnemonic_run. cbn [fst snd]. split.
  - change (N.of_nat (length ?l) <=? maxArguments)%N with (spreads l).
    change (map (entropy g) (seq (cursor g) 16)
            ++ map (entropy g) (seq (cursor g + 16) 12)
            ++ AES_GCM_encrypt
                 (PBKDF2_deriveKey (TextEncoder_encode password)
                    (map (entropy g) (seq (cursor g) 16)) 100000 "SHA-256" 256)
                 (map (entropy g) (seq (cursor g + 16) 12))
                 (TextEncoder_encode mnemonic))
      with (sealed mnemonic password g).
    destruct (spreads _); [|done]. eexists. split; [done|].
    split; [apply sealed_envelope_truthy|].
    by rewrite Base64Facts.atob_encode by apply String_fromCharCode_octets.
  - unfold getRandomValues. cbn [fst snd entropy cursor].
    split_and!; [done|lia|]. do 2 f_equal. lia.
Qed.

(** ** The currencies *)

Module CurrenciesFacts.
Import Currencies.

(** Setting the entries of one map in another, one by one, gives their
    union, the new entries winning. *)
Lemma forEach_set (newAssets current : gmap string Currency) :
  map_fold (fun key value m => <[key := value]> m) current newAssets
  = newAssets ∪ current.
Proof.
  apply (map_fold_weak_ind (fun r m => r = m ∪ current)).
  - by rewrite (left_id_L ∅ (∪)).
  - intros i x m r _ ->. by rewrite insert_union_l.
Qed.

(** The store's [assets] is always the object of [PERMANENT_CURRENCIES],
    and that object never loses a key. *)
Lemma assets_alias_permanent actions :
  let s := actAll actions initial in
  assets s = PERMANENT_CURRENCIES
  /\ forall key, is_Some (permanent !! key) ->
                 is_Some (deref (heap s) PERMANENT_CURRENCIES !! key).
Proof.
  cbn zeta. unfold actAll.
  induction actions as [|a actions [IH1 IH2]] using rev_ind.
  { split; [done|]. intros key Hkey. unfold deref. cbn [foldl initial heap].
    by rewrite lookup_singleton_eq. }
  rewrite foldl_app. cbn [foldl].
  destruct a as [currency|asset|newAssets|]; cbn [act]; try done.
  unfold updateAssets. cbn [assets heap]. rewrite IH1. split; [done|].
  intros key Hkey. unfold deref at 1. rewrite lookup_insert_eq. cbn [default].
  rewrite forEach_set. apply lookup_union_is_Some. right. by apply IH2.
Qed.
End CurrenciesFacts.

(** X27. [updateAssets] changes the map of [PERMANENT_CURRENCIES] itself, the
    store's [assets] being that very object. So [resetWallet] does not
    bring the currencies back: after any use of the store, an
    [updateAssets] followed by [resetWallet] leaves the new entries in
    [assets], over the old ones, and the active asset and input currency
    that the reset picks are the entries now under "BTC" and "USD". These
    keys are never missing, so the two default currencies are never
    used. *)
Theorem resetWallet_keeps_updated_assets (actions : list Currencies.Action)
    (newAssets : gmap string Currencies.Currency) :
  let s := Currencies.actAll actions Currencies.initial in
  let current := Currencies.deref (Currencies.heap s) (Currencies.assets s) in
  let s' := Currencies.resetWallet_currencies (Currencies.updateAssets newAssets s) in
  let assets' := Currencies.deref (Currencies.heap s') (Currencies.assets s') in
  Currencies.assets s = Currencies.PERMANENT_CURRENCIES
  /\ assets' = newAssets ∪ current
  /\ (exists btc usd,
        assets' !! "BTC" = Some btc /\ Currencies.activeAsset s' = btc
        /\ assets' !! "USD" = Some usd
        /\ Currencies.activeInputCurrency s' = usd)
  /\ forall asset, newAssets !! "BTC" = Some asset ->
                   Currencies.activeAsset s' = asset.
Proof.
  cbn zeta.
  destruct (CurrenciesFacts.assets_alias_permanent actions) as [Halias Hkeys].
  set (s := Currencies.actAll actions Currencies.initial) in *.
  unfold Currencies.resetWallet_currencies, Currencies.updateAssets.
  cbn [Currencies.heap Currencies.assets Currencies.activeAsset
       Currencies.activeInputCurrency].
  rewrite Halias.
  assert (Hderef : forall h x,
            Currencies.deref (<[Currencies.PERMANENT_CURRENCIES := x]> h)
              Currencies.PERMANENT_CURRENCIES = x).
  { intros h x. unfold Currencies.deref. by rewrite lookup_insert_eq. }
  rewrite !Hderef, CurrenciesFacts.forEach_set.
  set (current := Currencies.deref (Currencies.heap s)
                    Currencies.PERMANENT_CURRENCIES) in *.
  assert (Hbtc : is_Some ((newAssets ∪ current) !! "BTC")).
  { apply lookup_union_is_Some. right. apply Hkeys. by vm_compute; eexists. }
  assert (Husd : is_Some ((newAssets ∪ current) !! "USD")).
  { apply lookup_union_is_Some. right. apply Hkeys. by vm_compute; eexists. }
  destruct Hbtc as [btc Hbtc], Husd as [usd Husd].
  split_and!; try done.
  - exists btc, usd. unfold Currencies.getCurrency.
    by rewrite Hbtc, Husd.
  - intros asset Hasset. unfold Currencies.getCurrency.
    by rewrite (lookup_union_Some_l _ _ _ _ Hasset).
Qed.

(** ** The create page *)

Module CreatePageFacts.
Import CreatePage.

Lemma trimStart_end l c :
  is_white_space c = false -> exists u, trimStart (l ++ [c]) = u ++ [c].
Proof.
  intros Hc. induction l as [|d l [u IH]]; cbn [app trimStart].
  - rewrite Hc. by exists [].
  - destruct (is_white_space d); [by exists u|]. by exists (d :: l).
Qed.

(** A trimmed string does not start with white space; U+FEFF is white
    space. *)
Lemma trim_head s :
  match trim s with
  | c :: _ => is_white_space c = false
  | [] => True
  end.
Proof.
  unfold trim.
  assert (Hstart : match trimStart s with
                   | c :: _ => is_white_space c = false
                   | [] => True
                   end).
  { induction s as [|c s IH]; [done|]. cbn [trimStart].
    by destruct (is_white_space c) eqn:E. }
  destruct (trimStart s) as [|c t]; [done|].
  cbn [rev]. destruct (trimStart_end (rev t) c Hstart) as [u ->].
  by rewrite rev_app_distr.
Qed.

Lemma trim_no_bom s : has_bom (trim s) = false.
Proof.
  pose proof (trim_head s) as H. destruct (trim s) as [|c t]; [done|].
  destruct (N.eq_dec c 0xFEFF%N) as [->|Hne]; [done|].
  unfold has_bom.
  repeat (match goal with
          | |- match ?x with _ => _ end = _ => destruct x; try done
          end).
Qed.

Section PageFacts.
Variable validateMnemonic : jsstring -> bool.

Lemma step_settled generated s ev :
  settled validateMnemonic generated s -> settled validateMnemonic generated (step validateMnemonic s ev).
Proof.
  intros [Hg Hv]. unfold settled.
  destruct ev as [value| | |checked]; cbn [step].
  - unfold handleInputChange. case_bool_decide as Heq.
    + cbn [mode timer isValidInput inputMnemonic generatedMnemonic].
      split; [done|]. rewrite Heq. exact Hv.
    + unfold effect. cbn [mode].
      destruct (mode s);
        cbn [mode timer isValidInput inputMnemonic generatedMnemonic].
      all: by split.
  - unfold handler. destruct (timer s) eqn:Et; [|by split; [done|]; auto].
    cbn zeta. destruct (trim (inputMnemonic s)) as [|c t] eqn:E;
      cbn [mode timer isValidInput inputMnemonic generatedMnemonic];
      [by split|].
    split; [done|]. rewrite E. by intros _ _ [= ->].
  - unfold handleToggleMode, effect. cbn [mode].
    destruct (mode s);
      cbn [mode timer isValidInput inputMnemonic generatedMnemonic];
      by split.
  - unfold confirmSave.
    destruct (mode s) eqn:Em;
      [cbn [mode timer isValidInput inputMnemonic generatedMnemonic];
       by split|].
    destruct (isValidInput s) as [[|]|] eqn:Ei;
      cbn [mode timer isValidInput inputMnemonic generatedMnemonic];
      rewrite ?Em, ?Ei; split; try done.
    all: intros ? ? ?; by apply Hv.
Qed.

Lemma run_settled generated events :
  settled validateMnemonic generated (run validateMnemonic events (mount generated)).
Proof.
  unfold run. induction events as [|ev events IH] using rev_ind.
  - by split.
  - rewrite foldl_app. cbn [foldl]. by apply step_settled.
Qed.
End PageFacts.
End CreatePageFacts.

(** X14. Whatever the user has done on the create page, [Continue] stores a
    phrase under [pending_mnemonic] and routes to the password page only
    if the check box is ticked; otherwise it changes nothing outside the
    page. In generate mode it stores the generated phrase. In input mode it
    stores the trimmed input, which never starts with U+FEFF, and only
    while the input is marked valid; the mark is the answer of
    [validateMnemonic] for this very input unless the timer of the
    validation still waits (then it may be the answer for an earlier
    input). *)
Theorem handleContinue_stores_validated_phrase
    (validateMnemonic : jsstring -> bool) (generated : jsstring)
    (events : list CreatePage.Event) (w : World) :
  let s := CreatePage.run validateMnemonic events (CreatePage.mount generated) in
  let r := CreatePage.handleContinue s w in
  match r.1 with
  | Ok (_, Some route) =>
      route = "/set-password"
      /\ CreatePage.hasConfirmedSave s = true
      /\ match CreatePage.mode s with
         | CreatePage.generate =>
             sessionStorage r.2 !! PENDING_MNEMONIC = Some generated
         | CreatePage.input =>
             let stored := CreatePage.trim (CreatePage.inputMnemonic s) in
             sessionStorage r.2 !! PENDING_MNEMONIC = Some stored
             /\ has_bom stored = false
             /\ CreatePage.isValidInput s = Some true
             /\ (CreatePage.timer s = false -> validateMnemonic stored = true)
         end
  | Ok (_, None) => r.2 = w
  | Throw _ => False
  end.
Proof.
  cbn zeta.
  destruct (CreatePageFacts.run_settled validateMnemonic generated events)
    as [Hg Hv].
  set (s := CreatePage.run validateMnemonic events (CreatePage.mount generated))
    in *.
  unfold CreatePage.handleContinue.
  destruct (CreatePage.hasConfirmedSave s) eqn:Hc; cbn [negb]; [|done].
  destruct (CreatePage.mode s) eqn:Hm.
  - run_all. split_and!; try done. by rewrite lookup_insert_eq, Hg.
  - case_bool_decide as Hvalid; cbn [negb]; [|done].
    run_all. split_and!; try done.
    + by rewrite lookup_insert_eq.
    + apply CreatePageFacts.trim_no_bom.
    + intros Ht. by apply Hv.
Qed.

(** * The further properties on concrete data *)

Module Cases.
Import Standin StandinFacts Samples.

(** A phrase saved under [hunter22] on a new device. *)
Lemma saved_phrase_is_recovered_witness :
  let S := js "abandon ability able about" in
  let P := js "hunter22" in
  let saved := saveEncryptedMnemonic S P (initialWorld rng0) in
  Utf16.well_formed S = true /\ has_bom S = false
  /\ spreads (sealed S P rng0) = true
  /\ saved.1 = Ok tt
  /\ getDecryptedMnemonic P saved.2 = (Ok S, saved.2)
  /\ getDecryptedMnemonic P (restart saved.2) = (Ok S, restart saved.2).
Proof.
  intros S P saved.
  split; [reflexivity|]. split; [reflexivity|]. split; [reflexivity|].
  exact (saved_phrase_is_recovered (laws := laws) S P (initialWorld rng0)
           eq_refl eq_refl).
Defined.

(** The wallet set up from the password page, reloaded long after. *)
Lemma reload_reopens_from_cache_witness :
  let secret := js "abandon ability able" in
  let opened := (initWallet secret (initialWorld rng0)).2 in
  initializationStatus (walletStore opened) = success
  /\ truthy (Some secret) = true
  /\ effects (loadStoredWallet 99999999 (reload (endSession opened).2)).2
     = effects (endSession opened).2 ++ [SdkInitialize secret DEFAULT_NETWORK].
Proof.
  split; [vm_compute; reflexivity|]. split; [reflexivity|].
  apply (reload_reopens_from_cache (js "abandon ability able")
           (initialWorld rng0)); vm_compute; reflexivity.
Defined.

Lemma rejectingLedger_answers x e :
  getLatestDepositTxId rejectingLedger x <> Throw e.
Proof. done. Qed.

(** A new address is generated while a cycle claims the deposit under
    [bc1qb]: the cycle's write drops it. *)
Lemma l1Deposit_drops_address_added_meanwhile_witness :
  let w1 := (getBitcoinDepositAddress (Ok "bc1qnew") openWorld).2 in
  let cycle :=
    l1Deposit_closure rejectingLedger (wallet (walletStore openWorld))
      (onchainDepositAddresses (walletStore openWorld)) w1 in
  "bc1qnew" ∈ onchainDepositAddresses (walletStore w1)
  /\ cycle.1 = Ok (Some true)
  /\ elements (onchainDepositAddresses (walletStore cycle.2)) = ["bc1qa"].
Proof.
  destruct (l1Deposit_drops_address_added_meanwhile rejectingLedger openWorld
              wallet0 "bc1qnew" "bc1qb") as (_ & Hin & Hr & _).
  - reflexivity.
  - apply (bool_decide_unpack _). vm_compute. exact I.
  - apply (bool_decide_unpack _). vm_compute. exact I.
  - vm_compute. reflexivity.
  - intros x _ e. apply rejectingLedger_answers.
  - split; [exact Hin|]. split; [exact Hr|]. vm_compute. reflexivity.
Defined.

(** The cycle in which the claim under [bc1qa] is rejected and the one
    under [bc1qb] succeeds. *)
Lemma l1Deposit_reports_claims_witness :
  wallet (walletStore openWorld) = Some wallet0
  /\ exists claimedSomething,
       (l1Deposit rejectingLedger openWorld).1 = Ok (Some claimedSomething)
       /\ (claimedSomething = true
           <-> exists x, x ∈ onchainDepositAddresses (walletStore openWorld)
                         /\ claimTask rejectingLedger x = TaskClaimed)
       /\ (claimedSomething = false ->
           walletStore (l1Deposit rejectingLedger openWorld).2
           = walletStore openWorld).
Proof.
  split; [reflexivity|].
  apply (l1Deposit_reports_claims rejectingLedger openWorld wallet0);
    [reflexivity|].
  intros x _ e. apply rejectingLedger_answers.
Defined.

Lemma l1Deposit_claim_failures_isolated_witness :
  wallet (walletStore openWorld) = Some wallet0
  /\ exists claimedSomething,
       (l1Deposit rejectingLedger openWorld).1 = Ok (Some claimedSomething)
       /\ forall x,
            x ∈ onchainDepositAddresses
                  (walletStore (l1Deposit rejectingLedger openWorld).2)
            <-> x ∈ onchainDepositAddresses (walletStore openWorld)
                /\ claimTask rejectingLedger x <> TaskClaimed.
Proof.
  split; [reflexivity|].
  apply (l1Deposit_claim_failures_isolated rejectingLedger openWorld wallet0);
    [reflexivity|].
  intros x _ e. apply rejectingLedger_answers.
Defined.

(** The cycle in which the query for [bc1qa] rejects. *)
Lemma l1Deposit_query_rejected_witness :
  wallet (walletStore openWorld) = Some wallet0
  /\ "bc1qa" ∈ onchainDepositAddresses (walletStore openWorld)
  /\ getLatestDepositTxId partialLedger "bc1qa"
     = Throw (Error "Network request failed")
  /\ exists e', (l1Deposit partialLedger openWorld).1 = Throw e'
                /\ walletStore (l1Deposit partialLedger openWorld).2
                   = walletStore openWorld.
Proof.
  assert (Hin : "bc1qa" ∈ onchainDepositAddresses (walletStore openWorld)).
  { apply (bool_decide_unpack _). vm_compute. exact I. }
  split; [reflexivity|]. split; [exact Hin|]. split; [reflexivity|].
  apply (l1Deposit_query_rejected partialLedger openWorld wallet0 eq_refl
           "bc1qa" (Error "Network request failed") Hin eq_refl).
Defined.

(** With 1000 in the store, fetches of 1500, 800 and 2000 in turn. *)
Lemma serial_runs_toast_each_increase_witness :
  isMounted reconciler0 = true /\ is_Some (hookWallet reconciler0)
  /\ inFlight reconciler0 = []
  /\ btcBalance (walletStore openWorld) = Some 1000%Z
  /\ exists w',
       reconcilerRun (serial threeRuns) reconciler0 openWorld
       = (Ok reconciler0, w')
       /\ toasts (effects w') = [500%Z; 1200%Z]
       /\ btcBalance (walletStore w') = Some 2000%Z.
Proof.
  split; [reflexivity|]. split; [by eexists|]. split; [reflexivity|].
  split; [reflexivity|].
  destruct (serial_runs_toast_each_increase reconciler0 openWorld threeRuns
              1000 eq_refl (ex_intro _ wallet0 eq_refl) eq_refl eq_refl)
    as (w' & Hrun & Htoasts & Hlast & _).
  exists w'. split; [exact Hrun|]. split; [exact Htoasts|exact Hlast].
Defined.

(** The locked wallet and the wrong password [hunter23]; and a device
    whose vault is not base64 text, where the message is the one the
    engine gives. *)
Lemma unlock_failure_changes_nothing_witness :
  (startSession (js "hunter23") 1000 lockedWorld).1
  = Throw (Error "Invalid password")
  /\ handleUnlock (js "hunter23") 1000 2000 lockedWorld
     = (Ok (UnlockFailed "Invalid password"), lockedWorld)
  /\ (startSession (js "hunter22") 1000 corruptWorld).1
     = Throw (DOMException "InvalidCharacterError" "Invalid character")
  /\ handleUnlock (js "hunter22") 1000 2000 corruptWorld
     = (Ok (UnlockFailed "Invalid character"), corruptWorld).
Proof.
  assert (H : (startSession (js "hunter23") 1000 lockedWorld).1
              = Throw (Error "Invalid password")) by (vm_compute; reflexivity).
  assert (H' : (startSession (js "hunter22") 1000 corruptWorld).1
               = Throw (DOMException "InvalidCharacterError" "Invalid character"))
    by (vm_compute; reflexivity).
  split; [exact H|]. split; [|split; [exact H'|]].
  - destruct (unlock_failure_changes_nothing (js "hunter23") 1000 2000
                lockedWorld (Error "Invalid password") H)
      as [[He _]|[[He _]|[[_ Hr]|[He _]]]];
      [discriminate He|discriminate He|exact Hr|discriminate He].
  - destruct (unlock_failure_changes_nothing (js "hunter22") 1000 2000
                corruptWorld
                (DOMException "InvalidCharacterError" "Invalid character") H')
      as [[He _]|[[_ Hr]|[[He _]|[He _]]]];
      [discriminate He|exact Hr|discriminate He|discriminate He].
Defined.


(** The locked wallet and the right password. *)
Lemma unlock_opens_with_vault_phrase_witness :
  let secret := js "abandon ability able" in
  let r := handleUnlock (js "hunter22") 1000 2000 lockedWorld in
  getDecryptedMnemonic (js "hunter22") lockedWorld = (Ok secret, lockedWorld)
  /\ effects r.2 = effects lockedWorld ++ [SdkInitialize secret "MAINNET"]
  /\ forall t, (t < 1000 + 1800000)%Z ->
       (getSessionMnemonic t r.2).1 = Ok (Some secret).
Proof.
  assert (Hv : getDecryptedMnemonic (js "hunter22") lockedWorld
               = (Ok (js "abandon ability able"), lockedWorld))
    by (vm_compute; reflexivity).
  split; [exact Hv|].
  assert (Hs : initializationStatus (walletStore lockedWorld) = idle
               \/ initializationStatus (walletStore lockedWorld) = needs_password)
    by (right; vm_compute; reflexivity).
  assert (Hm : sessionStorage lockedWorld !! MNEMONIC_STORAGE_KEY = None)
    by (vm_compute; reflexivity).
  assert (Hseed : sessionStorage lockedWorld !! SEED_STORAGE_KEY = None)
    by (vm_compute; reflexivity).
  assert (Hnow : (0 <= 1000)%Z) by lia.
  assert (Hlater : (2000 < 1000 + 1800000)%Z) by lia.
  pose proof (unlock_opens_with_vault_phrase (laws := laws) (js "hunter22")
                (js "abandon ability able") 1000 2000 lockedWorld Hv
                Hs Hm Hseed Hnow Hlater eq_refl) as H.
  assert (Hfit : spreads (sealed (js "abandon ability able")
                            (randomUUID (rng lockedWorld)).1
                            (randomUUID (rng lockedWorld)).2) = true)
    by (vm_compute; reflexivity).
  cbv zeta in H. rewrite Hfit in H. destruct H as (He & _ & Hsession).
  split; [exact He|exact Hsession].
Defined.

(** The password page with a phrase waiting and the password typed
    twice. *)
Lemma handleCreateWallet_outcome_witness :
  (handleCreateWallet (js "hunter22") (js "hunter22") pendingWorld).1
  = Ok WalletCreated
  /\ (handleCreateWallet (js "hunter22") (js "hunter2") pendingWorld)
     = (Ok PasswordsDoNotMatch, pendingWorld)
  /\ (handleCreateWallet (js "hunter2") (js "hunter2") pendingWorld)
     = (Ok PasswordTooShort, pendingWorld)
  /\ (handleCreateWallet (js "hunter22") (js "hunter22") (initialWorld rng0))
     = (Ok MnemonicNotFound, initialWorld rng0).
Proof.
  pose proof (handleCreateWallet_outcome (laws := laws) (js "hunter22")
                (js "hunter22") pendingWorld) as H1.
  pose proof (handleCreateWallet_outcome (laws := laws) (js "hunter22")
                (js "hunter2") pendingWorld) as H2.
  pose proof (handleCreateWallet_outcome (laws := laws) (js "hunter2")
                (js "hunter2") pendingWorld) as H3.
  pose proof (handleCreateWallet_outcome (laws := laws) (js "hunter22")
                (js "hunter22") (initialWorld rng0)) as H4.
  split; [exact (proj1 H1)|]. split; [exact H2|]. split; [exact H3|exact H4].
Defined.

(** A reset while the wallet of a new phrase is being opened. *)
Lemma reset_during_initWallet_witness :
  let phrase := js "abandon ability able" in
  let started := initWallet_begin phrase (initialWorld rng0) in
  let w' := (initWallet_resume phrase wallet0 (resetWallet started.2).2).2 in
  SparkWallet_initialize phrase "MAINNET" = Ok wallet0
  /\ initializationStatus (walletStore w') = success
  /\ wallet (walletStore w') = None
  /\ sessionStorage w' !! MNEMONIC_STORAGE_KEY = Some phrase.
Proof.
  intros phrase started w'. split; [reflexivity|].
  destruct (reset_during_initWallet (sdk := sdk) phrase (initialWorld rng0)
              wallet0 "sp1example" "02example" ["bc1qa"; "bc1qb"] rejectingLedger
              eq_refl eq_refl eq_refl eq_refl)
    as (_ & _ & Hs & _ & Hw & _ & Hc & _).
  split; [exact Hs|]. split; [exact Hw|exact Hc].
Defined.

(** Each of the two bare actions, on its own, breaks the coherence of the
    wallet store. *)
Example bare_actions_break_coherence :
  ~ coherent (act (DoSetWallet wallet0) (initialWorld rng0))
  /\ ~ coherent (act (DoSetInitializationStatus success None)
                   (initialWorld rng0)).
Proof.
  split.
  - intros [Hi _]. vm_compute in Hi. discriminate Hi.
  - intros [_ Hc]. destruct (Hc eq_refl) as [[? Hw] _].
    vm_compute in Hw. discriminate Hw.
Qed.

(** Logging out with 1000 in the store and unlocking again: a first fetch
    of 1500 shows the toast. *)
Lemma first_fetch_after_relogin_is_compared_witness :
  btcBalance (walletStore fundedWorld) = Some 1000%Z
  /\ handleUnlock (js "hunter22") 1000 2000 (handleLogout fundedWorld).2
     = (Ok Unlocked, reloggedWorld)
  /\ exists r w3,
       balanceEffect reloggedWorld = (Ok (Some r), w3)
       /\ toasts (effects (reconcilerStep (Settle 0 (Ok balance1500)) r w3).2)
          = [500%Z].
Proof.
  assert (Hb : btcBalance (walletStore fundedWorld) = Some 1000%Z)
    by (vm_compute; reflexivity).
  assert (Hu : handleUnlock (js "hunter22") 1000 2000 (handleLogout fundedWorld).2
               = (Ok Unlocked, reloggedWorld)) by (vm_compute; reflexivity).
  split; [exact Hb|]. split; [exact Hu|].
  destruct (first_fetch_after_relogin_is_compared (js "hunter22") 1000 2000
              fundedWorld reloggedWorld 1000 Hb Hu) as (r & w3 & Hr & Ht).
  exists r, w3. split; [exact Hr|]. rewrite (Ht balance1500).
  vm_compute. reflexivity.
Defined.

(** The mark of validity can be stale: a valid phrase is entered and
    validated, then changed, and the box is ticked and [Continue] pressed
    before the timer fires; the changed phrase is stored unvalidated. *)
Example stale_validation_stores_invalid_phrase :
  let s :=
    CreatePage.run validateMnemonic
      [CreatePage.ToggleMode;
       CreatePage.InputChange (js "abandon ability able");
       CreatePage.TimerFires;
       CreatePage.InputChange (js "abandon ability ablx");
       CreatePage.ConfirmSave true]
      (CreatePage.mount (js "zoo zoo zoo")) in
  let r := CreatePage.handleContinue s (initialWorld rng0) in
  CreatePage.timer s = true
  /\ validateMnemonic (js "abandon ability ablx") = false
  /\ sessionStorage r.2 !! PENDING_MNEMONIC = Some (js "abandon ability ablx").
Proof. repeat split; vm_compute; reflexivity. Qed.

(** The empty address of a failed generation is watched and polled. *)
Example empty_address_is_watched :
  (getBitcoinDepositAddress (Ok "") openWorld).1
  = Throw (Error "Failed to generate deposit address")
  /\ elements (onchainDepositAddresses
                 (walletStore (getBitcoinDepositAddress (Ok "") openWorld).2))
     = ["bc1qa"; "bc1qb"; ""].
Proof. split; vm_compute; reflexivity. Qed.
End Cases.
